(** * Verification of the customer-support agent workflow

    A shallow embedding of [agentsapp/agent_builder.py] and of the [State]
    declaration of [agentsapp/utils.py], together with a model of the
    graph engine the module is compiled against, and the properties of
    the workflow stated over them.

    Conventions.
    - A Python [dict] with string keys is a [gmap string _]; [d.get(k)],
      [k in d] and [d[k]] are lookups.
    - A Python value that the nodes inspect is a [Value]
      ([None], a [str], or a list of messages).
    - [str] is [string], and the texts handled are ASCII texts: case
      mapping, white space, letters and digits are the ASCII ones
      ([isdigit] holds of [0] to [9] only), and what is stated of a
      text is stated of an ASCII text.
    - An operation that can raise returns a [result]; [try/except] is a
      match on it. *)

From Stdlib Require Import ZArith String Ascii List Bool Lia.
From stdpp Require Import base strings gmap list pretty.

Local Open Scope string_scope.
Local Open Scope Z_scope.

(** ** Python primitives used by the nodes *)

Module Py.

(** A raised exception, seen through what the code looks at: its class,
    [str(e)], and whether it has an [interrupt_message] attribute. *)
Record Exn := mkExn {
  exn_class : string;
  exn_str : string;
  exn_interrupt_message : option string
}.

Inductive result (A : Type) : Type :=
| Ok (a : A)
| Raise (e : Exn).
Arguments Ok {A} a.
Arguments Raise {A} e.

Definition bind {A B} (m : result A) (k : A -> result B) : result B :=
  match m with
  | Ok a => k a
  | Raise e => Raise e
  end.

Definition error (cls msg : string) : Exn := mkExn cls msg None.

Definition nl : string := String (ascii_of_nat 10) EmptyString.

(** [c.lower()] on one ASCII character. *)
Definition lower_ascii (c : ascii) : ascii :=
  let n := nat_of_ascii c in
  if ((65 <=? n) && (n <=? 90))%nat then ascii_of_nat (n + 32) else c.

(** [s.lower()]. *)
Fixpoint lower (s : string) : string :=
  match s with
  | EmptyString => EmptyString
  | String c s' => String (lower_ascii c) (lower s')
  end.

(** White space as [str.split()] sees it (ASCII range). *)
Definition is_space (c : ascii) : bool :=
  let n := nat_of_ascii c in
  ((n =? 32) || ((9 <=? n) && (n <=? 13)) || ((28 <=? n) && (n <=? 31)))%nat.

Fixpoint split_go (cur : string) (s : string) : list string :=
  match s with
  | EmptyString => if decide (cur = EmptyString) then [] else [cur]
  | String c s' =>
      if is_space c
      then (if decide (cur = EmptyString) then split_go EmptyString s'
            else cur :: split_go EmptyString s')
      else split_go (cur ++ String c EmptyString) s'
  end.

(** [s.split()]: the maximal runs of non-space characters. *)
Definition split (s : string) : list string := split_go EmptyString s.

(** [sub in s] on strings: [sub] occurs as a substring of [s]. *)
Fixpoint contains (sub s : string) : bool :=
  String.prefix sub s ||
  match s with
  | EmptyString => false
  | String _ s' => contains sub s'
  end.

(** [x in l] on a list of strings. *)
Definition mem (x : string) (l : list string) : bool :=
  bool_decide (x ∈ l).

(** [l.index(x)]: the first position of [x], [ValueError] when absent. *)
Fixpoint index_from (i : Z) (x : string) (l : list string) : result Z :=
  match l with
  | [] => Raise (error "ValueError" (x ++ " is not in list"))
  | y :: l' => if decide (x = y) then Ok i else index_from (i + 1) x l'
  end.
Definition index (x : string) (l : list string) : result Z :=
  index_from 0 x l.

(** [l[i]] for a non-negative [i]. *)
Definition nth_Z (l : list string) (i : Z) : result string :=
  match l !! Z.to_nat i with
  | Some x => Ok x
  | None => Raise (error "IndexError" "list index out of range")
  end.

Definition len {A} (l : list A) : Z := Z.of_nat (length l).

(** [c.isdigit()] on one ASCII character: one of [0] to [9].  Outside
    ASCII, Python knows further digits (the superscript two is one);
    they are not modelled. *)
Definition isdigit (c : ascii) : bool :=
  let n := nat_of_ascii c in ((48 <=? n) && (n <=? 57))%nat.

(** [''.join(c for c in s if c.isdigit())]. *)
Fixpoint digits_of (s : string) : string :=
  match s with
  | EmptyString => EmptyString
  | String c s' =>
      if isdigit c then String c (digits_of s') else digits_of s'
  end.

(** Truthiness of a [str]. *)
Definition str_truthy (s : string) : bool :=
  negb (bool_decide (s = EmptyString)).

End Py.

Import Py.

Global Instance result_ret : MRet result := @Ok.
Global Instance result_bind : MBind result := fun A B k m => Py.bind m k.

(** ** Messages and the graph state *)

Inductive MsgType := human | ai | system | tool.

(** The [content] of a LangChain message: a [str], or a list of parts. *)
Inductive Content :=
| CStr (s : string)
| CParts (parts : list string).

Record Message := mkMessage { msg_type : MsgType; content : Content }.

Definition HumanMessage (s : string) : Message := mkMessage human (CStr s).
Definition AIMessage (s : string) : Message := mkMessage ai (CStr s).
Definition SystemMessage (s : string) : Message := mkMessage system (CStr s).

Inductive Value :=
| VNone
| VStr (s : string)
| VMsgs (ms : list Message).

Global Instance MsgType_eq_dec : EqDecision MsgType.
Proof. solve_decision. Defined.
Global Instance Content_eq_dec : EqDecision Content.
Proof. solve_decision. Defined.
Global Instance Message_eq_dec : EqDecision Message.
Proof. solve_decision. Defined.
Global Instance Value_eq_dec : EqDecision Value.
Proof. solve_decision. Defined.

(** [bool(v)]. *)
Definition truthy (v : Value) : bool :=
  match v with
  | VNone => false
  | VStr s => str_truthy s
  | VMsgs ms => negb (bool_decide (ms = []))
  end.

(** [class State(TypedDict)] of utils.py: a dict with the keys
    [customer_id], [messages], [loaded_memory]; any of them can be
    absent.  [remaining_steps] is a value the engine manages and no node
    reads or writes, so it is not a key of the dict. *)
Abbreviation State := (gmap string Value).

(** The [configurable] dict of a [RunnableConfig]. *)
Abbreviation Config := (gmap string Value).

(** [state.get(k)]: [None] when the key is absent. *)
Definition get (st : State) (k : string) : Value :=
  default VNone (st !! k).

(** [state.get(k, d)]. *)
Definition get_default (st : State) (k : string) (d : Value) : Value :=
  default d (st !! k).

(** [k in state]. *)
Definition has_key (st : State) (k : string) : bool :=
  bool_decide (is_Some (st !! k)).

(** [v is None]. *)
Definition is_None (v : Value) : bool :=
  match v with VNone => true | _ => false end.

(** [state["messages"]] read as a message list: the list when the key
    holds one, nothing otherwise. *)
Definition messages_of (st : State) : list Message :=
  match st !! "messages" with
  | Some (VMsgs ms) => ms
  | _ => []
  end.

(** ** Nodes of the workflow (agent_builder.py) *)

(** What executing a node does: it returns a partial state update,
    suspends on [interrupt(prompt)], or lets an exception escape. *)
Inductive NodeOutcome :=
| Delta (d : State)
| Suspend (prompt : string)
| NodeRaise (e : Exn).

(** What a tool hands back, seen through [bool(r)] and [str(r)]. *)
Record ToolResult := mkToolResult { tr_truthy : bool; tr_str : string }.

(** The functions the nodes call and the module does not define: the
    preference store of utils.py, the compiled supervisor sub-graph
    (used as a node: it returns its update or raises), and the SQL
    tools. *)
Record Collaborators := mkCollaborators {
  load_user_memory : Value -> result string;
  save_user_memory : Value -> Value -> list string -> result unit;
  supervisor : State -> Config -> result State;
  call_tool : string -> list Value -> result ToolResult
}.

Definition verify_info_body (st : State) (cfg : Config) : result State :=
  if is_None (get st "customer_id") then
    let customer_id := "1" in
    let intent_message :=
      SystemMessage
        ("Thank you for contacting us! I'll help you with your request. Using account ID "
           ++ customer_id ++ ".") in
    Ok {[ "customer_id" := VStr customer_id;
          "messages" := VMsgs [intent_message] ]}
  else
    Ok ∅.

(** [verify_info]: the body under [try], and the [except] branch. *)
Definition verify_info (st : State) (cfg : Config) : NodeOutcome :=
  match verify_info_body st cfg with
  | Ok d => Delta d
  | Raise _ =>
      Delta {[ "customer_id" := VStr "1";
               "messages" := VMsgs [SystemMessage
                 "I'm experiencing technical difficulties, but I'll help you with a test account."] ]}
  end.

(** [human_input]: [interrupt("Please provide input.")] suspends the
    run; when the run is resumed the call returns the resume payload,
    which the node appends to the messages (the messages reducer turns a
    bare string into a human message). *)
Definition human_input (resume : option string) (st : State) (cfg : Config)
  : NodeOutcome :=
  match resume with
  | None => Suspend "Please provide input."
  | Some user_input => Delta {[ "messages" := VMsgs [HumanMessage user_input] ]}
  end.

(** The [user_id] that [load_memory] and [create_memory] work with. *)
Definition resolve_user_id (st : State) (cfg : Config) : Value :=
  let user_id := get_default cfg "user_id" (VStr "") in
  if negb (truthy user_id) && has_key st "customer_id"
  then get st "customer_id"
  else user_id.

Definition load_memory (col : Collaborators) (st : State) (cfg : Config)
  : NodeOutcome :=
  let user_id := resolve_user_id st cfg in
  if negb (truthy user_id) then Delta {[ "loaded_memory" := VStr "" ]}
  else
    match load_user_memory col user_id with
    | Ok memory => Delta {[ "loaded_memory" := VStr memory ]}
    | Raise e => NodeRaise e
    end.

Definition genres : list string :=
  ["rock"; "pop"; "jazz"; "classical"; "hip hop"; "rap"; "country";
   "blues"; "electronic"; "dance"; "metal"; "folk"; "indie"].

(** [" ".join(parts)]. *)
Fixpoint join_space (parts : list string) : string :=
  match parts with
  | [] => ""
  | [x] => x
  | x :: rest => x ++ " " ++ join_space rest
  end.

Definition content_str (m : Message) : result string :=
  match content m with
  | CStr s => Ok s
  | CParts _ =>
      Raise (error "TypeError" "sequence item: expected str instance, list found")
  end.

Fixpoint contents (ms : list Message) : result (list string) :=
  match ms with
  | [] => Ok []
  | m :: ms' => c ← content_str m; cs ← contents ms'; Ok (c :: cs)
  end.

Fixpoint chars (s : string) : list string :=
  match s with
  | EmptyString => []
  | String c s' => String c EmptyString :: chars s'
  end.

(** The preferences [create_memory] saves: the genres named in the
    conversation, [rock] and [pop] when there are none. *)
Definition music_prefs_of (st : State) : result (list string) :=
  let music_prefs := ["rock"; "pop"] in
  match st !! "messages" with
  | None => Ok music_prefs
  | Some VNone =>
      Raise (error "TypeError" "object of type 'NoneType' has no len()")
  | Some (VStr s) =>
      if (0 <? len (chars s)) then
        let message_text := lower (join_space (chars s)) in
        let found_genres := filter (fun g => contains g message_text = true) genres in
        Ok (if bool_decide (found_genres = []) then music_prefs else found_genres)
      else Ok music_prefs
  | Some (VMsgs ms) =>
      if (0 <? len ms) then
        cs ← contents ms;
        let message_text := lower (join_space cs) in
        let found_genres := filter (fun g => contains g message_text = true) genres in
        Ok (if bool_decide (found_genres = []) then music_prefs else found_genres)
      else Ok music_prefs
  end.

(** [create_memory]: every path returns the empty update; a failure
    while saving is printed and dropped. *)
Definition create_memory (col : Collaborators) (st : State) (cfg : Config)
  : NodeOutcome :=
  let user_id := resolve_user_id st cfg in
  if negb (truthy user_id) then Delta ∅
  else
    match (music_prefs ← music_prefs_of st;
           save_user_memory col user_id user_id music_prefs) with
    | Ok _ => Delta ∅
    | Raise save_error => Delta ∅
    end.

(** The supervisor sub-graph as a node of the workflow. *)
Definition supervisor_node (col : Collaborators) (st : State) (cfg : Config)
  : NodeOutcome :=
  match supervisor col st cfg with
  | Ok d => Delta d
  | Raise e => NodeRaise e
  end.

(** The routing function of the conditional edge out of [verify_info]. *)
Definition should_interrupt (st : State) (cfg : Config) : string :=
  if negb (is_None (get st "customer_id")) then "continue" else "interrupt".

(** The label map given to [add_conditional_edges]. *)
Definition verify_info_routes : gmap string string :=
  {[ "continue" := "load_memory"; "interrupt" := "human_input" ]}.

(** [customer_id] is set: the key is there and its value is not [None]. *)
Definition customer_id_set (st : State) : Prop :=
  exists v, st !! "customer_id" = Some v /\ v <> VNone.

(** ** The graph engine *)

(** The module builds its workflow with [StateGraph] and runs it with
    [invoke]; the engine behind them is not part of the repository.  The
    specification describes it (sections 3 and 4), and this module
    follows that description step by step. *)
Module Engine.

(** Modelled from the spec: the reducer of the [messages] field, which
    the [State] declaration names [add_messages] and the repository does
    not define.  "New messages are concatenated, never replacing prior
    ones." *)
Definition add_messages (left right : list Message) : list Message :=
  left ++ right.

(** What a delta may put under [messages]: a message list, or one bare
    string, which stands for a human message. *)
Definition as_messages (v : Value) : list Message :=
  match v with
  | VMsgs ms => ms
  | VStr s => [HumanMessage s]
  | VNone => []
  end.

(** Modelled from the spec: the engine's merge of a node's delta into
    the state, "field-level overwrite, except [messages] which appends".
    Which field has a reducer is read off the [State] declaration of
    utils.py: [messages] is annotated with [add_messages], the other
    fields are not. *)
Definition merge (st d : State) : State :=
  match d !! "messages" with
  | None => d ∪ st
  | Some v =>
      <["messages" := VMsgs (add_messages (messages_of st) (as_messages v))]>
        (d ∪ st)
  end.

(** Modelled from the spec: the status of a thread (section 3). *)
Inductive Status := Running | Interrupted | Completed | Failed.

Global Instance Status_eq_dec : EqDecision Status.
Proof. solve_decision. Defined.

(** Modelled from the spec: the marker a suspended node leaves
    (section 3), without the thread it is stored under. *)
Record InterruptMarker := mkMarker { im_node : string; im_prompt : string }.

(** Modelled from the spec: a checkpoint (section 3), without the
    thread it is stored under and without its timestamp; the status is
    the one the thread had when it was taken. *)
Record Checkpoint := mkCheckpoint {
  cp_seq : nat;
  cp_node : string;
  cp_state : State;
  cp_status : Status
}.

(** Modelled from the spec: a thread (section 3), its pending or last
    node, its status, the pending interrupt marker, and its checkpoints,
    newest first. *)
Record Thread := mkThread {
  th_current : string;
  th_status : Status;
  th_marker : option InterruptMarker;
  th_checkpoints : list Checkpoint
}.

Abbreviation Store := (gmap string Thread).

Definition START : string := "__start__".
Definition END : string := "__end__".

(** Modelled from the spec: an edge (section 3), unconditional or
    conditional. *)
Inductive Edge :=
| Uncond (target : string)
| Cond (decisionFn : State -> Config -> string) (labelToNodeMap : gmap string string).

(** Modelled from the spec: the [executeFn] of a node (section 3).  Its
    first argument is the resume payload, present only when the node is
    the one a resume call completes. *)
Abbreviation NodeFn := (option string -> State -> Config -> NodeOutcome).

(** Modelled from the spec: the graph a [StateGraph] is built into, the
    node registry and the edge out of each node. *)
Record Graph := mkGraph {
  nodes : gmap string NodeFn;
  edges : gmap string Edge
}.

(** Modelled from the spec: [RunResult] (section 6). *)
Record RunResult := mkRunResult {
  rr_status : Status;
  rr_state : option State;
  rr_prompt : option string;
  rr_error : option Exn
}.

Definition NoPendingInterruptError : Exn :=
  error "NoPendingInterruptError" "no pending interrupt for this thread".
Definition StepBudgetExceededError : Exn :=
  error "StepBudgetExceededError" "step budget exceeded".
Definition RoutingError (label : string) : Exn :=
  error "RoutingError" label.
Definition UnknownNodeError (name : string) : Exn :=
  error "UnknownNodeError" name.

Definition completed (st : State) : RunResult :=
  mkRunResult Completed (Some st) None None.
Definition interrupted (prompt : string) : RunResult :=
  mkRunResult Interrupted None (Some prompt) None.
Definition failed (e : Exn) : RunResult :=
  mkRunResult Failed None None (Some e).

(** Modelled from the spec: [loadLatest] of the Checkpointer (4.4), the
    state of the newest checkpoint, the empty state when there is
    none. *)
Definition latest_state (th : Thread) : State :=
  match th_checkpoints th with
  | cp :: _ => cp_state cp
  | [] => ∅
  end.

Definition next_seq (th : Thread) : nat :=
  match th_checkpoints th with
  | cp :: _ => S (cp_seq cp)
  | [] => 1%nat
  end.

(** Modelled from the spec: [save] of the Checkpointer (4.4), a new
    checkpoint with the next sequence number; the thread takes the node
    and status recorded in it. *)
Definition save (th : Thread) (node : string) (st : State) (s : Status)
    (m : option InterruptMarker) : Thread :=
  mkThread node s m (mkCheckpoint (next_seq th) node st s :: th_checkpoints th).

(** Modelled from the spec: step 6 of the execution algorithm (4.2),
    the node after [cur], by the unconditional edge or by the decision
    function on the merged state; a label that is not in the map is a
    [RoutingError]. *)
Definition next_node (g : Graph) (cur : string) (st : State) (cfg : Config)
  : result string :=
  match edges g !! cur with
  | Some (Uncond target) => Ok target
  | Some (Cond decisionFn labelToNodeMap) =>
      let label := decisionFn st cfg in
      match labelToNodeMap !! label with
      | Some target => Ok target
      | None => Raise (RoutingError label)
      end
  | None => Raise (RoutingError cur)
  end.

(** Modelled from the spec: steps 4 to 8 of the execution algorithm
    (4.2).  The node is fetched; the run fails when the budget is used
    up, and otherwise [remainingSteps] is decremented and the node is
    executed, so that a budget of [n] allows [n] node executions
    (section 8, Scenario B).  [resume] is the payload of a resume call,
    which the first node executed, the suspended one, is completed
    with.  The third component of the result lists the nodes this run
    executed, in order. *)
Fixpoint loop_from (g : Graph) (cfg : Config) (remainingSteps : nat)
    (resume : option string) (currentNode : string) (st : State) (th : Thread)
  : RunResult * Thread * list string :=
  match nodes g !! currentNode with
  | None =>
      let e := UnknownNodeError currentNode in
      (failed e, save th currentNode st Failed None, [])
  | Some executeFn =>
      match remainingSteps with
      | O =>
          (failed StepBudgetExceededError,
           save th currentNode st Failed None, [])
      | S remaining =>
          match executeFn resume st cfg with
          | Suspend prompt =>
              (interrupted prompt,
               save th currentNode st Interrupted
                 (Some (mkMarker currentNode prompt)),
               [currentNode])
          | NodeRaise e =>
              (failed e, save th currentNode st Failed None, [currentNode])
          | Delta d =>
              let st' := merge st d in
              let th' := save th currentNode st' Running None in
              match next_node g currentNode st' cfg with
              | Raise e =>
                  (failed e, save th' currentNode st' Failed None,
                   [currentNode])
              | Ok next =>
                  if decide (next = END) then
                    (completed st', save th' currentNode st' Completed None,
                     [currentNode])
                  else
                    let '(r, th'', executed) :=
                      loop_from g cfg remaining None next st' th' in
                    (r, th'', currentNode :: executed)
              end
          end
      end
  end.

(** The loop of a run that is no resume. *)
Definition loop (g : Graph) (cfg : Config) (remainingSteps : nat)
    (currentNode : string) (st : State) (th : Thread)
  : RunResult * Thread * list string :=
  loop_from g cfg remainingSteps None currentNode st th.

(** Modelled from the spec: step 7, continuing a run at [next], which
    may be the terminal pseudo-node. *)
Definition continue_at (g : Graph) (cfg : Config) (remainingSteps : nat)
    (next : string) (st : State) (th : Thread)
  : RunResult * Thread * list string :=
  if decide (next = END) then
    (completed st, save th (th_current th) st Completed None, [])
  else loop g cfg remainingSteps next st th.

(** Modelled from the spec: what a call passes to the engine, the input
    of a fresh run or the payload of a resume ([Command(resume=...)] in
    the code). *)
Inductive GraphInput :=
| Fresh (input : State)
| Resume (payload : string).

Definition new_thread : Thread := mkThread START Running None [].

(** Modelled from the spec: [run] of the GraphEngine, steps 1 to 3 of
    the execution algorithm (4.2), then the loop.  A resume call on a
    thread without a pending marker fails with
    [NoPendingInterruptError] and leaves the store as it is; one on an
    interrupted thread runs the loop from the suspended node, which is
    completed with the payload, under the budget of the call like any
    other node.  A fresh run starts from the pending node of an
    interrupted thread and from the start node otherwise. *)
Definition run (g : Graph) (remainingSteps : nat) (threadId : string)
    (input : GraphInput) (cfg : Config) (store : Store)
  : RunResult * Store * list string :=
  let th := default new_thread (store !! threadId) in
  let st := latest_state th in
  match input with
  | Resume payload =>
      match store !! threadId ≫= th_marker with
      | None => (failed NoPendingInterruptError, store, [])
      | Some marker =>
          let '(r, th', executed) :=
            loop_from g cfg remainingSteps (Some payload) (im_node marker) st
              (mkThread (th_current th) Running None (th_checkpoints th)) in
          (r, <[threadId := th']> store, executed)
      end
  | Fresh input =>
      let st' := merge st input in
      let first :=
        if decide (th_status th = Interrupted) then Ok (th_current th)
        else next_node g START st' cfg in
      match first with
      | Raise e =>
          (failed e, <[threadId := save th START st' Failed None]> store, [])
      | Ok currentNode =>
          let '(r, th', executed) :=
            continue_at g cfg remainingSteps currentNode st'
              (mkThread (th_current th) Running None (th_checkpoints th)) in
          (r, <[threadId := th']> store, executed)
      end
  end.

End Engine.

Import Engine.

(** ** The compiled workflow (build_complete_agent_system) *)

Definition build_complete_agent_system (col : Collaborators) : Graph :=
  {| nodes :=
       {[ "verify_info" := (fun _ => verify_info) : NodeFn;
          "human_input" := human_input : NodeFn;
          "load_memory" := (fun _ => load_memory col) : NodeFn;
          "supervisor" := (fun _ => supervisor_node col) : NodeFn;
          "create_memory" := (fun _ => create_memory col) : NodeFn ]};
     edges :=
       {[ START := Uncond "verify_info";
          "verify_info" := Cond should_interrupt verify_info_routes;
          "human_input" := Uncond "verify_info";
          "load_memory" := Uncond "supervisor";
          "supervisor" := Uncond "create_memory";
          "create_memory" := Uncond END ]} |}.

(** ** Running a compiled graph (run_agent_with_input) *)

(** What [agent_graph.invoke(input, config=config)] does: it returns the
    final state or raises. *)
Inductive InvokeOutcome :=
| Returned (st : State)
| Raised (e : Exn).

(** A compiled graph, as [run_agent_with_input] uses it: an object with
    an [invoke] method, which works on the checkpoint storage [S] the
    graph was compiled with. *)
Record CompiledGraph (S : Type) := mkCompiledGraph {
  invoke : GraphInput -> Config -> S -> InvokeOutcome * S
}.
Arguments invoke {S} _ _ _ _.
Arguments mkCompiledGraph {S} _.

(** Modelled from the spec: how the result of the engine reaches the
    caller of [invoke].  A completed run returns its state, an
    interrupted run surfaces as an exception that carries the prompt as
    [interrupt_message] (the attribute [run_agent_with_input] looks
    for), a failed run raises its error. *)
Definition outcome_of (r : RunResult) : InvokeOutcome :=
  match rr_status r with
  | Completed => Returned (default ∅ (rr_state r))
  | Interrupted =>
      let prompt := default "" (rr_prompt r) in
      Raised (mkExn "GraphInterrupt" prompt (Some prompt))
  | _ => Raised (default (error "Exception" "") (rr_error r))
  end.

(** Modelled from the spec: a graph compiled with a checkpointer and a
    step budget; the thread is the [thread_id] of the config. *)
Definition compile (g : Graph) (remainingSteps : nat) : CompiledGraph Store :=
  mkCompiledGraph (fun input cfg store =>
    match cfg !! "thread_id" with
    | Some (VStr threadId) =>
        let '(r, store', _) := run g remainingSteps threadId input cfg store in
        (outcome_of r, store')
    | _ => (Raised (error "ValueError" "thread_id is required"), store)
    end).

(** A value of the dict that [run_agent_with_input] returns. *)
Inductive RVal :=
| RStr (s : string)
| RState (st : State)
| RContent (c : Content)
| RBool (b : bool).

Abbreviation Result := (gmap string RVal).

(** What a call works on: how many UUIDs have been drawn so far, and the
    checkpoint storage of the graph. *)
Record World (S : Type) := mkWorld { uuids_drawn : nat; graph_store : S }.
Arguments mkWorld {S} _ _.
Arguments uuids_drawn {S} _.
Arguments graph_store {S} _.

(** Truthiness of an optional [str] argument: [None] and the empty
    string are false. *)
Definition given (o : option string) : option string :=
  match o with
  | Some s => if str_truthy s then Some s else None
  | None => None
  end.

(** [traceback.format_exc()] inside the handler of [e]. *)
Definition format_exc (e : Exn) : string :=
  "Traceback (most recent call last): " ++ exn_class e ++ ": " ++ exn_str e.

Section RunAgent.

Context {Storage : Type}.

(** [str(uuid.uuid4())]: the [n]-th identifier drawn. *)
Variable uuid4 : nat -> string.

(** The thread identifier of a call, and the number of UUIDs drawn
    after choosing it. *)
Definition choose_thread_id (thread_id : option string) (n : nat)
  : string * nat :=
  match given thread_id with
  | Some tid => (tid, n)
  | None => (uuid4 n, S n)
  end.

Definition make_config (thread_id : string) (user_id : option string)
  : Config :=
  match given user_id with
  | Some uid => <["user_id" := VStr uid]> {[ "thread_id" := VStr thread_id ]}
  | None => {[ "thread_id" := VStr thread_id ]}
  end.

(** The body of the outer [try]: the resume attempt with its fallback
    to a fresh invocation, or the initial invocation. *)
Definition invoke_agent (agent_graph : CompiledGraph Storage)
    (user_input resume_input : option string) (config : Config) (s : Storage)
  : InvokeOutcome * Storage :=
  match given resume_input with
  | Some resume_input =>
      let resume_message := HumanMessage resume_input in
      match invoke agent_graph (Resume resume_input) config s with
      | (Returned result, s1) => (Returned result, s1)
      | (Raised resume_error, s1) =>
          invoke agent_graph
            (Fresh {[ "messages" := VMsgs [resume_message] ]}) config s1
      end
  | None =>
      match user_input with
      | Some user_input =>
          invoke agent_graph
            (Fresh {[ "messages" := VMsgs [HumanMessage user_input] ]})
            config s
      | None =>
          (Raised (error "ValidationError" "content: Input should be a valid string"),
           s)
      end
  end.

Definition run_agent_with_input (agent_graph : CompiledGraph Storage)
    (user_input thread_id user_id resume_input : option string)
    (w : World Storage) : Result * World Storage :=
  let '(thread_id, n) := choose_thread_id thread_id (uuids_drawn w) in
  let config := make_config thread_id user_id in
  match invoke_agent agent_graph user_input resume_input config (graph_store w) with
  | (Returned result, s) =>
      ({[ "status" := RStr "complete";
          "result" := RState result;
          "thread_id" := RStr thread_id ]},
       mkWorld n s)
  | (Raised e, s) =>
      if bool_decide (is_Some (exn_interrupt_message e)) then
        ({[ "status" := RStr "interrupted";
            "message" := RStr (exn_str e);
            "thread_id" := RStr thread_id ]},
         mkWorld n s)
      else
        let error_details := format_exc e in
        ({[ "status" := RStr "error";
            "message" := RStr (exn_str e);
            "error_details" := RStr error_details;
            "thread_id" := RStr thread_id ]},
         mkWorld n s)
  end.

End RunAgent.

(** ** The sub-agent nodes (music_assistant, invoice_assistant) *)

Module Re.

Definition is_upper (c : ascii) : bool :=
  let n := nat_of_ascii c in ((65 <=? n) && (n <=? 90))%nat.
Definition is_lower (c : ascii) : bool :=
  let n := nat_of_ascii c in ((97 <=? n) && (n <=? 122))%nat.
(** [\w]. *)
Definition is_word (c : ascii) : bool :=
  is_upper c || is_lower c || isdigit c || bool_decide (c = "_"%char).

(** One left-to-right pass: [cur] is the match under way, [prev_word]
    says whether the character before the current one is a word
    character. *)
Fixpoint findall_go (prev_word : bool) (cur : option string) (s : string)
  : list string :=
  match s with
  | EmptyString => match cur with Some m => [m] | None => [] end
  | String c s' =>
      match cur with
      | Some m =>
          if is_lower c then findall_go true (Some (m ++ String c EmptyString)) s'
          else if is_word c then findall_go true None s'
          else m :: findall_go false None s'
      | None =>
          if is_upper c && negb prev_word
          then findall_go true (Some (String c EmptyString)) s'
          else findall_go (is_word c) None s'
      end
  end.

(** [re.findall(r'\b[A-Z][a-z]*\b', s)]. *)
Definition findall_capitalized (s : string) : list string :=
  findall_go false None s.

End Re.

(** The update both assistants return: one new assistant message. *)
Definition ai_reply (response : string) : State :=
  {[ "messages" := VMsgs [AIMessage response] ]}.

(** [state["messages"][-1].content] when [messages] is in the state and
    is truthy, [fallback] otherwise. *)
Definition last_user_input (st : State) (fallback : string) : result Content :=
  if has_key st "messages" && truthy (get st "messages") then
    match get st "messages" with
    | VMsgs ms =>
        match last ms with
        | Some m => Ok (content m)
        | None => Raise (error "IndexError" "list index out of range")
        end
    | _ => Raise (error "AttributeError" "'str' object has no attribute 'content'")
    end
  else Ok (CStr fallback).

(** [user_input.lower()], which only a [str] has. *)
Definition content_lower (c : Content) : result string :=
  match c with
  | CStr s => Ok (lower s)
  | CParts _ => Raise (error "AttributeError" "'list' object has no attribute 'lower'")
  end.

(** [user_input.split()]. *)
Definition content_split (c : Content) : result (list string) :=
  match c with
  | CStr s => Ok (split s)
  | CParts _ => Raise (error "AttributeError" "'list' object has no attribute 'split'")
  end.

Definition content_text (c : Content) : string :=
  match c with CStr s => s | CParts _ => "" end.

(** [words.index(w) if w in words else -1]. *)
Definition index_or_minus_one (w : string) (words : list string) : result Z :=
  if mem w words then index w words else Ok (-1).

(** [words[idx + 1]] when [idx] points before the last word, [fallback]
    otherwise. *)
Definition word_after (words : list string) (idx : Z) (fallback : string)
  : result string :=
  if (0 <=? idx) && (idx <? len words - 1) then nth_Z words (idx + 1)
  else Ok fallback.

Definition music_tool_error (param : string) : string :=
  "I tried to search for information about " ++ param ++
  ", but encountered an error. Could you please try a different search or rephrase your question?".
Definition music_direct : string :=
  "I can help you find information about music in our catalog. You can ask about artists, albums, songs, or genres.".
Definition music_trouble : string :=
  "I'm sorry, I'm having trouble processing your music-related request right now. Please try again later.".

(** The keyword-based choice of a music tool and of its parameter. *)
Definition music_select (user_input : Content) (user_input_lower : string)
  : result (option (string * string)) :=
  if contains "artist" user_input_lower then
    let words := split user_input_lower in
    artist_idx ← index_or_minus_one "artist" words;
    param ←
      (if (0 <=? artist_idx) && (artist_idx <? len words - 1)
       then nth_Z words (artist_idx + 1)
       else
         let potential_artists := Re.findall_capitalized (content_text user_input) in
         Ok (match potential_artists with
             | p :: _ => p
             | [] => "Queen"
             end));
    if contains "album" user_input_lower
    then Ok (Some ("get_albums_by_artist", param))
    else Ok (Some ("get_tracks_by_artist", param))
  else if contains "genre" user_input_lower then
    let words := split user_input_lower in
    genre_idx ← index_or_minus_one "genre" words;
    param ← word_after words genre_idx "Rock";
    Ok (Some ("get_songs_by_genre", param))
  else if contains "song" user_input_lower || contains "track" user_input_lower then
    words ← content_split user_input;
    song_idx ←
      (if contains "song" user_input_lower
       then index "song" (split user_input_lower)
       else if contains "track" user_input_lower
       then index "track" (split user_input_lower)
       else Ok (-1));
    param ← word_after words song_idx "The";
    Ok (Some ("check_for_songs", param))
  else Ok None.

(** The body of [music_assistant] under its outer [try]. *)
Definition music_assistant_body (col : Collaborators) (st : State)
  : result State :=
  user_input ← last_user_input st "Tell me about music";
  user_input_lower ← content_lower user_input;
  selected ← music_select user_input user_input_lower;
  let response :=
    match selected with
    | Some (selected_tool, param) =>
        match call_tool col selected_tool [VStr param] with
        | Ok tool_result =>
            if tr_truthy tool_result
            then "Here's what I found about " ++ param ++ ":" ++ nl ++ nl
                   ++ tr_str tool_result
            else "I couldn't find any information about " ++ param
                   ++ " in our music catalog."
        | Raise tool_error => music_tool_error param
        end
    | None => music_direct
    end in
  Ok (ai_reply response).

Definition music_assistant (col : Collaborators) (st : State) (cfg : Config)
  : NodeOutcome :=
  match music_assistant_body col st with
  | Ok d => Delta d
  | Raise e => Delta (ai_reply music_trouble)
  end.

Definition invoice_tool_error : string :=
  "I tried to retrieve your invoice information, but encountered an error. Could you please try again later?".
Definition invoice_trouble : string :=
  "I'm sorry, I'm having trouble processing your invoice-related request right now. Please try again later.".

(** The keyword-based choice of an invoice tool, with the invoice
    identifier when the employee tool is chosen. *)
Definition invoice_select (user_input_lower : string)
  : result (string * option string) :=
  if contains "price" user_input_lower || contains "expensive" user_input_lower then
    Ok ("get_invoices_sorted_by_unit_price", None)
  else if contains "employee" user_input_lower || contains "support" user_input_lower then
    let words := split user_input_lower in
    invoice_idx ← index_or_minus_one "invoice" words;
    if (0 <=? invoice_idx) && (invoice_idx <? len words - 1) then
      match nth_Z words (invoice_idx + 1) with
      | Ok invoice_id =>
          Ok ("get_employee_by_invoice_and_customer", Some (digits_of invoice_id))
      | Raise _ => Ok ("get_employee_by_invoice_and_customer", Some "1")
      end
    else Ok ("get_employee_by_invoice_and_customer", Some "1")
  else Ok ("get_invoices_by_customer_sorted_by_date", None).

(** The arguments of the tool call: the invoice identifier goes first
    when the employee tool has a non-empty one; the customer identifier
    is always the last argument. *)
Definition invoice_args (selected_tool : string) (invoice_id : option string)
    (customer_id : Value) : list Value :=
  match given invoice_id with
  | Some invoice_id =>
      if bool_decide (selected_tool = "get_employee_by_invoice_and_customer")
      then [VStr invoice_id; customer_id]
      else [customer_id]
  | None => [customer_id]
  end.

(** The customer the invoice tools are called for. *)
Definition invoice_customer (st : State) : Value :=
  get_default st "customer_id" (VStr "1").

(** The body of [invoice_assistant] under its outer [try]. *)
Definition invoice_assistant_body (col : Collaborators) (st : State)
  : result State :=
  user_input ← last_user_input st "Tell me about my invoices";
  user_input_lower ← content_lower user_input;
  let customer_id := invoice_customer st in
  '(selected_tool, invoice_id) ← invoice_select user_input_lower;
  let response :=
    match call_tool col selected_tool
            (invoice_args selected_tool invoice_id customer_id) with
    | Ok tool_result =>
        if tr_truthy tool_result
        then "Here's what I found about your invoices:" ++ nl ++ nl
               ++ tr_str tool_result
        else "I couldn't find any invoice information for your account."
    | Raise tool_error => invoice_tool_error
    end in
  Ok (ai_reply response).

Definition invoice_assistant (col : Collaborators) (st : State) (cfg : Config)
  : NodeOutcome :=
  match invoice_assistant_body col st with
  | Ok d => Delta d
  | Raise e => Delta (ai_reply invoice_trouble)
  end.

(** ** The resume endpoint (views.py, ChatResumeView.post) *)

(** A DRF [Response]: the HTTP status and the JSON body. *)
Record Response := mkResponse { http_status : nat; body : Result }.

(** The messages stored for the conversation: role and content, oldest
    first.  [Message.objects.create] appends one. *)
Abbreviation Transcript := (list (string * Content)).

(** [result['status']] and the like, for a key that holds a string. *)
Definition str_field (res : Result) (k : string) : string :=
  match res !! k with
  | Some (RStr s) => s
  | _ => ""
  end.

(** The loop over [reversed(final_messages)] that looks for the last AI
    message of [result['result']['messages']]. *)
Definition final_ai_message (res : Result) : result (option Message) :=
  match res !! "result" with
  | Some (RState st) =>
      match st !! "messages" with
      | None => Raise (error "KeyError" "'messages'")
      | Some VNone =>
          Raise (error "TypeError" "'NoneType' object is not reversible")
      | Some (VStr _) => Ok None
      | Some (VMsgs ms) =>
          Ok (List.find (fun m => bool_decide (msg_type m = ai)) (reverse ms))
      end
  | _ => Raise (error "KeyError" "'result'")
  end.

Section Views.

Context {Storage : Type}.
Variable uuid4 : nat -> string.

(** The body of the [try] of [ChatResumeView.post].  The transcript and
    the world are returned also when the body raises, as they are when
    the exception is caught. *)
Definition resume_try (agent_system : CompiledGraph Storage)
    (thread_id message user_id : string)
    (log : Transcript) (w : World Storage)
  : result Response * Transcript * World Storage :=
  let '(result, w1) :=
    run_agent_with_input uuid4 agent_system None (Some thread_id)
      (Some user_id) (Some message) w in
  if bool_decide (str_field result "status" = "interrupted") then
    let log1 := (log ++ [("assistant", CStr (str_field result "message"))])%list in
    (Ok (mkResponse 200
           {[ "status" := RStr "interrupted";
              "thread_id" := RStr thread_id;
              "message" := RStr (str_field result "message");
              "requires_input" := RBool true ]}),
     log1, w1)
  else if bool_decide (str_field result "status" = "error") then
    let error_message :=
      "Error processing message: " ++ str_field result "message" in
    let log1 :=
      (log ++ [("assistant",
                CStr "I'm sorry, I encountered an error processing your request. Let me try again.")])%list in
    let '(fresh_result, w2) :=
      run_agent_with_input uuid4 agent_system (Some message) (Some thread_id)
        (Some user_id) None w1 in
    let failure :=
      mkResponse 500
        {[ "status" := RStr "error";
           "thread_id" := RStr thread_id;
           "message" := RStr error_message ]} in
    if bool_decide (str_field fresh_result "status" = "complete") then
      match final_ai_message fresh_result with
      | Raise e => (Raise e, log1, w2)
      | Ok (Some final_message) =>
          let content := content final_message in
          (Ok (mkResponse 200
                 {[ "status" := RStr "complete";
                    "thread_id" := RStr thread_id;
                    "response" := RContent content ]}),
           (log1 ++ [("assistant", content)])%list, w2)
      | Ok None => (Ok failure, log1, w2)
      end
    else (Ok failure, log1, w2)
  else
    match final_ai_message result with
    | Raise e => (Raise e, log, w1)
    | Ok (Some final_message) =>
        let content := content final_message in
        (Ok (mkResponse 200
               {[ "status" := RStr "complete";
                  "thread_id" := RStr thread_id;
                  "response" := RContent content ]}),
         (log ++ [("assistant", content)])%list, w1)
    | Ok None =>
        (Ok (mkResponse 500
               {[ "status" := RStr "error";
                  "thread_id" := RStr thread_id;
                  "message" := RStr "No assistant response found" ]}),
         log, w1)
    end.

(** The messages stored for the conversation that
    [get_object_or_404(Conversation, thread_id=thread_id,
    user=request.user)] gives; none when it raises. *)
Definition stored (conversation : result Transcript) : Transcript :=
  match conversation with
  | Ok log => log
  | Raise _ => []
  end.

(** [ChatResumeView.post].  [message] is [request.data['message']], a
    string when the request carries one; [conversation] is what the
    [get_object_or_404] line gives when it is reached: the conversation
    of the user with that thread id, here the messages stored for it,
    or the exception it raises, [Http404] when the user has no such
    conversation and [ValidationError] when [thread_id] is no UUID.
    That exception leaves the view.  The messages returned are those
    stored for the conversation after the request. *)
Definition ChatResumeView_post (agent_system : CompiledGraph Storage)
    (thread_id : string) (message : option string) (user_id : string)
    (conversation : result Transcript) (w : World Storage)
  : result Response * Transcript * World Storage :=
  match message with
  | None =>
      (Ok (mkResponse 400 {[ "error" := RStr "message is required" ]}),
       stored conversation, w)
  | Some message =>
      match conversation with
      | Raise e => (Raise e, [], w)
      | Ok log =>
          let log0 := (log ++ [("user", CStr message)])%list in
          match resume_try agent_system thread_id message user_id log0 w with
          | (Ok response, log1, w1) => (Ok response, log1, w1)
          | (Raise e, log1, w1) =>
              (Ok (mkResponse 500
                     {[ "status" := RStr "error";
                        "thread_id" := RStr thread_id;
                        "message" :=
                          RStr ("Error processing message: " ++ exn_str e) ]}),
               (log1 ++ [("assistant",
                          CStr "I'm sorry, I encountered an unexpected error. Let's start fresh.")])%list,
               w1)
          end
      end
  end.

End Views.

(** ** Notions used in the statements *)

(** The characters of a string, as a list. *)
Fixpoint ascii_list (s : string) : list ascii :=
  match s with
  | EmptyString => []
  | String c s' => c :: ascii_list s'
  end.

(** [s.isdigit()] on a whole string: it is not empty and all its
    characters are decimal digits. *)
Definition str_isdigit (s : string) : bool :=
  str_truthy s && forallb isdigit (ascii_list s).

(** The names of the four music tools. *)
Definition music_tool_names : list string :=
  ["get_albums_by_artist"; "get_tracks_by_artist"; "get_songs_by_genre";
   "check_for_songs"].

(** The messages a delta names: the list under [messages], one human
    message for a bare string, none otherwise. *)
Definition delta_messages (d : State) : list Message :=
  match d !! "messages" with
  | Some (VMsgs ms) => ms
  | Some (VStr s) => [HumanMessage s]
  | _ => []
  end.



(** What a run, or the rest of one, came to: it was not interrupted,
    and the nodes it executed are the first ones of [path]. *)
Definition ran_along (path : list string)
    (r : RunResult * Thread * list string) : Prop :=
  rr_status r.1.1 <> Interrupted /\ r.2 `prefix_of` path.


(** Collaborators that answer: no stored preferences, a supervisor that
    replies, tools that find rows. *)
Definition answering : Collaborators :=
  mkCollaborators
    (fun _ => Ok "None")
    (fun _ _ _ => Ok tt)
    (fun _ _ => Ok (ai_reply "Here is what I found."))
    (fun _ _ => Ok (mkToolResult true "rows")).

(** Collaborators whose preference store is down. *)
Definition memory_down : Collaborators :=
  mkCollaborators
    (fun _ => Raise (error "OperationalError" "database is locked"))
    (fun _ _ _ => Ok tt)
    (fun _ _ => Ok (ai_reply "Here is what I found."))
    (fun _ _ => Ok (mkToolResult true "rows")).

(** Collaborators whose tools all fail. *)
Definition tools_down : Collaborators :=
  mkCollaborators
    (fun _ => Ok "None")
    (fun _ _ _ => Ok tt)
    (fun _ _ => Ok (ai_reply "Here is what I found."))
    (fun _ _ => Raise (error "ToolException" "no such table: Invoice")).

(** A state that holds one user message. *)
Definition asking (text : string) : State :=
  {[ "messages" := VMsgs [HumanMessage text] ]}.

(** A store in which thread [t1] is parked on the interrupt of
    [human_input]. *)
Definition parked : Store :=
  {[ "t1" :=
       mkThread "human_input" Interrupted
         (Some (mkMarker "human_input" "Please provide input."))
         [mkCheckpoint 1 "human_input" (asking "hi") Interrupted] ]}.

(** The checkpoints of a thread that record a failure, as node names. *)
Definition failures (store : Store) (threadId : string) : list string :=
  match store !! threadId with
  | Some th =>
      cp_node <$> filter (fun cp => cp_status cp = Failed) (th_checkpoints th)
  | None => []
  end.

(** A UUID source for the examples: the decimal numerals. *)
Definition numeral (n : nat) : string := pretty n.

(** Collaborators whose supervisor fails when the last message it is
    given is a system message, and replies otherwise. *)
Definition flaky_supervisor : Collaborators :=
  mkCollaborators
    (fun _ => Ok "None")
    (fun _ _ _ => Ok tt)
    (fun st _ =>
       match last (messages_of st) with
       | Some m =>
           if decide (msg_type m = system)
           then Raise (error "RuntimeError" "supervisor failed")
           else Ok (ai_reply "Here is what I found.")
       | None => Ok (ai_reply "Here is what I found.")
       end)
    (fun _ _ => Ok (mkToolResult true "rows")).

(** The messages of the state a result carries under [result]. *)
Definition result_messages (res : Result) : list Message :=
  match res !! "result" with
  | Some (RState st) => messages_of st
  | _ => []
  end.

(** ** Customer lookup (utils.py, get_customer_id_from_identifier) *)

(** [int(s)] for a string of decimal digits, most significant first. *)
Fixpoint int_digits (acc : Z) (s : string) : Z :=
  match s with
  | EmptyString => acc
  | String c s' => int_digits (acc * 10 + (Z.of_nat (nat_of_ascii c) - 48)) s'
  end.

Definition int_of_str (s : string) : Z := int_digits 0 s.

(** [get_customer_id_from_identifier].  [get_db_connection] is what
    the call [get_db_connection()] of the first line gives: the
    connection [db], or the exception the call raises.  A connection is
    given by its [db_run]: [db_run query] stands for [db.run(query)]
    followed by [ast.literal_eval], the rows found, each given by its
    first column, or the exception either of them raises. *)
Definition get_customer_id_from_identifier
    (get_db_connection : result (string -> result (list Z)))
    (identifier : string)
  : result (option Z) :=
  db_run ← get_db_connection;
  if str_isdigit identifier then Ok (Some (int_of_str identifier))
  else
    first ← match identifier with
            | String c _ => Ok c
            | EmptyString => Raise (error "IndexError" "string index out of range")
            end;
    if bool_decide (first = "+"%char) then
      formatted_result ←
        db_run ("SELECT CustomerId FROM Customer WHERE Phone = '"
                  ++ identifier ++ "';");
      match formatted_result with
      | customer_id :: _ => Ok (Some customer_id)
      | [] => Ok None
      end
    else if contains "@" identifier then
      formatted_result ←
        db_run ("SELECT CustomerId FROM Customer WHERE Email = '"
                  ++ identifier ++ "';");
      match formatted_result with
      | customer_id :: _ => Ok (Some customer_id)
      | [] => Ok None
      end
    else Ok None.

(** ** The supervisor (utils.py, create_supervisor) *)

Module Supervisor.

(** What a sub-agent hands back to the supervisor: a dict with a
    [messages] entry, or anything else, seen through [str]. *)
Inductive ToolOutput :=
| OutMessages (messages : Value)
| OutOther (text : string).

(** A tool of the supervisor: [func] is called with
    [{"messages": state["messages"]}], given here by the value of the
    entry. *)
Record AgentTool := mkAgentTool {
  name : string;
  description : string;
  func : Value -> result ToolOutput
}.

Definition music_terms : list string :=
  ["music"; "song"; "artist"; "album"; "track"; "genre"].
Definition invoice_terms : list string :=
  ["invoice"; "purchase"; "buy"; "order"; "payment"].

(** [any(term in text for term in terms)]. *)
Definition any_term (terms : list string) (text : string) : bool :=
  existsb (fun term => contains term text) terms.

(** [next((tool for tool in tools if kw in tool.name.lower()), None)]. *)
Definition find_tool (kw : string) (tools : list AgentTool) : option AgentTool :=
  List.find (fun tool => contains kw (lower (name tool))) tools.

(** The keyword-based routing. *)
Definition select_tool (tools : list AgentTool) (user_input_lower : string)
  : option AgentTool :=
  if any_term music_terms user_input_lower then find_tool "music" tools
  else if any_term invoice_terms user_input_lower then find_tool "invoice" tools
  else head tools.

Definition no_answer (tool_name : string) : string :=
  "The " ++ tool_name
    ++ " processed your request but didn't provide a specific answer.".
Definition direct_response : string :=
  "I'm sorry, I couldn't process your request through our specialized agents. Is there anything specific about our music catalog or your invoices that you'd like to know?".
Definition trouble : string :=
  "I'm sorry, I'm having trouble processing your request right now. Please try again later.".

(** The response read off what the tool returned: the content of the
    last message that has one. *)
Definition response_of (tool_name : string) (out : ToolOutput) : result Content :=
  match out with
  | OutMessages (VMsgs ms) =>
      match last ms with
      | Some msg => Ok (content msg)
      | None => Ok (CStr (no_answer tool_name))
      end
  | OutMessages (VStr _) => Ok (CStr (no_answer tool_name))
  | OutMessages VNone =>
      Raise (error "TypeError" "'NoneType' object is not reversible")
  | OutOther text => Ok (CStr text)
  end.

(** The part of [supervisor_node] under the inner [try]. *)
Definition call_selected (tool : AgentTool) (st : State) : result State :=
  messages ← match st !! "messages" with
             | Some v => Ok v
             | None => Raise (error "KeyError" "'messages'")
             end;
  tool_result ← func tool messages;
  response ← response_of (name tool) tool_result;
  Ok {[ "messages" := VMsgs [mkMessage ai response] ]}.

(** The body of [supervisor_node] under its outer [try]. *)
Definition supervisor_node_body (tools : list AgentTool) (st : State)
  : result State :=
  user_input ← last_user_input st "Hello";
  user_input_lower ← content_lower user_input;
  match select_tool tools user_input_lower with
  | Some selected_tool =>
      match call_selected selected_tool st with
      | Ok d => Ok d
      | Raise tool_error => Ok (ai_reply direct_response)
      end
  | None => Ok (ai_reply direct_response)
  end.

Definition supervisor_node (tools : list AgentTool) (st : State) (cfg : Config)
  : NodeOutcome :=
  match supervisor_node_body tools st with
  | Ok d => Delta d
  | Raise e => Delta (ai_reply trouble)
  end.

End Supervisor.

(** ** Stored preferences (utils.py, load_user_memory and save_user_memory) *)

Module Memory.

(** The tables: the primary keys of the users; the profiles, by the user
    they belong to, with their customer id; and the preference rows
    (user of the profile, preference type, value) in the order of their
    creation. *)
Record DB := mkDB {
  users : list Z;
  profiles : list (Z * string);
  preferences : list (Z * string * string)
}.

(** The rows that [UserPreference.objects.filter(profile=profile)]
    selects, as (type, value), in the order of their creation; the
    order in which the query returns them is the database's choice. *)
Definition rows_of (user : Z) (db : DB) : list (string * string) :=
  omap (fun row : Z * string * string =>
          if decide (row.1.1 = user) then Some (row.1.2, row.2) else None)
       (preferences db).

(** The dict [pref_by_type], in insertion order: a new type is added at
    the end with one value, a known type gets the value appended. *)
Fixpoint add_pref (pref_type value : string) (d : list (string * list string))
  : list (string * list string) :=
  match d with
  | [] => [(pref_type, [value])]
  | (t, values) :: d' =>
      if decide (pref_type = t) then (t, (values ++ [value])%list) :: d'
      else (t, values) :: add_pref pref_type value d'
  end.

Definition pref_by_type (rows : list (string * string))
  : list (string * list string) :=
  fold_left (fun d row => add_pref row.1 row.2 d) rows [].

Definition is_alpha (c : ascii) : bool := Re.is_upper c || Re.is_lower c.

Definition upper_ascii (c : ascii) : ascii :=
  if Re.is_lower c then ascii_of_nat (nat_of_ascii c - 32) else c.

(** [s.title()]: a letter is put in upper case when the character before
    it is not a letter, in lower case when it is. *)
Fixpoint title_go (previous_is_cased : bool) (s : string) : string :=
  match s with
  | EmptyString => EmptyString
  | String c s' =>
      String (if is_alpha c
              then (if previous_is_cased then lower_ascii c else upper_ascii c)
              else c)
             (title_go (is_alpha c) s')
  end.
Definition title (s : string) : string := title_go false s.

(** [sep.join(parts)]. *)
Fixpoint join (sep : string) (parts : list string) : string :=
  match parts with
  | [] => ""
  | [x] => x
  | x :: rest => x ++ sep ++ join sep rest
  end.

Definition format_line (entry : string * list string) : string :=
  title entry.1 ++ " Preferences: " ++ join ", " entry.2.

(** The profile of a user, if there is one. *)
Definition find_profile (db : DB) (user : Z) : option (Z * string) :=
  List.find (fun p : Z * string => bool_decide (p.1 = user)) (profiles db).

(** What a lookup by [user_id] raises when the value is no number. *)
Definition not_a_number (user_id : string) : Exn :=
  error "ValueError"
    ("Field 'id' expected a number but got '" ++ user_id ++ "'.").

(** [UserProfile.objects.get_or_create(user_id=..., defaults=...)] for
    the user with key [user]; the database enforces the foreign key, so
    a profile cannot be created for a user that does not exist. *)
Definition get_or_create_profile (db : DB) (user : Z) (customer_id : string)
  : result DB :=
  match find_profile db user with
  | Some _ => Ok db
  | None =>
      if bool_decide (user ∈ users db)
      then Ok (mkDB (users db) (profiles db ++ [(user, customer_id)])%list
                 (preferences db))
      else Raise (error "IntegrityError" "FOREIGN KEY constraint failed")
  end.

(** [UserPreference.objects.filter(profile, preference_type).delete()]. *)
Definition delete_type (user : Z) (pref_type : string)
    (rows : list (Z * string * string)) : list (Z * string * string) :=
  filter (fun row => ~ (row.1.1 = user /\ row.1.2 = pref_type)) rows.

(** The [create] calls for the values of one type.  The rows are unique
    together, so a row that is already there fails the call; the rows
    created before it stay. *)
Fixpoint create_values (user : Z) (pref_type : string) (values : list string)
    (rows : list (Z * string * string))
  : result unit * list (Z * string * string) :=
  match values with
  | [] => (Ok tt, rows)
  | value :: values' =>
      if bool_decide ((user, pref_type, value) ∈ rows)
      then (Raise (error "IntegrityError" "UNIQUE constraint failed"), rows)
      else create_values user pref_type values'
             (rows ++ [(user, pref_type, value)])%list
  end.

(** The loop over [preferences.items()]. *)
Fixpoint save_types (user : Z) (prefs : list (string * list string))
    (rows : list (Z * string * string))
  : result unit * list (Z * string * string) :=
  match prefs with
  | [] => (Ok tt, rows)
  | (pref_type, values) :: prefs' =>
      match create_values user pref_type values
              (delete_type user pref_type rows) with
      | (Ok _, rows') => save_types user prefs' rows'
      | (Raise e, rows') => (Raise e, rows')
      end
  end.

Section Lookup.

(** The conversion of the [user_id] given to a lookup into the key of
    the user (the integer field's own), which refuses what is no
    number. *)
Variable to_int : string -> option Z.

(** The order in which the database returns the rows a query selects
    when the query names none, as the query of [load_user_memory]. *)
Variable order : list (string * string) -> list (string * string).

Definition load_user_memory (db : DB) (user_id : string) : result string :=
  match to_int user_id with
  | None => Raise (not_a_number user_id)
  | Some user =>
      match find_profile db user with
      | None => Ok "None"
      | Some profile =>
          let preferences := order (rows_of user db) in
          if bool_decide (preferences = []) then Ok "None"
          else Ok (join nl (format_line <$> pref_by_type preferences))
      end
  end.

Definition save_user_memory (db : DB) (user_id customer_id : string)
    (prefs : list (string * list string)) : result unit * DB :=
  match to_int user_id with
  | None => (Raise (not_a_number user_id), db)
  | Some user =>
      match get_or_create_profile db user customer_id with
      | Raise e => (Raise e, db)
      | Ok db1 =>
          let '(r, rows) := save_types user prefs (preferences db1) in
          (r, mkDB (users db1) (profiles db1) rows)
      end
  end.

End Lookup.

End Memory.

(** ** The stored transcript (utils.py, save_conversation_message and
    get_conversation_messages) *)

Module Chat.

(** A message row; [conversation] is the thread id of its conversation,
    a UUID, as the 128-bit number it is. *)
Record Row := mkRow {
  conversation : N;
  role : string;
  row_content : string;
  tool_call_id : option string;
  row_name : option string
}.

(** The conversations, by thread id, and the message rows in the
    order of their creation. *)
Record DB := mkDB { conversations : list N; messages : list Row }.

(** A message in LangChain format; a tool message carries the id of the
    call it answers. *)
Inductive ChatMessage :=
| Plain (m : Message)
| Tool (content_ tool_call_id_ : string) (name_ : option string).

(** What a lookup by [thread_id] raises when the value is no UUID. *)
Definition not_a_uuid (conversation_id : string) : Exn :=
  error "ValidationError" ("['“" ++ conversation_id ++ "” is not a valid UUID.']").

(** The message a row stands for; a row with another role stands for
    none; a tool row without the id of its call is refused by
    [ToolMessage]. *)
Definition to_message (msg : Row) : result (option ChatMessage) :=
  if decide (role msg = "user") then Ok (Some (Plain (HumanMessage (row_content msg))))
  else if decide (role msg = "assistant")
  then Ok (Some (Plain (AIMessage (row_content msg))))
  else if decide (role msg = "system")
  then Ok (Some (Plain (SystemMessage (row_content msg))))
  else if decide (role msg = "tool") then
    match tool_call_id msg with
    | Some id => Ok (Some (Tool (row_content msg) id (row_name msg)))
    | None => Raise (error "ValidationError" "tool_call_id: Input should be a valid string")
    end
  else Ok None.

Fixpoint to_messages (rows : list Row) : result (list ChatMessage) :=
  match rows with
  | [] => Ok []
  | msg :: rows' =>
      m ← to_message msg;
      ms ← to_messages rows';
      Ok (match m with Some m => m :: ms | None => ms end)
  end.

Section Lookup.

(** The conversion of the [conversation_id] given to a lookup into a
    UUID (the UUID field's own), which refuses what is none. *)
Variable to_python : string -> option N.

(** Of the keyword arguments, the two fields of a tool message. *)
Definition save_conversation_message (db : DB)
    (conversation_id role_ content_ : string)
    (tool_call_id_ name_ : option string) : result DB :=
  match to_python conversation_id with
  | None => Raise (not_a_uuid conversation_id)
  | Some thread =>
      if bool_decide (thread ∈ conversations db)
      then Ok (mkDB (conversations db)
                 (messages db
                  ++ [mkRow thread role_ content_ tool_call_id_ name_])%list)
      else Ok db
  end.

Definition get_conversation_messages (db : DB) (conversation_id : string)
  : result (list ChatMessage) :=
  match to_python conversation_id with
  | None => Raise (not_a_uuid conversation_id)
  | Some thread =>
      if bool_decide (thread ∈ conversations db)
      then to_messages
             (filter (fun msg => conversation msg = thread) (messages db))
      else Ok []
  end.

End Lookup.

End Chat.

(** ** The agent history of a conversation (models.py, Conversation.metadata;
    utils.py, save_detailed_chat_history; serializers.py) *)

Module History.

(** An entry of [agent_history]; the keys [agent_type] and [message_id]
    can be missing. *)
Record Entry := mkEntry {
  timestamp : string;
  agent_type : option string;
  message_length : Z;
  message_id : option Z
}.

(** The metadata dict, of which only [agent_history] is ever read or
    written: [None] is the dict without that key. *)
Abbreviation Metadata := (option (list Entry)).

(** A conversation object: the [_metadata] column, which holds the JSON
    text of the dict, or nothing. *)
Record Conversation := mkConversation { _metadata : option Metadata }.

(** The getter of the [metadata] property: it parses the column anew on
    every access, so what it returns is a dict of its own. *)
Definition metadata (conv : Conversation) : Metadata :=
  match _metadata conv with
  | Some m => m
  | None => None
  end.

(** The setter of the [metadata] property. *)
Definition set_metadata (conv : Conversation) (m : Metadata) : Conversation :=
  mkConversation (Some m).

(** [len(message)]. *)
Definition content_len (message : Content) : Z :=
  match message with
  | CStr s => Z.of_nat (String.length s)
  | CParts parts => len parts
  end.

(** The agent guessed from the message when none is given. *)
Definition detect_agent (message : Content) : result string :=
  message_lower ← content_lower message;
  if contains "music" message_lower || contains "song" message_lower
     || contains "artist" message_lower
  then Ok "music_catalog_subagent"
  else if contains "invoice" message_lower || contains "purchase" message_lower
  then Ok "invoice_information_subagent"
  else Ok "supervisor_agent".

(** The body of [save_detailed_chat_history] under its [try]: the
    conversation object as the body leaves it, and whether
    [conversation.save()] was reached.  The two writes into
    [conversation.metadata[...]] go to the dict the getter has just
    parsed, not to the column: the first has no effect, the second
    raises [KeyError] when that dict has no [agent_history]. *)
Definition save_body (conv : Conversation) (message : Content)
    (agent_type_ : option string) (message_id_ : option Z) (now : string)
  : result unit * Conversation :=
  match (match given agent_type_ with
         | Some a => Ok a
         | None => detect_agent message
         end) with
  | Raise e => (Raise e, conv)
  | Ok agent =>
      let conv1 :=
        if bool_decide (metadata conv = None) then set_metadata conv None
        else conv in
      let entry :=
        mkEntry now (Some agent) (content_len message)
          (match message_id_ with
           | Some id => if decide (id = 0) then None else Some id
           | None => None
           end) in
      match metadata conv1 with
      | None => (Raise (error "KeyError" "'agent_history'"), conv1)
      | Some agent_history =>
          let appended_to_the_parsed_copy := (agent_history ++ [entry])%list in
          (Ok tt, conv1)
      end
  end.

(** [save_detailed_chat_history]: the conversation object afterwards,
    and whether it was saved. *)
Definition save_detailed_chat_history (conv : Conversation) (message : Content)
    (agent_type_ : option string) (message_id_ : option Z) (now : string)
  : Conversation * bool :=
  match save_body conv message agent_type_ message_id_ now with
  | (Ok _, conv') => (conv', true)
  | (Raise e, conv') => (conv', false)
  end.

(** [MessageSerializer.get_agent_type] for the message with id [id]. *)
Definition get_agent_type (conv : Conversation) (id : Z) : string :=
  match metadata conv with
  | Some agent_entries =>
      match List.find (fun entry => bool_decide (message_id entry = Some id))
              agent_entries with
      | Some entry => default "unknown" (agent_type entry)
      | None => "unknown"
      end
  | None => "unknown"
  end.

(** The counting loop of [get_agent_summary] and of the admin's
    [agent_info]: [agent_counts[a] = agent_counts.get(a, 0) + 1], the
    dict kept in insertion order. *)
Fixpoint count_agent (a : string) (counts : list (string * nat))
  : list (string * nat) :=
  match counts with
  | [] => [(a, 1%nat)]
  | (b, n) :: counts' =>
      if decide (a = b) then (b, S n) :: counts'
      else (b, n) :: count_agent a counts'
  end.

Definition get_agent_summary (conv : Conversation) : list (string * nat) :=
  match metadata conv with
  | Some agent_history =>
      fold_left (fun counts entry =>
                   count_agent (default "unknown" (agent_type entry)) counts)
                agent_history []
  | None => []
  end.

End History.

(** ** Previews (serializers.py, get_last_message; admin.py, content_preview) *)

(** [content[:n] + ('...' if len(content) > n else '')]. *)
Definition preview (n : nat) (content_ : string) : string :=
  String.substring 0 n content_
  ++ (if (n <? String.length content_)%nat then "..." else "").

Definition last_message_preview (content_ : string) : string :=
  preview 100 content_.
Definition content_preview (content_ : string) : string :=
  preview 50 content_.

(** [agent_counts.get(a, 0)] on the counting dict. *)
Fixpoint count_of (a : string) (counts : list (string * nat)) : nat :=
  match counts with
  | [] => 0%nat
  | (b, n) :: counts' => if decide (a = b) then n else count_of a counts'
  end.

(** [entry.get('agent_type', 'unknown')]. *)
Definition agent_of (entry : History.Entry) : string :=
  default "unknown" (History.agent_type entry).

(** A conversion of [user_id] that takes the decimal numerals. *)
Definition decimal_key (user_id : string) : option Z :=
  if str_isdigit user_id then Some (int_of_str user_id) else None.

(** ** Deleting users (views.py, UserViewSet.bulk_delete) *)

Module Users.

Record User := mkUser { id : Z; is_superuser : bool }.

(** [l.remove(x)]: the first occurrence of [x] is taken out; it is an
    error when there is none. *)
Fixpoint remove (x : Z) (l : list Z) : result (list Z) :=
  match l with
  | [] => Raise (error "ValueError" "list.remove(x): x not in list")
  | y :: l' =>
      if decide (x = y) then Ok l'
      else l'' ← remove x l'; Ok (y :: l'')
  end.

(** The loop [for superuser_id in superuser_ids: user_ids.remove(...)]. *)
Fixpoint remove_all (xs : list Z) (l : list Z) : result (list Z) :=
  match xs with
  | [] => Ok l
  | x :: xs' => l' ← remove x l; remove_all xs' l'
  end.

(** [bulk_delete] for a request of the user [current] that lists the
    integers [user_ids]: the users left in the table, or the exception
    that escapes.  The count in the response is the number of rows the
    database deleted, those of other tables included, and is left
    out. *)
Definition bulk_delete (table : list User) (current : Z) (user_ids : list Z)
  : result (list User) :=
  user_ids1 ← (if bool_decide (current ∈ user_ids) then remove current user_ids
               else Ok user_ids);
  let superuser_ids :=
    id <$> filter (fun u => id u ∈ user_ids1 /\ is_superuser u = true) table in
  user_ids2 ← remove_all superuser_ids user_ids1;
  if bool_decide (user_ids2 <> [])
  then Ok (filter (fun u => id u ∉ user_ids2) table)
  else Ok table.

End Users.

(** How often [user_ids] may list a user without the user being
    deleted: once for the user of the request, once for a superuser. *)
Definition protections (current : Z) (u : Users.User) : nat :=
  ((if decide (Users.id u = current) then 1 else 0)
   + (if Users.is_superuser u then 1 else 0))%nat.

(** ** The chat endpoint (views.py, ChatView.post) *)

(** The agent the view names in its answer, guessed from the message. *)
Definition chat_agent_type (message : string) : string :=
  if contains "music" (lower message) || contains "song" (lower message)
     || contains "artist" (lower message)
  then "music_catalog_subagent"
  else if contains "invoice" (lower message) || contains "purchase" (lower message)
  then "invoice_information_subagent"
  else "supervisor_agent".

Definition chat_error_reply : string :=
  "I'm sorry, I encountered an error processing your request. Let me try a different approach.".
Definition chat_trouble_reply : string :=
  "I'm having trouble with our AI system at the moment. Please try again later or contact customer support for immediate assistance.".
Definition chat_fallback_reply : string :=
  "I processed your request but couldn't generate a proper response. Please try again.".
Definition chat_unexpected_reply : string :=
  "I'm sorry, I encountered an unexpected error. Please try again.".

Section ChatView.

Context {Storage : Type}.
Variable uuid4 : nat -> string.

(** The body of the [try] of [ChatView.post].  The transcript and the
    world are returned also when the body raises, as they are when the
    exception is caught.  The calls of [save_detailed_chat_history],
    which catch what they raise and write to the conversation only,
    are left out. *)
Definition chat_try (agent_system : CompiledGraph Storage)
    (thread_id message user_id : string)
    (log : Transcript) (w : World Storage)
  : result Response * Transcript * World Storage :=
  let '(result, w1) :=
    run_agent_with_input uuid4 agent_system (Some message) (Some thread_id)
      (Some user_id) None w in
  if bool_decide (str_field result "status" = "interrupted") then
    (Ok (mkResponse 200
           {[ "status" := RStr "interrupted";
              "thread_id" := RStr thread_id;
              "message" := RStr (str_field result "message");
              "requires_input" := RBool true ]}),
     (log ++ [("assistant", CStr (str_field result "message"))])%list, w1)
  else if bool_decide (str_field result "status" = "error") then
    let error_message :=
      "Error processing message: " ++ str_field result "message" in
    (Ok (mkResponse 200
           {[ "status" := RStr "error";
              "thread_id" := RStr thread_id;
              "message" := RStr error_message;
              "response" := RStr chat_trouble_reply ]}),
     (log ++ [("assistant", CStr chat_error_reply);
              ("assistant", CStr chat_trouble_reply)])%list, w1)
  else
    match final_ai_message result with
    | Raise e => (Raise e, log, w1)
    | Ok (Some final_message) =>
        let content := content final_message in
        let agent_type := chat_agent_type message in
        (Ok (mkResponse 200
               {[ "status" := RStr "complete";
                  "thread_id" := RStr thread_id;
                  "response" := RContent content;
                  "agent_type" := RStr agent_type ]}),
         (log ++ [("assistant", content)])%list, w1)
    | Ok None =>
        (Ok (mkResponse 200
               {[ "status" := RStr "complete";
                  "thread_id" := RStr thread_id;
                  "response" := RStr chat_fallback_reply;
                  "agent_type" := RStr "fallback_handler" ]}),
         (log ++ [("assistant", CStr chat_fallback_reply)])%list, w1)
    end.

(** [ChatView.post] for a request that carries [message] and either
    names a conversation of the user, of which [log] is the transcript,
    or names none ([thread_id] empty), for which a conversation is
    created. *)
Definition ChatView_post (agent_system : CompiledGraph Storage)
    (thread_id message user_id : string)
    (log : Transcript) (w : World Storage)
  : Response * Transcript * World Storage :=
  let '(thread_id, log, w) :=
    if str_truthy thread_id then (thread_id, log, w)
    else (uuid4 (uuids_drawn w), [],
          mkWorld (S (uuids_drawn w)) (graph_store w)) in
  let log0 := (log ++ [("user", CStr message)])%list in
  match chat_try agent_system thread_id message user_id log0 w with
  | (Ok response, log1, w1) => (response, log1, w1)
  | (Raise e, log1, w1) =>
      (mkResponse 200
         {[ "status" := RStr "error";
            "thread_id" := RStr thread_id;
            "message" := RStr ("Error processing message: " ++ exn_str e);
            "response" := RStr chat_unexpected_reply ]},
       (log1 ++ [("assistant", CStr chat_unexpected_reply)])%list,
       w1)
  end.

End ChatView.

(** The thread a chat request works on, what is stored for it before
    the request, and the world in which the agent is called: those of
    the conversation named, or those of the conversation created. *)
Definition chat_thread {Storage : Type} (uuid4 : nat -> string)
    (thread_id : string) (w : World Storage) : string :=
  if str_truthy thread_id then thread_id else uuid4 (uuids_drawn w).
Definition chat_before (thread_id : string) (log : Transcript) : Transcript :=
  if str_truthy thread_id then log else [].
Definition chat_world {Storage : Type} (thread_id : string) (w : World Storage)
  : World Storage :=
  if str_truthy thread_id then w
  else mkWorld (S (uuids_drawn w)) (graph_store w).

(** ** Continuing from a message (views.py,
    ConversationViewSet.continue_from_message) *)

(** A row of the message table: its id, the thread of its conversation,
    the time of its creation, its role and its content. *)
Record StoredMessage := mkStored {
  stored_id : Z;
  stored_conversation : string;
  stored_at : Z;
  stored_role : string;
  stored_content : Content
}.

(** What the action answers: the serialized conversation with HTTP 200,
    or a status and a message with HTTP 500. *)
Inductive ContinueResponse :=
| Conversation200
| Error500 (status message : string).

(** The deletion of the messages after the one to continue from: those
    of the conversation that were created later.  Nothing is deleted
    when no message is named, or none of this conversation has the
    id. *)
Definition truncate_after (rows : list StoredMessage) (thread_id : string)
    (message_id : option Z) : list StoredMessage :=
  match message_id with
  | Some id =>
      if decide (id = 0) then rows
      else
        match List.find
                (fun m => bool_decide (stored_id m = id
                                       /\ stored_conversation m = thread_id))
                rows with
        | Some continue_from =>
            filter (fun m => ~ (stored_conversation m = thread_id
                                /\ stored_at continue_from < stored_at m))
                   rows
        | None => rows
        end
  | None => rows
  end.

Section ContinueChat.

Context {Storage : Type}.
Variable uuid4 : nat -> string.

(** [continue_from_message] for a valid request on a conversation of
    the user.  [new_id] and [now] are the id and the time of creation of
    the user message, [new_id + 1] and [later] those of the assistant
    message.  The call of [save_detailed_chat_history] is left out, as
    in [chat_try]. *)
Definition continue_from_message (agent_system : CompiledGraph Storage)
    (thread_id : string) (message_id : option Z) (user_input user_id : string)
    (new_id now later : Z)
    (rows : list StoredMessage) (w : World Storage)
  : ContinueResponse * list StoredMessage * World Storage :=
  let rows1 := truncate_after rows thread_id message_id in
  let rows2 :=
    (rows1 ++ [mkStored new_id thread_id now "user" (CStr user_input)])%list in
  let '(result, w1) :=
    run_agent_with_input uuid4 agent_system (Some user_input) (Some thread_id)
      (Some user_id) None w in
  let failure :=
    Error500 (str_field result "status")
      (match result !! "message" with
       | Some (RStr message) => message
       | _ => "Error processing request"
       end) in
  if bool_decide (str_field result "status" = "complete") then
    match final_ai_message result with
    | Raise e => (Error500 "error" (exn_str e), rows2, w1)
    | Ok (Some final_message) =>
        (Conversation200,
         (rows2 ++ [mkStored (new_id + 1) thread_id later "assistant"
                      (content final_message)])%list,
         w1)
    | Ok None => (failure, rows2, w1)
    end
  else (failure, rows2, w1).

End ContinueChat.

(** ** The active language model (views.py, LLMModelViewSet.set_active;
    utils.py, get_llm) *)

Module Llm.

Section Models.

(** The floating-point numbers, of which the code only passes values
    on, and the literal [0]. *)
Context {float : Type}.
Variable zero : float.

(** A row of the model table. *)
Record LLMModel := mkLLMModel {
  pk : Z;
  name : string;
  provider : string;
  api_base : option string;
  model_path : option string;
  temperature : float;
  max_tokens : Z;
  is_active : bool
}.

(** What [get_llm] returns: the arguments a model object is built
    from. *)
Inductive LLM :=
| ChatOllama (model : string) (temperature_ : float) (base_url : string)
| GPT4All (model : option string) (temperature_ : float) (max_tokens_ : Z)
| LlamaCpp (model_path_ : option string) (temperature_ : float) (max_tokens_ : Z).

(** Whether building a model that is loaded from a file fails, and
    with what. *)
Variable load_error : LLM -> option Exn.

Definition with_active (b : bool) (m : LLMModel) : LLMModel :=
  mkLLMModel (pk m) (name m) (provider m) (api_base m) (model_path m)
    (temperature m) (max_tokens m) b.

(** [set_active] on the model with key [k]: nothing when there is no
    such model (the answer is 404), the table afterwards otherwise.
    All rows are made inactive, then the object fetched before is saved
    as active. *)
Definition set_active (table : list LLMModel) (k : Z) : option (list LLMModel) :=
  match List.find (fun m => bool_decide (pk m = k)) table with
  | None => None
  | Some model =>
      Some ((fun m => if decide (pk m = pk model) then with_active true model
                      else with_active false m) <$> table)
  end.

Definition default_llm : LLM := ChatOllama "llama2" zero "http://localhost:11434".

(** [LLMModel.objects.filter(is_active=True).first()]; the table is in
    the order of the keys. *)
Definition first_active (table : list LLMModel) : option LLMModel :=
  head (filter (fun m => is_active m = true) table).

(** The model object for a row, by its provider. *)
Definition build (model : LLMModel) : result LLM :=
  if decide (provider model = "ollama") then
    let base_url :=
      match given (api_base model) with
      | Some base => base
      | None => "http://localhost:11434"
      end in
    Ok (ChatOllama (name model) (temperature model) base_url)
  else if decide (provider model = "gpt4all") then
    let llm := GPT4All (model_path model) (temperature model) (max_tokens model) in
    match load_error llm with
    | Some e => Raise e
    | None => Ok llm
    end
  else if decide (provider model = "llama-cpp") then
    let llm := LlamaCpp (model_path model) (temperature model) (max_tokens model) in
    match load_error llm with
    | Some e => Raise e
    | None => Ok llm
    end
  else Ok default_llm.

(** The body of the [try] of [get_llm]. *)
Definition get_llm_body (table : list LLMModel) (model_name : option string)
  : result LLM :=
  model ←
    match given model_name with
    | Some model_name =>
        match filter (fun m => name m = model_name) table with
        | [model] => Ok (Some model)
        | [] => Ok (first_active table)
        | _ =>
            Raise (error "MultipleObjectsReturned"
                     "get() returned more than one LLMModel")
        end
    | None => Ok (first_active table)
    end;
  match model with
  | None => Ok default_llm
  | Some model => build model
  end.

Definition get_llm (table : list LLMModel) (model_name : option string) : LLM :=
  match get_llm_body table model_name with
  | Ok llm => llm
  | Raise e => default_llm
  end.

End Models.

End Llm.

(** ** Initial data (management/commands/init_db.py, Command.handle) *)

Module InitDb.

(** The models the command writes to. *)
Inductive Model := User | LLMModel | AgentType | Tool | Database | AgentConfig.

Global Instance Model_eq_dec : EqDecision Model.
Proof. solve_decision. Defined.

(** A row, as the keyword arguments it was created with. *)
Abbreviation Row := (list (string * string)).

(** The names a model accepts as keyword arguments: those of its fields
    (models.py; for [User], those the command uses), the aliases [pk]
    and [..._id], which the command does not use, aside. *)
Definition fields (m : Model) : list string :=
  match m with
  | User => ["username"; "email"; "password"]
  | LLMModel =>
      ["id"; "name"; "provider"; "api_base"; "api_key"; "model_path";
       "temperature"; "max_tokens"; "is_active"; "created_at"; "updated_at"]
  | AgentType => ["id"; "name"; "description"]
  | Tool => ["id"; "name"; "description"; "function_name"]
  | Database => ["id"; "name"; "connection_string"; "is_active"]
  | AgentConfig =>
      ["id"; "name"; "description"; "agent_type"; "llm_model"; "system_prompt";
       "is_active"]
  end.

Definition model_name (m : Model) : string :=
  match m with
  | User => "User"
  | LLMModel => "LLMModel"
  | AgentType => "AgentType"
  | Tool => "Tool"
  | Database => "Database"
  | AgentConfig => "AgentConfig"
  end.

(** The tables, and whether the file of the Chinook database exists. *)
Record DB := mkDB {
  users : list Row;
  llm_models : list Row;
  agent_types : list Row;
  tools : list Row;
  databases : list Row;
  agent_configs : list Row;
  chinook_file : bool
}.

Definition table (m : Model) (db : DB) : list Row :=
  match m with
  | User => users db
  | LLMModel => llm_models db
  | AgentType => agent_types db
  | Tool => tools db
  | Database => databases db
  | AgentConfig => agent_configs db
  end.

Definition insert (m : Model) (row : Row) (db : DB) : DB :=
  match m with
  | User =>
      mkDB (users db ++ [row]) (llm_models db) (agent_types db) (tools db)
        (databases db) (agent_configs db) (chinook_file db)
  | LLMModel =>
      mkDB (users db) (llm_models db ++ [row]) (agent_types db) (tools db)
        (databases db) (agent_configs db) (chinook_file db)
  | AgentType =>
      mkDB (users db) (llm_models db) (agent_types db ++ [row]) (tools db)
        (databases db) (agent_configs db) (chinook_file db)
  | Tool =>
      mkDB (users db) (llm_models db) (agent_types db) (tools db ++ [row])
        (databases db) (agent_configs db) (chinook_file db)
  | Database =>
      mkDB (users db) (llm_models db) (agent_types db) (tools db)
        (databases db ++ [row]) (agent_configs db) (chinook_file db)
  | AgentConfig =>
      mkDB (users db) (llm_models db) (agent_types db) (tools db)
        (databases db) (agent_configs db ++ [row]) (chinook_file db)
  end.

(** [Model.objects.create] with keyword arguments: a keyword that is no field of the
    model is refused, and nothing is stored. *)
Definition create (m : Model) (kwargs : Row) (db : DB) : result unit * DB :=
  match List.find (fun kv : string * string =>
                     negb (bool_decide (kv.1 ∈ fields m))) kwargs with
  | Some kv =>
      (Raise (error "TypeError"
                (model_name m ++ "() got unexpected keyword arguments: '"
                   ++ kv.1 ++ "'")),
       db)
  | None => (Ok tt, insert m kwargs db)
  end.

(** One [create] after the other; the rows created before a failure
    stay. *)
Fixpoint create_all (m : Model) (rows : list Row) (db : DB) : result unit * DB :=
  match rows with
  | [] => (Ok tt, db)
  | row :: rows' =>
      match create m row db with
      | (Ok _, db') => create_all m rows' db'
      | (Raise e, db') => (Raise e, db')
      end
  end.

(** [if not Model.objects.exists(): ...]. *)
Definition seed (m : Model) (rows : list Row) (db : DB) : result unit * DB :=
  if bool_decide (table m db = []) then create_all m rows db else (Ok tt, db).

Definition admin : Row :=
  [("username", "admin"); ("email", "admin@example.com"); ("password", "admin")].

Definition default_llm_models : list Row :=
  [[("name", "llama2"); ("provider", "ollama");
    ("api_base", "http://localhost:11434/api"); ("temperature", "0.0");
    ("max_tokens", "512"); ("is_active", "True")];
   [("name", "llama3"); ("provider", "ollama");
    ("api_base", "http://localhost:11434/api"); ("temperature", "0.0");
    ("max_tokens", "512"); ("is_active", "False")]].

Definition default_agent_types : list Row :=
  [[("name", "Music Catalog Agent");
    ("description", "Specialized agent for music catalog queries")];
   [("name", "Invoice Agent");
    ("description", "Specialized agent for invoice and purchase queries")];
   [("name", "Supervisor Agent");
    ("description", "Supervisor agent that routes queries to specialized agents")]].

Definition tool_row (name description : string) : Row :=
  [("name", name); ("description", description); ("function_name", name)].

Definition default_tools : list Row :=
  [tool_row "get_albums_by_artist" "Get albums by an artist";
   tool_row "get_tracks_by_artist" "Get songs by an artist";
   tool_row "get_songs_by_genre" "Get songs by genre";
   tool_row "check_for_songs" "Check if specific songs exist";
   tool_row "get_invoices_by_customer_sorted_by_date"
     "Get invoices for a customer sorted by date";
   tool_row "get_invoices_sorted_by_unit_price" "Get invoices sorted by unit price";
   tool_row "get_employee_by_invoice_and_customer"
     "Get employee associated with invoice and customer"].

Definition chinook (db_path : string) : Row :=
  [("name", "Chinook"); ("description", "Sample music store database");
   ("connection_string", "sqlite:///" ++ db_path); ("is_active", "True")].

(** The double quote. *)
Definition dq : string := String (ascii_of_nat 34) EmptyString.

Definition default_agent_config : Row :=
  [("name", "Default Configuration");
   ("description", "Default agent configuration");
   ("config_json",
    "{" ++ dq ++ "max_steps" ++ dq ++ ": 10, " ++ dq ++ "temperature" ++ dq
        ++ ": 0.0}");
   ("is_active", "True")].

Section Handle.

(** The path of the Chinook file, and what creating the directory and
    the file raises, if anything. *)
Variable db_path : string.
Variable file_error : option Exn.

Definition ensure_admin (db : DB) : result unit * DB :=
  if existsb (fun row : Row => bool_decide (("username", "admin") ∈ row)) (users db)
  then (Ok tt, db)
  else (Ok tt, insert User admin db).

Definition register_chinook (db : DB) : result unit * DB :=
  if bool_decide (table Database db = []) then
    match file_error with
    | Some e => (Raise e, db)
    | None =>
        let db1 :=
          mkDB (users db) (llm_models db) (agent_types db) (tools db)
            (databases db) (agent_configs db) true in
        create Database (chinook db_path) db1
    end
  else (Ok tt, db).

(** The steps of [handle], one after the other, up to the first that
    raises. *)
Fixpoint run_steps (steps : list (DB -> result unit * DB)) (db : DB)
  : result unit * DB :=
  match steps with
  | [] => (Ok tt, db)
  | step :: steps' =>
      match step db with
      | (Ok _, db') => run_steps steps' db'
      | (Raise e, db') => (Raise e, db')
      end
  end.

Definition handle (db : DB) : result unit * DB :=
  run_steps
    [ensure_admin;
     seed LLMModel default_llm_models;
     seed AgentType default_agent_types;
     seed Tool default_tools;
     register_chinook;
     seed AgentConfig [default_agent_config]]
    db.

End Handle.

Definition empty : DB := mkDB [] [] [] [] [] [] false.

End InitDb.

(** The reply of the invoice assistant to what its tool call gave. *)
Definition invoice_reply (r : result ToolResult) : string :=
  match r with
  | Ok tool_result =>
      if tr_truthy tool_result
      then "Here's what I found about your invoices:" ++ nl ++ nl
             ++ tr_str tool_result
      else "I couldn't find any invoice information for your account."
  | Raise _ => invoice_tool_error
  end.

(** Tools that answer with the customer they are asked about, the last
    argument of the call. *)
Definition echoing : Collaborators :=
  mkCollaborators
    (fun _ => Ok "None")
    (fun _ _ _ => Ok tt)
    (fun _ _ => Ok (ai_reply "Here is what I found."))
    (fun _ args =>
       match last args with
       | Some (VStr customer) => Ok (mkToolResult true ("customer " ++ customer))
       | _ => Ok (mkToolResult false "")
       end).

(** An engine that rejects every resume with [NoPendingInterruptError]
    and leaves what it stores as it is, as the specification has the
    engine do for a thread without a pending interrupt; a fresh run
    returns its input and is recorded, with the thread it ran on. *)
Definition rejecting : CompiledGraph (list (Value * State)) :=
  mkCompiledGraph (fun input cfg runs =>
    match input with
    | Resume _ => (Raised NoPendingInterruptError, runs)
    | Fresh st => (Returned st, (runs ++ [(get cfg "thread_id", st)])%list)
    end).

(** The text is ASCII text: every character is below 128. *)
Definition is_ascii (s : string) : bool :=
  forallb (fun c => (nat_of_ascii c <? 128)%nat) (ascii_list s).

(** The character is one of [0] to [9]. *)
Definition decimal_digit (c : ascii) : Prop :=
  (48 <= nat_of_ascii c <= 57)%nat.

(** * Properties *)

(** ** Reading the state *)

Lemma is_None_get_set (st : State) :
  is_None (get st "customer_id") = false <-> customer_id_set st.
Proof.
  unfold get, customer_id_set. split.
  - destruct (st !! "customer_id") as [v|] eqn:E; simpl; [|discriminate].
    intros Hv. exists v. split; [reflexivity|]. by destruct v.
  - intros (v & -> & Hv). simpl. by destruct v.
Qed.

Lemma is_None_get_unset (st : State) :
  is_None (get st "customer_id") = true <-> ~ customer_id_set st.
Proof.
  rewrite <- is_None_get_set. destruct (is_None _); split; congruence.
Qed.

Lemma should_interrupt_continue (st : State) (cfg : Config) :
  should_interrupt st cfg = "continue" <-> customer_id_set st.
Proof.
  rewrite <- is_None_get_set. unfold should_interrupt.
  destruct (is_None _); simpl; split; congruence.
Qed.

Lemma should_interrupt_interrupt (st : State) (cfg : Config) :
  should_interrupt st cfg = "interrupt" <-> ~ customer_id_set st.
Proof.
  rewrite <- is_None_get_unset. unfold should_interrupt.
  destruct (is_None _); simpl; split; congruence.
Qed.

(** ** The workflow graph, node by node *)

Section GraphLookups.

Variable col : Collaborators.

Lemma node_verify_info :
  nodes (build_complete_agent_system col) !! "verify_info"
  = Some ((fun _ => verify_info) : NodeFn).
Proof. reflexivity. Qed.

Lemma node_human_input :
  nodes (build_complete_agent_system col) !! "human_input"
  = Some (human_input : NodeFn).
Proof. reflexivity. Qed.

Lemma node_load_memory :
  nodes (build_complete_agent_system col) !! "load_memory"
  = Some ((fun _ => load_memory col) : NodeFn).
Proof. reflexivity. Qed.

Lemma node_supervisor :
  nodes (build_complete_agent_system col) !! "supervisor"
  = Some ((fun _ => supervisor_node col) : NodeFn).
Proof. reflexivity. Qed.

Lemma node_create_memory :
  nodes (build_complete_agent_system col) !! "create_memory"
  = Some ((fun _ => create_memory col) : NodeFn).
Proof. reflexivity. Qed.

Lemma edge_start :
  edges (build_complete_agent_system col) !! START = Some (Uncond "verify_info").
Proof. reflexivity. Qed.

Lemma edge_verify_info :
  edges (build_complete_agent_system col) !! "verify_info"
  = Some (Cond should_interrupt verify_info_routes).
Proof. reflexivity. Qed.

Lemma edge_human_input :
  edges (build_complete_agent_system col) !! "human_input"
  = Some (Uncond "verify_info").
Proof. reflexivity. Qed.

Lemma edge_load_memory :
  edges (build_complete_agent_system col) !! "load_memory"
  = Some (Uncond "supervisor").
Proof. reflexivity. Qed.

Lemma edge_supervisor :
  edges (build_complete_agent_system col) !! "supervisor"
  = Some (Uncond "create_memory").
Proof. reflexivity. Qed.

Lemma edge_create_memory :
  edges (build_complete_agent_system col) !! "create_memory"
  = Some (Uncond END).
Proof. reflexivity. Qed.

(** The conditional edge never fails to route. *)
Lemma next_after_verify_info (st : State) (cfg : Config) :
  next_node (build_complete_agent_system col) "verify_info" st cfg
  = Ok (if is_None (get st "customer_id") then "human_input" else "load_memory").
Proof.
  unfold next_node. rewrite edge_verify_info. unfold should_interrupt.
  destruct (is_None _); reflexivity.
Qed.

End GraphLookups.

(** C7: the decision function of the conditional edge always returns a
    label of the label map: [continue], routed to [load_memory], exactly
    when [customer_id] is set, and [interrupt], routed to [human_input],
    exactly when it is not.  The label is a function of the state alone:
    the body only reads [state.get("customer_id")], so evaluating it
    again, under any config, gives the same label, and the engine routes
    on it without a [RoutingError]. *)
Theorem should_interrupt_routes (col : Collaborators) (st : State) (cfg : Config) :
  is_Some (verify_info_routes !! should_interrupt st cfg)
  /\ (should_interrupt st cfg = "continue" <-> customer_id_set st)
  /\ (should_interrupt st cfg = "interrupt" <-> ~ customer_id_set st)
  /\ ((customer_id_set st
       /\ verify_info_routes !! should_interrupt st cfg = Some "load_memory")
      \/ (~ customer_id_set st
          /\ verify_info_routes !! should_interrupt st cfg = Some "human_input"))
  /\ (forall cfg', should_interrupt st cfg' = should_interrupt st cfg)
  /\ (forall st', st' !! "customer_id" = st !! "customer_id" ->
        should_interrupt st' cfg = should_interrupt st cfg)
  /\ next_node (build_complete_agent_system col) "verify_info" st cfg
     = Ok (default "" (verify_info_routes !! should_interrupt st cfg)).
Proof.
  pose proof (should_interrupt_continue st cfg) as Hc.
  pose proof (should_interrupt_interrupt st cfg) as Hi.
  rewrite next_after_verify_info.
  split_and!; try assumption.
  - unfold should_interrupt. destruct (is_None _); simpl; by eexists.
  - unfold should_interrupt in *.
    destruct (is_None (get st "customer_id")); simpl in *.
    + right. split; [by apply Hi | reflexivity].
    + left. split; [by apply Hc | reflexivity].
  - reflexivity.
  - intros st' Hst'. unfold should_interrupt, get. by rewrite Hst'.
  - unfold should_interrupt. destruct (is_None _); reflexivity.
Qed.

(** ** Merging a delta *)

Lemma merge_lookup_messages (st d : State) :
  merge st d !! "messages" =
  match d !! "messages" with
  | Some v => Some (VMsgs (add_messages (messages_of st) (as_messages v)))
  | None => st !! "messages"
  end.
Proof.
  unfold merge. destruct (d !! "messages") as [v|] eqn:E.
  - by rewrite lookup_insert_eq.
  - rewrite lookup_union_r; done.
Qed.

Lemma merge_lookup_other (st d : State) (k : string) :
  k <> "messages" ->
  merge st d !! k = match d !! k with Some v => Some v | None => st !! k end.
Proof.
  intros Hk. unfold merge.
  assert ((d ∪ st) !! k = match d !! k with Some v => Some v | None => st !! k end)
    as Hu.
  { destruct (d !! k) as [v|] eqn:E.
    - by apply lookup_union_Some_l.
    - by rewrite lookup_union_r. }
  destruct (d !! "messages"); [rewrite lookup_insert_ne; [done | congruence] | done].
Qed.

Lemma merge_messages (st d : State) :
  messages_of (merge st d) = (messages_of st ++ delta_messages d)%list.
Proof.
  unfold messages_of at 1. rewrite merge_lookup_messages.
  unfold delta_messages, add_messages, as_messages.
  destruct (d !! "messages") as [[| |]|]; try reflexivity;
    by rewrite app_nil_r.
Qed.

(** ** The loop of the engine *)

Section Loop.

Variable g : Graph.
Variable cfg : Config.

(** The state a run completes with extends the messages it started
    from. *)
Lemma loop_from_messages_prefix (n : nat) :
  forall resume cur st th st',
    rr_state (loop_from g cfg n resume cur st th).1.1 = Some st' ->
    messages_of st `prefix_of` messages_of st'.
Proof.
  induction n as [|n IH]; intros resume cur st th st'; simpl.
  - destruct (nodes g !! cur); simpl; discriminate.
  - destruct (nodes g !! cur) as [f|]; [|simpl; discriminate].
    destruct (f resume st cfg) as [d|p|e]; try (simpl; discriminate).
    destruct (next_node g cur (merge st d) cfg) as [next|e];
      [|simpl; discriminate].
    destruct (decide (next = END)).
    + simpl. intros [= <-]. rewrite merge_messages. by apply prefix_app_r.
    + specialize (IH None next (merge st d)
                    (save th cur (merge st d) Running None) st').
      destruct (loop_from g cfg n None next (merge st d) _) as [[r th''] ex].
      simpl in *. intros Hr. etrans; [|by apply IH].
      rewrite merge_messages. by apply prefix_app_r.
Qed.

Lemma loop_messages_prefix (n : nat) :
  forall cur st th st',
    rr_state (loop g cfg n cur st th).1.1 = Some st' ->
    messages_of st `prefix_of` messages_of st'.
Proof. intros cur st th st'. apply loop_from_messages_prefix. Qed.


(** A run ends in one of the three final statuses. *)
Lemma loop_from_status (n : nat) :
  forall resume cur st th,
    rr_status (loop_from g cfg n resume cur st th).1.1 <> Running.
Proof.
  induction n as [|n IH]; intros resume cur st th; simpl.
  - destruct (nodes g !! cur); simpl; discriminate.
  - destruct (nodes g !! cur) as [f|]; [|simpl; discriminate].
    destruct (f resume st cfg) as [d|p|e]; try (simpl; discriminate).
    destruct (next_node g cur (merge st d) cfg) as [next|e];
      [|simpl; discriminate].
    destruct (decide (next = END)); [simpl; discriminate|].
    specialize (IH None next (merge st d) (save th cur (merge st d) Running None)).
    destruct (loop_from g cfg n None next (merge st d) _) as [[r th''] ex].
    simpl in *. exact IH.
Qed.

(** A node that lets an exception escape fails the run with that
    exception; the node is executed once. *)
Lemma loop_node_raise (n : nat) (cur : string) (f : NodeFn) (st : State)
    (th : Thread) (e : Exn) :
  nodes g !! cur = Some f ->
  f None st cfg = NodeRaise e ->
  loop g cfg (S n) cur st th
  = (failed e, save th cur st Failed None, [cur]).
Proof. intros Hf He. unfold loop. simpl. by rewrite Hf, He. Qed.

(** A node that suspends interrupts the run and leaves its marker. *)
Lemma loop_node_suspend (n : nat) (cur : string) (f : NodeFn) (st : State)
    (th : Thread) (prompt : string) :
  nodes g !! cur = Some f ->
  f None st cfg = Suspend prompt ->
  loop g cfg (S n) cur st th
  = (interrupted prompt,
     save th cur st Interrupted (Some (mkMarker cur prompt)), [cur]).
Proof. intros Hf He. unfold loop. simpl. by rewrite Hf, He. Qed.

(** A node that returns a delta and is followed by another node; the
    first node may be the one a resume completes. *)
Lemma loop_from_step (k : nat) (resume : option string) (cur next : string)
    (f : NodeFn) (st d : State) (th : Thread) :
  nodes g !! cur = Some f ->
  f resume st cfg = Delta d ->
  next_node g cur (merge st d) cfg = Ok next ->
  next <> END ->
  loop_from g cfg (S k) resume cur st th
  = let '(r, th', executed) :=
      loop g cfg k next (merge st d)
        (save th cur (merge st d) Running None) in
    (r, th', cur :: executed).
Proof.
  intros Hf Hd Hnext Hend. unfold loop. simpl. rewrite Hf, Hd, Hnext.
  destruct (decide (next = END)); [contradiction | reflexivity].
Qed.

Lemma loop_step (k : nat) (cur next : string) (f : NodeFn) (st d : State)
    (th : Thread) :
  nodes g !! cur = Some f ->
  f None st cfg = Delta d ->
  next_node g cur (merge st d) cfg = Ok next ->
  next <> END ->
  loop g cfg (S k) cur st th
  = let '(r, th', executed) :=
      loop g cfg k next (merge st d)
        (save th cur (merge st d) Running None) in
    (r, th', cur :: executed).
Proof. apply loop_from_step. Qed.

(** A node that returns a delta and is followed by the terminal
    pseudo-node completes the run. *)
Lemma loop_last (k : nat) (cur : string) (f : NodeFn) (st d : State)
    (th : Thread) :
  nodes g !! cur = Some f ->
  f None st cfg = Delta d ->
  next_node g cur (merge st d) cfg = Ok END ->
  loop g cfg (S k) cur st th
  = (completed (merge st d),
     save (save th cur (merge st d) Running None) cur (merge st d)
       Completed None,
     [cur]).
Proof.
  intros Hf Hd Hnext. unfold loop. simpl. rewrite Hf, Hd, Hnext.
  destruct (decide (END = END)); [reflexivity | contradiction].
Qed.

(** With a budget of zero no node is executed. *)
Lemma loop_from_out_of_budget (resume : option string) (cur : string)
    (f : NodeFn) (st : State) (th : Thread) :
  nodes g !! cur = Some f ->
  loop_from g cfg 0 resume cur st th
  = (failed StepBudgetExceededError, save th cur st Failed None, []).
Proof. intros Hf. simpl. by rewrite Hf. Qed.

Lemma loop_out_of_budget (cur : string) (f : NodeFn) (st : State)
    (th : Thread) :
  nodes g !! cur = Some f ->
  loop g cfg 0 cur st th
  = (failed StepBudgetExceededError, save th cur st Failed None, []).
Proof. apply loop_from_out_of_budget. Qed.


End Loop.





(** A resume counts like any other run: on a thread parked on a node
    that suspends again whatever it is resumed with, a budget of zero
    executes nothing and a budget of one executes the suspended node. *)
Example resume_is_under_the_budget :
  let g := {| nodes := {[ "ask" := (fun _ _ _ => Suspend "again") : NodeFn ]};
              edges := {[ START := Uncond "ask"; "ask" := Uncond END ]} |} in
  let store : Store :=
    {[ "t1" := mkThread "ask" Interrupted (Some (mkMarker "ask" "again"))
                 [mkCheckpoint 1 "ask" ∅ Interrupted] ]} in
  (run g 0 "t1" (Resume "1") ∅ store).2 = []
  /\ rr_error (run g 0 "t1" (Resume "1") ∅ store).1.1
     = Some StepBudgetExceededError
  /\ (run g 1 "t1" (Resume "1") ∅ store).2 = ["ask"]
  /\ rr_status (run g 1 "t1" (Resume "1") ∅ store).1.1 = Interrupted.
Proof. vm_compute. split_and!; reflexivity. Qed.

(** ** The workflow on a fresh thread *)

Section Workflow.

Variable col : Collaborators.
Variable cfg : Config.

(** [verify_info] always returns, and after its delta is merged
    [customer_id] is set: the account [1] when it was not set before. *)
Lemma verify_info_sets_customer_id (st : State) :
  exists d,
    verify_info st cfg = Delta d
    /\ is_None (get (merge st d) "customer_id") = false
    /\ (is_None (get st "customer_id") = true ->
          merge st d !! "customer_id" = Some (VStr "1")).
Proof.
  unfold verify_info, verify_info_body.
  destruct (is_None (get st "customer_id")) eqn:E; eexists;
    (split; [reflexivity|]).
  - unfold get. rewrite merge_lookup_other by discriminate.
    split; [reflexivity | intros _; reflexivity].
  - unfold get in *. rewrite merge_lookup_other by discriminate.
    rewrite lookup_empty. split; [exact E | discriminate].
Qed.

Lemma create_memory_returns_nothing (st : State) :
  create_memory col st cfg = Delta ∅.
Proof.
  unfold create_memory. destruct (negb _); [reflexivity|].
  destruct (_ ≫= _); reflexivity.
Qed.

Lemma load_memory_never_suspends (st : State) :
  (exists d, load_memory col st cfg = Delta d)
  \/ (exists e, load_memory col st cfg = NodeRaise e).
Proof.
  unfold load_memory. destruct (negb _); [left; by eexists|].
  destruct (load_user_memory col _); [left | right]; by eexists.
Qed.

Lemma supervisor_never_suspends (st : State) :
  (exists d, supervisor_node col st cfg = Delta d)
  \/ (exists e, supervisor_node col st cfg = NodeRaise e).
Proof.
  unfold supervisor_node.
  destruct (supervisor col st cfg); [left | right]; by eexists.
Qed.

Lemma next_after_load_memory (st : State) :
  next_node (build_complete_agent_system col) "load_memory" st cfg = Ok "supervisor".
Proof. unfold next_node. by rewrite edge_load_memory. Qed.

Lemma next_after_supervisor (st : State) :
  next_node (build_complete_agent_system col) "supervisor" st cfg = Ok "create_memory".
Proof. unfold next_node. by rewrite edge_supervisor. Qed.

Lemma next_after_create_memory (st : State) :
  next_node (build_complete_agent_system col) "create_memory" st cfg = Ok END.
Proof. unfold next_node. by rewrite edge_create_memory. Qed.

Lemma next_after_start (st : State) :
  next_node (build_complete_agent_system col) START st cfg = Ok "verify_info".
Proof. unfold next_node. by rewrite edge_start. Qed.

Lemma next_after_human_input (st : State) :
  next_node (build_complete_agent_system col) "human_input" st cfg = Ok "verify_info".
Proof. unfold next_node. by rewrite edge_human_input. Qed.

Lemma from_create_memory (n : nat) (st : State) (th : Thread) :
  ran_along ["create_memory"] (loop (build_complete_agent_system col) cfg n "create_memory" st th).
Proof.
  destruct n as [|k].
  - rewrite (loop_out_of_budget (build_complete_agent_system col) cfg _ _ st th (node_create_memory col)).
    split; [discriminate | apply prefix_nil].
  - rewrite (loop_last (build_complete_agent_system col) cfg k _ _ st ∅ th (node_create_memory col)
               (create_memory_returns_nothing st)
               (next_after_create_memory _)).
    split; [discriminate | reflexivity].
Qed.

Lemma from_supervisor (n : nat) (st : State) (th : Thread) :
  ran_along ["supervisor"; "create_memory"] (loop (build_complete_agent_system col) cfg n "supervisor" st th).
Proof.
  destruct n as [|k].
  - rewrite (loop_out_of_budget (build_complete_agent_system col) cfg _ _ st th (node_supervisor col)).
    split; [discriminate | apply prefix_nil].
  - destruct (supervisor_never_suspends st) as [[d Hd]|[e He]].
    + rewrite (loop_step (build_complete_agent_system col) cfg k _ "create_memory" _ st d th
                 (node_supervisor col) Hd (next_after_supervisor _))
        by discriminate.
      destruct (from_create_memory k (merge st d)
                  (save th "supervisor" (merge st d) Running None)) as [Hs Hp].
      destruct (loop (build_complete_agent_system col) cfg k "create_memory" _ _) as [[r th'] ex].
      split; [exact Hs | by apply prefix_cons].
    + rewrite (loop_node_raise (build_complete_agent_system col) cfg k _ _ st th e (node_supervisor col) He).
      split; [discriminate | apply prefix_cons, prefix_nil].
Qed.

Lemma from_load_memory (n : nat) (st : State) (th : Thread) :
  ran_along ["load_memory"; "supervisor"; "create_memory"]
    (loop (build_complete_agent_system col) cfg n "load_memory" st th).
Proof.
  destruct n as [|k].
  - rewrite (loop_out_of_budget (build_complete_agent_system col) cfg _ _ st th (node_load_memory col)).
    split; [discriminate | apply prefix_nil].
  - destruct (load_memory_never_suspends st) as [[d Hd]|[e He]].
    + rewrite (loop_step (build_complete_agent_system col) cfg k _ "supervisor" _ st d th
                 (node_load_memory col) Hd (next_after_load_memory _))
        by discriminate.
      destruct (from_supervisor k (merge st d)
                  (save th "load_memory" (merge st d) Running None)) as [Hs Hp].
      destruct (loop (build_complete_agent_system col) cfg k "supervisor" _ _) as [[r th'] ex].
      split; [exact Hs | by apply prefix_cons].
    + rewrite (loop_node_raise (build_complete_agent_system col) cfg k _ _ st th e (node_load_memory col) He).
      split; [discriminate | apply prefix_cons, prefix_nil].
Qed.

Lemma from_verify_info (n : nat) (st : State) (th : Thread) :
  ran_along ["verify_info"; "load_memory"; "supervisor"; "create_memory"]
    (loop (build_complete_agent_system col) cfg n "verify_info" st th).
Proof.
  destruct n as [|k].
  - rewrite (loop_out_of_budget (build_complete_agent_system col) cfg _ _ st th (node_verify_info col)).
    split; [discriminate | apply prefix_nil].
  - destruct (verify_info_sets_customer_id st) as (d & Hd & Hset & _).
    assert (next_node (build_complete_agent_system col) "verify_info" (merge st d) cfg = Ok "load_memory")
      as Hnext.
    { rewrite next_after_verify_info. by rewrite Hset. }
    rewrite (loop_step (build_complete_agent_system col) cfg k _ "load_memory" (fun _ => verify_info) st d th
               (node_verify_info col) Hd Hnext) by discriminate.
    destruct (from_load_memory k (merge st d)
                (save th "verify_info" (merge st d) Running None)) as [Hs Hp].
    destruct (loop (build_complete_agent_system col) cfg k "load_memory" _ _) as [[r th'] ex].
    split; [exact Hs | by apply prefix_cons].
Qed.

End Workflow.

(** C1: the claim fails on the code.  On a fresh thread, whatever the
    input, the budget and the collaborators, the run is never
    interrupted and never reaches [human_input]: [verify_info] itself
    puts the account [1] under [customer_id], so the routing function
    answers [continue] on the merged state and the run goes on to
    [load_memory]. *)
Theorem fresh_thread_is_never_interrupted (col : Collaborators) (cfg : Config)
    (n : nat) (threadId : string) (input : State) :
  (forall st, exists d,
      verify_info st cfg = Delta d
      /\ should_interrupt (merge st d) cfg = "continue")
  /\ rr_status (run (build_complete_agent_system col) n threadId
                  (Fresh input) cfg ∅).1.1 <> Interrupted
  /\ (run (build_complete_agent_system col) n threadId (Fresh input) cfg ∅).2
       `prefix_of` ["verify_info"; "load_memory"; "supervisor"; "create_memory"]
  /\ "human_input" ∉
       (run (build_complete_agent_system col) n threadId (Fresh input) cfg ∅).2.
Proof.
  assert (ran_along ["verify_info"; "load_memory"; "supervisor"; "create_memory"]
            (let '(r, store, executed) :=
               run (build_complete_agent_system col) n threadId (Fresh input) cfg ∅
             in (r, new_thread, executed))) as [Hs Hp].
  { unfold run. rewrite lookup_empty.
    change (default new_thread None) with new_thread.
    destruct (decide (th_status new_thread = Interrupted)) as [Hd|_];
      [discriminate Hd|].
    rewrite next_after_start. unfold continue_at.
    destruct (decide ("verify_info" = END)) as [Hd|_]; [discriminate Hd|].
    match goal with |- context [loop ?a ?b ?c ?d ?e ?f] =>
      pose proof (from_verify_info col cfg c e f) as [Hs Hp];
      destruct (loop a b c d e f) as [[r th'] ex] end.
    split; [exact Hs | exact Hp]. }
  destruct (run _ _ _ _ _ _) as [[r store] ex]. simpl in *.
  split_and!; try assumption.
  - intros st. destruct (verify_info_sets_customer_id cfg st) as (d & Hd & Hset & _).
    exists d. split; [exact Hd|].
    unfold should_interrupt. by rewrite Hset.
  - intros Hin. pose proof (elem_of_prefix _ _ _ Hin Hp) as Hmem.
    rewrite !elem_of_cons, elem_of_nil in Hmem.
    destruct Hmem as [Hm|[Hm|[Hm|[Hm|[]]]]]; discriminate Hm.
Qed.

(** The run of C1 on an example: a first message on a new thread goes
    through the four nodes and completes under the account [1]. *)
Example fresh_thread_completes :
  let r := run (build_complete_agent_system answering) 25 "t1"
             (Fresh (asking "hello")) {[ "thread_id" := VStr "t1" ]} ∅ in
  rr_status r.1.1 = Completed
  /\ r.2 = ["verify_info"; "load_memory"; "supervisor"; "create_memory"]
  /\ ((fun st => get st "customer_id") <$> rr_state r.1.1) = Some (VStr "1").
Proof. vm_compute. split_and!; reflexivity. Qed.

(** Resuming a thread parked on [human_input]: [human_input] is
    completed with the payload, which is appended as a message,
    [verify_info] sets the account [1] whatever the payload says, and
    the run goes on to [load_memory]. *)
Example resume_goes_on_to_load_memory :
  let r1 := run (build_complete_agent_system answering) 25 "t1"
              (Resume "1") {[ "thread_id" := VStr "t1" ]} parked in
  let r2 := run (build_complete_agent_system answering) 25 "t1"
              (Resume "2") {[ "thread_id" := VStr "t1" ]} parked in
  r1.2 = ["human_input"; "verify_info"; "load_memory"; "supervisor";
          "create_memory"]
  /\ ((fun st => get st "customer_id") <$> rr_state r1.1.1) = Some (VStr "1")
  /\ ((fun st => get st "customer_id") <$> rr_state r2.1.1) = Some (VStr "1").
Proof. vm_compute. split_and!; reflexivity. Qed.

(** ** The result of run_agent_with_input *)

Section RunAgentProperties.

Context {Storage : Type}.
Variable uuid4 : nat -> string.
Variable agent_graph : CompiledGraph Storage.

Lemma choose_thread_id_given (tid : string) (n : nat) :
  tid <> "" -> choose_thread_id uuid4 (Some tid) n = (tid, n).
Proof.
  intros Hne. unfold choose_thread_id, given, str_truthy.
  by rewrite bool_decide_eq_false_2.
Qed.

Lemma given_None_iff (o : option string) :
  given o = None <-> o = None \/ o = Some "".
Proof.
  unfold given, str_truthy. destruct o as [s|].
  - destruct (bool_decide_reflect (s = "")) as [->|Hne]; simpl.
    + split; [intros _; by right | reflexivity].
    + split; [discriminate|].
      intros [H|H]; [discriminate H | injection H as ->; contradiction].
  - split; [by left | reflexivity].
Qed.

Lemma given_Some_iff (o : option string) (s : string) :
  given o = Some s <-> o = Some s /\ s <> "".
Proof.
  unfold given, str_truthy. destruct o as [s'|].
  - destruct (bool_decide_reflect (s' = "")) as [->|Hne]; simpl.
    + split; [discriminate|].
      intros [H Hs]. injection H as <-. contradiction.
    + split; [intros [= ->]; by split | intros [[= ->] _]; reflexivity].
  - split; [discriminate | intros [H _]; discriminate H].
Qed.

Lemma make_config_thread_id (tid : string) (uid : option string) :
  make_config tid uid !! "thread_id" = Some (VStr tid).
Proof. unfold make_config. destruct (given uid); reflexivity. Qed.



End RunAgentProperties.


(** Two calls in a row without a thread identifier, with the numerals
    as UUIDs: the threads are [0] and [1]. *)
Example two_new_threads :
  let graph := compile (build_complete_agent_system answering) 25 in
  let first := run_agent_with_input numeral graph (Some "hello") None None None
                 (mkWorld 0 ∅) in
  let second := run_agent_with_input numeral graph (Some "hello") (Some "") None
                  None first.2 in
  first.1 !! "thread_id" = Some (RStr "0")
  /\ second.1 !! "thread_id" = Some (RStr "1")
  /\ first.1 !! "status" = Some (RStr "complete").
Proof. vm_compute. split_and!; reflexivity. Qed.

(** ** Words and indices *)

Lemma append_char_nonempty (cur : string) (c : ascii) :
  (cur ++ String c EmptyString)%string <> EmptyString.
Proof. destruct cur; discriminate. Qed.

Lemma split_go_nonempty (s : string) :
  forall cur x, x ∈ split_go cur s -> x <> EmptyString.
Proof.
  induction s as [|c s IH]; intros cur x; simpl.
  - destruct (decide (cur = EmptyString)) as [|Hne].
    + intros Hx. by apply elem_of_nil in Hx.
    + intros Hx. apply list_elem_of_singleton in Hx. by subst.
  - destruct (is_space c).
    + destruct (decide (cur = EmptyString)) as [|Hne]; [by apply IH|].
      intros Hx. apply elem_of_cons in Hx as [->|Hx]; [done | by apply IH in Hx].
    + apply IH.
Qed.

Lemma split_nonempty (s x : string) : x ∈ split s -> x <> EmptyString.
Proof. apply split_go_nonempty. Qed.

Lemma findall_go_nonempty (s : string) :
  forall prev_word cur x,
    (forall m, cur = Some m -> m <> EmptyString) ->
    x ∈ Re.findall_go prev_word cur s -> x <> EmptyString.
Proof.
  induction s as [|c s IH]; intros prev_word cur x Hcur; simpl.
  - destruct cur as [m|].
    + intros Hx. apply list_elem_of_singleton in Hx. subst. by apply Hcur.
    + intros Hx. by apply elem_of_nil in Hx.
  - destruct cur as [m|].
    + destruct (Re.is_lower c).
      * apply IH. intros m' [= <-]. apply append_char_nonempty.
      * destruct (Re.is_word c).
        -- apply IH. discriminate.
        -- intros Hx. apply elem_of_cons in Hx as [->|Hx]; [by apply Hcur|].
           revert Hx. apply IH. discriminate.
    + destruct (Re.is_upper c && negb prev_word).
      * apply IH. intros m' [= <-]. discriminate.
      * apply IH. discriminate.
Qed.

Lemma index_from_found (x : string) (l : list string) :
  forall k, x ∈ l ->
    exists i, index_from k x l = Ok i /\ k <= i < k + len l.
Proof.
  unfold len. induction l as [|y l IH]; intros k Hx.
  - by apply elem_of_nil in Hx.
  - simpl. destruct (decide (x = y)) as [|Hne].
    + exists k. split; [reflexivity|]. simpl. lia.
    + apply elem_of_cons in Hx as [Hx|Hx]; [contradiction|].
      destruct (IH (k + 1) Hx) as (i & Hi & Hb). exists i. split; [exact Hi|].
      simpl length. lia.
Qed.

Lemma index_from_missing (x : string) (l : list string) :
  forall k, x ∉ l -> exists e, index_from k x l = Raise e.
Proof.
  induction l as [|y l IH]; intros k Hx; simpl.
  - by eexists.
  - destruct (decide (x = y)) as [->|Hne].
    + exfalso. apply Hx. by left.
    + apply IH. intros Hin. apply Hx. by right.
Qed.

Lemma nth_Z_found (l : list string) (i : Z) :
  0 <= i < len l -> exists x, nth_Z l i = Ok x /\ x ∈ l.
Proof.
  unfold len, nth_Z. intros Hi.
  destruct (l !! Z.to_nat i) as [x|] eqn:E.
  - exists x. split; [reflexivity|]. by apply list_elem_of_lookup_2 in E.
  - apply lookup_ge_None in E. lia.
Qed.

Lemma index_or_minus_one_ok (w : string) (words : list string) :
  exists i, index_or_minus_one w words = Ok i /\ -1 <= i < len words.
Proof.
  unfold index_or_minus_one, mem.
  destruct (bool_decide_reflect (w ∈ words)) as [Hin|Hout].
  - destruct (index_from_found w words 0 Hin) as (i & Hi & Hb).
    exists i. split; [exact Hi | lia].
  - exists (-1). split; [reflexivity|]. unfold len. lia.
Qed.

Lemma word_after_ok (words : list string) (idx : Z) (fallback : string) :
  fallback <> EmptyString ->
  (forall x, x ∈ words -> x <> EmptyString) ->
  exists param, word_after words idx fallback = Ok param /\ param <> EmptyString.
Proof.
  intros Hf Hw. unfold word_after.
  destruct ((0 <=? idx) && (idx <? len words - 1)) eqn:E.
  - apply andb_true_iff in E as [E1 E2].
    apply Z.leb_le in E1. apply Z.ltb_lt in E2.
    destruct (nth_Z_found words (idx + 1)) as (x & -> & Hx); [lia|].
    exists x. split; [reflexivity | by apply Hw].
  - by exists fallback.
Qed.

Lemma last_user_input_last (st : State) (ms : list Message) (m : Message)
    (fallback : string) :
  st !! "messages" = Some (VMsgs (ms ++ [m])) ->
  last_user_input st fallback = Ok (content m).
Proof.
  intros Hst. unfold last_user_input, has_key, get. rewrite Hst. simpl.
  assert (bool_decide ((ms ++ [m])%list = []) = false) as ->
    by (apply bool_decide_eq_false_2; by destruct ms).
  simpl. by rewrite last_snoc.
Qed.

Lemma digits_of_digits (s : string) :
  forallb isdigit (ascii_list (digits_of s)) = true.
Proof.
  induction s as [|c s IH]; simpl; [reflexivity|].
  destruct (isdigit c) eqn:E; simpl; [by rewrite E|exact IH].
Qed.

Lemma invoice_select_ok (user_input_lower : string) :
  exists selected_tool invoice_id,
    invoice_select user_input_lower = Ok (selected_tool, invoice_id)
    /\ (selected_tool = "get_employee_by_invoice_and_customer"
        \/ invoice_id = None)
    /\ (forall id, invoice_id = Some id ->
          id = "1" \/ forallb isdigit (ascii_list id) = true).
Proof.
  unfold invoice_select, mbind, result_bind, Py.bind.
  destruct (contains "price" user_input_lower || contains "expensive" user_input_lower).
  { eexists _, _. split_and!; [reflexivity | by right | discriminate]. }
  destruct (contains "employee" user_input_lower || contains "support" user_input_lower).
  2:{ eexists _, _. split_and!; [reflexivity | by right | discriminate]. }
  destruct (index_or_minus_one_ok "invoice" (split user_input_lower))
    as (i & -> & Hi).
  destruct ((0 <=? i) && (i <? len (split user_input_lower) - 1)).
  - destruct (nth_Z (split user_input_lower) (i + 1)) as [w|e].
    + eexists _, _. split_and!; [reflexivity | by left |].
      intros id [= <-]. right. apply digits_of_digits.
    + eexists _, _. split_and!; [reflexivity | by left |].
      intros id [= <-]. by left.
  - eexists _, _. split_and!; [reflexivity | by left |].
    intros id [= <-]. by left.
Qed.

(** ** The sub-agent nodes *)

Lemma music_body_reply (col : Collaborators) (st d : State) :
  music_assistant_body col st = Ok d -> exists text, d = ai_reply text.
Proof.
  unfold music_assistant_body, mbind, result_bind, Py.bind.
  destruct (last_user_input st _) as [user_input|e]; [|discriminate].
  destruct (content_lower user_input) as [user_input_lower|e]; [|discriminate].
  destruct (music_select user_input user_input_lower) as [selected|e];
    [|discriminate].
  intros [= <-]. by eexists.
Qed.

Lemma invoice_body_reply (col : Collaborators) (st d : State) :
  invoice_assistant_body col st = Ok d -> exists text, d = ai_reply text.
Proof.
  unfold invoice_assistant_body, mbind, result_bind, Py.bind.
  destruct (last_user_input st _) as [user_input|e]; [|discriminate].
  destruct (content_lower user_input) as [user_input_lower|e]; [|discriminate].
  destruct (invoice_select user_input_lower) as [[selected_tool invoice_id]|e];
    [|discriminate].
  intros [= <-]. by eexists.
Qed.

Lemma music_assistant_replies (col : Collaborators) (st : State) (cfg : Config) :
  exists text, music_assistant col st cfg = Delta (ai_reply text).
Proof.
  unfold music_assistant.
  destruct (music_assistant_body col st) as [d|e] eqn:E.
  - destruct (music_body_reply col st d E) as [text ->]. by eexists.
  - by eexists.
Qed.

Lemma invoice_assistant_replies (col : Collaborators) (st : State) (cfg : Config) :
  exists text, invoice_assistant col st cfg = Delta (ai_reply text).
Proof.
  unfold invoice_assistant.
  destruct (invoice_assistant_body col st) as [d|e] eqn:E.
  - destruct (invoice_body_reply col st d E) as [text ->]. by eexists.
  - by eexists.
Qed.

Lemma music_assistant_tools_down (col : Collaborators) (st : State) (cfg : Config) :
  (forall name args, exists e, call_tool col name args = Raise e) ->
  (exists param, music_assistant col st cfg = Delta (ai_reply (music_tool_error param)))
  \/ music_assistant col st cfg = Delta (ai_reply music_direct)
  \/ music_assistant col st cfg = Delta (ai_reply music_trouble).
Proof.
  intros Hdown.
  unfold music_assistant, music_assistant_body, mbind, result_bind, Py.bind.
  destruct (last_user_input st _) as [user_input|e]; [|by right; right].
  destruct (content_lower user_input) as [user_input_lower|e]; [|by right; right].
  destruct (music_select user_input user_input_lower) as [[[tool_name param]|]|e].
  - destruct (Hdown tool_name [VStr param]) as [e ->]. left. by exists param.
  - by right; left.
  - by right; right.
Qed.

Lemma invoice_assistant_tools_down (col : Collaborators) (st : State) (cfg : Config) :
  (forall name args, exists e, call_tool col name args = Raise e) ->
  invoice_assistant col st cfg = Delta (ai_reply invoice_tool_error)
  \/ invoice_assistant col st cfg = Delta (ai_reply invoice_trouble).
Proof.
  intros Hdown.
  unfold invoice_assistant, invoice_assistant_body, mbind, result_bind, Py.bind.
  destruct (last_user_input st _) as [user_input|e]; [|by right].
  destruct (content_lower user_input) as [user_input_lower|e]; [|by right].
  destruct (invoice_select user_input_lower) as [[selected_tool invoice_id]|e];
    [|by right].
  destruct (Hdown selected_tool
              (invoice_args selected_tool invoice_id (invoice_customer st)))
    as [e ->].
  by left.
Qed.

(** C10: for every state, config and behaviour of the tools, each of
    the two assistants returns a delta whose only entry is [messages]
    with one new assistant message; no exception leaves the node.  An
    error inside the body is answered with the apology of the outer
    handler; when the tools fail the reply is the apology of the inner
    handler (or, for the music assistant, the direct reply given when no
    tool is chosen). *)
Theorem assistants_always_reply (col : Collaborators) (st : State) (cfg : Config) :
  (exists text,
      music_assistant col st cfg
      = Delta {[ "messages" := VMsgs [AIMessage text] ]})
  /\ (exists text,
      invoice_assistant col st cfg
      = Delta {[ "messages" := VMsgs [AIMessage text] ]})
  /\ (forall e, music_assistant_body col st = Raise e ->
        music_assistant col st cfg = Delta (ai_reply music_trouble))
  /\ (forall e, invoice_assistant_body col st = Raise e ->
        invoice_assistant col st cfg = Delta (ai_reply invoice_trouble))
  /\ ((forall name args, exists e, call_tool col name args = Raise e) ->
        ((exists param,
             music_assistant col st cfg
             = Delta (ai_reply (music_tool_error param)))
         \/ music_assistant col st cfg = Delta (ai_reply music_direct)
         \/ music_assistant col st cfg = Delta (ai_reply music_trouble))
        /\ (invoice_assistant col st cfg = Delta (ai_reply invoice_tool_error)
            \/ invoice_assistant col st cfg = Delta (ai_reply invoice_trouble))).
Proof.
  split_and!.
  - apply music_assistant_replies.
  - apply invoice_assistant_replies.
  - intros e He. unfold music_assistant. by rewrite He.
  - intros e He. unfold invoice_assistant. by rewrite He.
  - intros Hdown. split.
    + by apply music_assistant_tools_down.
    + by apply invoice_assistant_tools_down.
Qed.

(** The handlers of C10 at work: a failing tool, and a message that
    makes the body itself raise ([songs] holds [song], but no word of
    the message is [song]). *)
Example assistants_apologise :
  invoice_assistant tools_down (asking "who is my support employee") ∅
  = Delta (ai_reply invoice_tool_error)
  /\ music_assistant tools_down (asking "albums by artist queen") ∅
     = Delta (ai_reply (music_tool_error "queen"))
  /\ music_assistant answering (asking "list songs please") ∅
     = Delta (ai_reply music_trouble)
  /\ invoice_assistant answering {[ "messages" := VMsgs [mkMessage human (CParts ["hi"])] ]} ∅
     = Delta (ai_reply invoice_trouble).
Proof. split_and!; vm_compute; reflexivity. Qed.

Lemma last_user_input_insert_customer_id (st : State) (v : Value)
    (fallback : string) :
  last_user_input (<["customer_id" := v]> st) fallback
  = last_user_input st fallback.
Proof.
  unfold last_user_input, has_key, get.
  by rewrite lookup_insert_ne by discriminate.
Qed.

Lemma invoice_args_customer_last (selected_tool : string)
    (invoice_id : option string) (customer_id : Value) :
  last (invoice_args selected_tool invoice_id customer_id) = Some customer_id.
Proof.
  unfold invoice_args. destruct (given invoice_id); [|reflexivity].
  destruct (bool_decide _); reflexivity.
Qed.

(** C9: on a state without [customer_id], the invoice assistant takes
    the customer to be ["1"].  The tool it selects is called with ["1"]
    as the customer, alone or after the invoice identifier, whatever
    the tools are, and the reply is made from what that call gave; the
    only other outcome is the apology for a message it cannot read, for
    which no tool is called.  The node does exactly what it does on the
    same state with [customer_id = "1"], and it answers with a message
    rather than raising or suspending. *)
Theorem invoice_assistant_defaults_to_customer_1 (st : State) (cfg : Config) :
  st !! "customer_id" = None ->
  invoice_customer st = VStr "1"
  /\ ((exists selected_tool invoice_id,
         (invoice_args selected_tool invoice_id (invoice_customer st)
          = [VStr "1"]
          \/ exists id,
               invoice_args selected_tool invoice_id (invoice_customer st)
               = [VStr id; VStr "1"])
         /\ forall col,
              invoice_assistant col st cfg
              = Delta (ai_reply
                         (invoice_reply
                            (call_tool col selected_tool
                               (invoice_args selected_tool invoice_id
                                  (VStr "1"))))))
      \/ (forall col, invoice_assistant col st cfg
                      = Delta (ai_reply invoice_trouble)))
  /\ (forall col,
        invoice_assistant col st cfg
        = invoice_assistant col (<["customer_id" := VStr "1"]> st) cfg)
  /\ (forall col, exists text, invoice_assistant col st cfg = Delta (ai_reply text)).
Proof.
  intros Habsent.
  assert (invoice_customer st = VStr "1") as Hc.
  { unfold invoice_customer, get_default. by rewrite Habsent. }
  split_and!.
  - exact Hc.
  - unfold invoice_assistant, invoice_assistant_body, mbind, result_bind, Py.bind.
    destruct (last_user_input st "Tell me about my invoices") as [user_input|e];
      [|by right].
    destruct (content_lower user_input) as [user_input_lower|e]; [|by right].
    destruct (invoice_select_ok user_input_lower)
      as (selected_tool & invoice_id & -> & _ & _).
    left. exists selected_tool, invoice_id. rewrite Hc. split.
    + unfold invoice_args. destruct (given invoice_id) as [id|]; [|by left].
      destruct (bool_decide _); [right; by exists id | by left].
    + intros col. reflexivity.
  - intros col. unfold invoice_assistant, invoice_assistant_body.
    rewrite last_user_input_insert_customer_id.
    rewrite Hc. unfold invoice_customer at 1, get_default.
    by rewrite lookup_insert_eq.
  - intros col. apply invoice_assistant_replies.
Qed.

Lemma invoice_assistant_defaults_to_customer_1_witness :
  invoice_assistant echoing (asking "show my invoices") ∅
  = Delta (ai_reply ("Here's what I found about your invoices:" ++ nl ++ nl
                       ++ "customer 1"))
  /\ invoice_customer (asking "show my invoices") = VStr "1"
  /\ (forall col,
        invoice_assistant col (asking "show my invoices") ∅
        = invoice_assistant col
            (<["customer_id" := VStr "1"]> (asking "show my invoices")) ∅).
Proof.
  split; [reflexivity|].
  destruct (invoice_assistant_defaults_to_customer_1
              (asking "show my invoices") ∅ eq_refl) as (Hc & _ & Hsame & _).
  split; [exact Hc | exact Hsame].
Defined.

(** ** Resuming *)

Section Resume.

Variable g : Graph.
Variable remainingSteps : nat.

Lemma run_resume_without_marker (threadId payload : string) (cfg : Config)
    (store : Store) :
  store !! threadId ≫= th_marker = None ->
  run g remainingSteps threadId (Resume payload) cfg store
  = (failed NoPendingInterruptError, store, []).
Proof. intros Hm. unfold run. by rewrite Hm. Qed.

Lemma invoke_resume_without_marker (threadId payload : string)
    (user_id : option string) (store : Store) :
  store !! threadId ≫= th_marker = None ->
  invoke (compile g remainingSteps) (Resume payload)
    (make_config threadId user_id) store
  = (Raised NoPendingInterruptError, store).
Proof.
  intros Hm. unfold compile, invoke. rewrite make_config_thread_id.
  by rewrite run_resume_without_marker.
Qed.

End Resume.

Lemma invoke_agent_resume_raised {Storage : Type}
    (agent_graph : CompiledGraph Storage) (user_input : option string)
    (payload : string) (config : Config) (s s1 : Storage) (e : Exn) :
  payload <> "" ->
  invoke agent_graph (Resume payload) config s = (Raised e, s1) ->
  invoke_agent agent_graph user_input (Some payload) config s
  = invoke agent_graph (Fresh {[ "messages" := VMsgs [HumanMessage payload] ]})
      config s1.
Proof.
  intros Hne Hr. unfold invoke_agent.
  rewrite (proj2 (given_Some_iff (Some payload) payload) (conj eq_refl Hne)).
  by rewrite Hr.
Qed.

Lemma invoke_agent_initial {Storage : Type}
    (agent_graph : CompiledGraph Storage) (user_input : string)
    (resume_input : option string) (config : Config) (s : Storage) :
  resume_input = None \/ resume_input = Some "" ->
  invoke_agent agent_graph (Some user_input) resume_input config s
  = invoke agent_graph
      (Fresh {[ "messages" := VMsgs [HumanMessage user_input] ]}) config s.
Proof.
  intros Hr. unfold invoke_agent.
  by rewrite (proj2 (given_None_iff resume_input) Hr).
Qed.

(** C3 as stated fails on the code.  The engine of the example does
    what the claim has the engine do, it rejects the resume with
    [NoPendingInterruptError] and stores nothing; yet the caller of
    [run_agent_with_input] is not told so: the rejection is caught, a
    fresh run is started on the same thread with the payload as the
    message of the user, and the call reports [complete]. *)
Lemma resume_without_interrupt_runs_afresh :
  let out :=
    run_agent_with_input numeral rejecting None (Some "t1") None (Some "1")
      (mkWorld 0 []) in
  invoke rejecting (Resume "1") (make_config "t1" None) []
  = (Raised NoPendingInterruptError, [])
  /\ out.1 !! "status" = Some (RStr "complete")
  /\ out.1 !! "status" <> Some (RStr "error")
  /\ out.1 !! "message" = None
  /\ graph_store out.2 = [(VStr "t1", asking "1")]
  /\ result_messages out.1 = [HumanMessage "1"].
Proof.
  vm_compute. split_and!; try reflexivity; discriminate.
Qed.

(** C3, amended: whatever the engine does with a resume,
    [run_agent_with_input] never reports the resume as rejected.  When
    the engine returns a state, the call is [complete] with that state.
    When the engine rejects the resume, with [NoPendingInterruptError]
    or with any other exception, the rejection is caught and the graph
    is invoked afresh on the same thread, under the same config, with
    the resume payload as the message of the user; what the caller
    gets, and what is stored, is what that fresh invocation gives, and
    when the rejected resume left the store as it was, the call does
    exactly what an initial call with the payload as [user_input]
    does. *)
Theorem rejected_resume_falls_back {Storage : Type} (uuid4 : nat -> string)
    (agent_graph : CompiledGraph Storage)
    (user_input user_id : option string) (threadId payload : string)
    (w : World Storage) :
  threadId <> "" ->
  payload <> "" ->
  match invoke agent_graph (Resume payload) (make_config threadId user_id)
          (graph_store w) with
  | (Returned st, s1) =>
      run_agent_with_input uuid4 agent_graph user_input (Some threadId)
        user_id (Some payload) w
      = ({[ "status" := RStr "complete";
            "result" := RState st;
            "thread_id" := RStr threadId ]},
         mkWorld (uuids_drawn w) s1)
  | (Raised e, s1) =>
      invoke_agent agent_graph user_input (Some payload)
        (make_config threadId user_id) (graph_store w)
      = invoke agent_graph
          (Fresh {[ "messages" := VMsgs [HumanMessage payload] ]})
          (make_config threadId user_id) s1
      /\ run_agent_with_input uuid4 agent_graph user_input (Some threadId)
           user_id (Some payload) w
         = run_agent_with_input uuid4 agent_graph (Some payload)
             (Some threadId) user_id None (mkWorld (uuids_drawn w) s1)
      /\ (s1 = graph_store w ->
          run_agent_with_input uuid4 agent_graph user_input (Some threadId)
            user_id (Some payload) w
          = run_agent_with_input uuid4 agent_graph (Some payload)
              (Some threadId) user_id None w)
  end.
Proof.
  intros Htid Hpayload.
  destruct (invoke agent_graph (Resume payload) (make_config threadId user_id)
              (graph_store w)) as [[st | e] s1] eqn:Hresume.
  - unfold run_agent_with_input, invoke_agent.
    rewrite choose_thread_id_given by done.
    rewrite (proj2 (given_Some_iff (Some payload) payload)
               (conj eq_refl Hpayload)).
    by rewrite Hresume.
  - pose proof (invoke_agent_resume_raised agent_graph user_input payload _ _
                  _ _ Hpayload Hresume) as Hagent.
    assert (run_agent_with_input uuid4 agent_graph user_input (Some threadId)
              user_id (Some payload) w
            = run_agent_with_input uuid4 agent_graph (Some payload)
                (Some threadId) user_id None (mkWorld (uuids_drawn w) s1))
      as Hrun.
    { unfold run_agent_with_input. simpl.
      rewrite !choose_thread_id_given by done.
      rewrite Hagent.
      by rewrite (invoke_agent_initial agent_graph payload None) by (by left). }
    split_and!; [exact Hagent | exact Hrun |].
    intros ->. rewrite Hrun. by destruct w.
Qed.

Lemma rejected_resume_falls_back_witness :
  invoke_agent rejecting None (Some "1") (make_config "t1" None) []
  = invoke rejecting (Fresh {[ "messages" := VMsgs [HumanMessage "1"] ]})
      (make_config "t1" None) []
  /\ run_agent_with_input numeral rejecting None (Some "t1") None (Some "1")
       (mkWorld 0 [])
     = run_agent_with_input numeral rejecting (Some "1") (Some "t1") None None
         (mkWorld 0 [])
  /\ ([] = graph_store (mkWorld 0 ([] : list (Value * State))) ->
      run_agent_with_input numeral rejecting None (Some "t1") None (Some "1")
        (mkWorld 0 [])
      = run_agent_with_input numeral rejecting (Some "1") (Some "t1") None None
          (mkWorld 0 [])).
Proof.
  apply (rejected_resume_falls_back numeral rejecting None None "t1" "1"
           (mkWorld 0 [])).
  - discriminate.
  - discriminate.
Defined.

(** ** Exceptions that escape a node *)

(** C4 as stated fails on the code.  The supervisor of the example
    raises while thread [t1] is being resumed: the engine fails the run
    and raises the error, but [run_agent_with_input] swallows it and
    submits the payload again as a fresh invocation, which completes:
    the caller is told [complete], and the failure only shows in the
    checkpoints of the thread. *)
Lemma failed_resume_is_submitted_again :
  let graph := compile (build_complete_agent_system flaky_supervisor) 25 in
  let out :=
    run_agent_with_input numeral graph None (Some "t1") None (Some "1")
      (mkWorld 0 parked) in
  (invoke graph (Resume "1") (make_config "t1" None) parked).1
  = Raised (error "RuntimeError" "supervisor failed")
  /\ out.1 !! "status" = Some (RStr "complete")
  /\ out.1 !! "message" = None
  /\ failures (graph_store out.2) "t1" = ["supervisor"]
  /\ (th_status <$> graph_store out.2 !! "t1") = Some Completed.
Proof. vm_compute. split_and!; reflexivity. Qed.

(** The calling layer does the same once more: with the preference
    store down, one request to the resume endpoint runs [load_memory]
    three times, for the resume, for the fallback of
    [run_agent_with_input], and for the retry of the view. *)
Example resume_endpoint_retries :
  let graph := compile (build_complete_agent_system memory_down) 25 in
  let out :=
    run_agent_with_input numeral graph None (Some "t1") (Some "7") (Some "1")
      (mkWorld 0 parked) in
  let view :=
    ChatResumeView_post numeral graph "t1" (Some "1") "7" (Ok [])
      (mkWorld 0 parked) in
  out.1 !! "status" = Some (RStr "error")
  /\ out.1 !! "message" = Some (RStr "database is locked")
  /\ failures (graph_store out.2) "t1" = ["load_memory"; "load_memory"]
  /\ view.1.1
     = Ok (mkResponse 500
             {[ "status" := RStr "error";
                "thread_id" := RStr "t1";
                "message" :=
                  RStr "Error processing message: database is locked" ]})
  /\ failures (graph_store view.2) "t1"
     = ["load_memory"; "load_memory"; "load_memory"].
Proof. vm_compute. split_and!; reflexivity. Qed.

Lemma status_error_not_interrupted (res : Result) :
  str_field res "status" = "error" ->
  bool_decide (str_field res "status" = "interrupted") = false
  /\ bool_decide (str_field res "status" = "error") = true.
Proof.
  intros ->. split; [by apply bool_decide_eq_false_2 | by apply bool_decide_eq_true_2].
Qed.

(** C4, amended.  In the engine, an exception that escapes a node fails
    the run at once: the thread is left [Failed], the error of the
    result is that exception, and the node has been executed once.  For
    an initial invocation [run_agent_with_input] invokes the graph once
    and reports the exception as status [error] with its text.  For a
    resume, an exception raised by the resume attempt is caught and the
    payload is submitted again as a fresh invocation on whatever store
    the failed attempt left; and when the result is still [error], the
    resume endpoint submits the message a third time as an initial
    invocation. *)
Theorem escaped_exception_fails_run_and_resume_is_retried
    {Storage : Type} (uuid4 : nat -> string)
    (agent_graph : CompiledGraph Storage) (w : World Storage) :
  (forall (g : Graph) cfg n cur (f : NodeFn) st th e,
      nodes g !! cur = Some f ->
      f None st cfg = NodeRaise e ->
      loop g cfg (S (S n)) cur st th
      = (failed e, save th cur st Failed None, [cur])
      /\ th_status (save th cur st Failed None) = Failed
      /\ outcome_of (failed e) = Raised e)
  /\ (forall user_input thread_id user_id e s,
        invoke agent_graph
          (Fresh {[ "messages" := VMsgs [HumanMessage user_input] ]})
          (make_config (choose_thread_id uuid4 thread_id (uuids_drawn w)).1 user_id)
          (graph_store w)
        = (Raised e, s) ->
        exn_interrupt_message e = None ->
        (run_agent_with_input uuid4 agent_graph (Some user_input) thread_id
           user_id None w).1 !! "status" = Some (RStr "error")
        /\ (run_agent_with_input uuid4 agent_graph (Some user_input) thread_id
              user_id None w).1 !! "message" = Some (RStr (exn_str e))
        /\ graph_store (run_agent_with_input uuid4 agent_graph (Some user_input)
                          thread_id user_id None w).2 = s)
  /\ (forall user_input payload config s s1 e,
        payload <> "" ->
        invoke agent_graph (Resume payload) config s = (Raised e, s1) ->
        invoke_agent agent_graph user_input (Some payload) config s
        = invoke agent_graph
            (Fresh {[ "messages" := VMsgs [HumanMessage payload] ]}) config s1)
  /\ (forall thread_id message user_id log,
        str_field (run_agent_with_input uuid4 agent_graph None (Some thread_id)
                     (Some user_id) (Some message) w).1 "status" = "error" ->
        (ChatResumeView_post uuid4 agent_graph thread_id (Some message)
           user_id (Ok log) w).2
        = (run_agent_with_input uuid4 agent_graph (Some message) (Some thread_id)
             (Some user_id) None
             (run_agent_with_input uuid4 agent_graph None (Some thread_id)
                (Some user_id) (Some message) w).2).2).
Proof.
  split_and!.
  - intros g cfg n cur f st th e Hf He.
    split_and!; [exact (loop_node_raise g cfg (S n) cur f st th e Hf He) | reflexivity | reflexivity].
  - intros user_input thread_id user_id e s Hinv He.
    unfold run_agent_with_input.
    destruct (choose_thread_id uuid4 thread_id (uuids_drawn w)) as [tid n].
    simpl in Hinv.
    rewrite (invoke_agent_initial agent_graph user_input None) by (by left).
    rewrite Hinv, He. simpl. split_and!; reflexivity.
  - intros user_input payload config s s1 e Hne Hr.
    by apply invoke_agent_resume_raised with e.
  - intros thread_id message user_id log Herr.
    unfold ChatResumeView_post, resume_try.
    destruct (run_agent_with_input uuid4 agent_graph None (Some thread_id)
                (Some user_id) (Some message) w) as [result w1].
    simpl in Herr. destruct (status_error_not_interrupted result Herr) as [-> ->].
    simpl.
    destruct (run_agent_with_input uuid4 agent_graph (Some message)
                (Some thread_id) (Some user_id) None w1) as [fresh_result w2].
    destruct (bool_decide _); [|reflexivity].
    destruct (final_ai_message fresh_result) as [[final_message|]|e];
      reflexivity.
Qed.

(** * Further properties of the code *)

(** ** The nodes of the workflow *)

Lemma merge_empty (st : State) : merge st ∅ = st.
Proof. unfold merge. rewrite lookup_empty. apply map_empty_union. Qed.

(** X1: [verify_info] never re-assigns a customer: on a state whose
    [customer_id] is set it returns the empty update and the state stays
    as it is; and whatever the state, running it again on the merged
    state changes nothing. *)
Theorem verify_info_never_reassigns (st : State) (cfg : Config) :
  exists d,
    verify_info st cfg = Delta d
    /\ verify_info (merge st d) cfg = Delta ∅
    /\ merge (merge st d) ∅ = merge st d
    /\ (customer_id_set st -> d = ∅ /\ merge st d = st).
Proof.
  destruct (verify_info_sets_customer_id cfg st) as (d & Hd & Hset & _).
  exists d. split_and!.
  - exact Hd.
  - unfold verify_info, verify_info_body. by rewrite Hset.
  - apply merge_empty.
  - intros Hcust. apply is_None_get_set in Hcust.
    unfold verify_info, verify_info_body in Hd. rewrite Hcust in Hd.
    injection Hd as <-. split; [reflexivity | apply merge_empty].
Qed.

(** X2: [load_memory] writes [loaded_memory] and nothing else, so the
    messages and the customer stay as they were.  A user id in the
    config wins over the state: with one, the state does not matter.
    With no user id and no usable [customer_id] the memory is the empty
    string and the preference store is not asked. *)
Theorem load_memory_only_loads (col : Collaborators) (st : State) (cfg : Config) :
  (forall d, load_memory col st cfg = Delta d ->
     (exists memory, d = {[ "loaded_memory" := VStr memory ]})
     /\ messages_of (merge st d) = messages_of st
     /\ merge st d !! "customer_id" = st !! "customer_id")
  /\ (truthy (get_default cfg "user_id" (VStr "")) = true ->
      forall st', load_memory col st' cfg = load_memory col st cfg)
  /\ (truthy (get_default cfg "user_id" (VStr "")) = false ->
      truthy (get st "customer_id") = false ->
      forall col', load_memory col' st cfg = Delta {[ "loaded_memory" := VStr "" ]}).
Proof.
  split_and!.
  - intros d Hd.
    assert (exists memory, d = {[ "loaded_memory" := VStr memory ]}) as [memory ->].
    { unfold load_memory in Hd. destruct (negb _).
      - injection Hd as <-. by eexists.
      - destruct (load_user_memory col _); [|discriminate].
        injection Hd as <-. by eexists. }
    split_and!.
    + by eexists.
    + rewrite merge_messages. unfold delta_messages.
      rewrite lookup_singleton_ne by discriminate. apply app_nil_r.
    + rewrite merge_lookup_other by discriminate.
      by rewrite lookup_singleton_ne by discriminate.
  - intros Hu st'. unfold load_memory, resolve_user_id. by rewrite Hu.
  - intros Hu Hc col'. unfold load_memory, resolve_user_id. rewrite Hu. simpl.
    destruct (has_key st "customer_id"); by rewrite ?Hc, ?Hu.
Qed.

(** X3: the preferences [create_memory] extracts from a conversation
    are never empty, hold no genre twice, and list known genres only, in
    the order of the genre list; [rock] and [pop] are the fallback. *)
Theorem music_prefs_are_known_genres (st : State) (music_prefs : list string) :
  music_prefs_of st = Ok music_prefs ->
  music_prefs <> []
  /\ music_prefs `sublist_of` genres
  /\ NoDup music_prefs.
Proof.
  assert (NoDup genres) as Hnd
    by (refine (bool_decide_unpack _ _); vm_compute; exact I).
  assert (forall text,
            let found := filter (fun g => contains g text = true) genres in
            (if bool_decide (found = []) then ["rock"; "pop"] else found) <> []
            /\ (if bool_decide (found = []) then ["rock"; "pop"] else found)
                 `sublist_of` genres) as Hfound.
  { intros text found.
    destruct (bool_decide_reflect (found = [])) as [E|E].
    - split; [discriminate|].
      unfold genres. apply sublist_skip, sublist_skip, sublist_nil_l.
    - split; [exact E | apply sublist_filter]. }
  assert (["rock"; "pop"] `sublist_of` genres) as Hdef.
  { unfold genres. apply sublist_skip, sublist_skip, sublist_nil_l. }
  intros Hp.
  assert (music_prefs <> [] /\ music_prefs `sublist_of` genres) as [H1 H2].
  { unfold music_prefs_of in Hp.
    destruct (st !! "messages") as [[|s|ms]|].
    - discriminate.
    - destruct (0 <? len (chars s)); injection Hp as <-;
        [apply Hfound | split; [discriminate | exact Hdef]].
    - destruct (0 <? len ms).
      + unfold mbind, result_bind, Py.bind in Hp.
        destruct (contents ms) as [cs|e]; [|discriminate].
        injection Hp as <-. apply Hfound.
      + injection Hp as <-. split; [discriminate | exact Hdef].
    - injection Hp as <-. split; [discriminate | exact Hdef]. }
  split_and!; [exact H1 | exact H2 | by eapply sublist_NoDup].
Qed.

Lemma music_prefs_are_known_genres_witness :
  ["rock"; "jazz"] <> []
  /\ ["rock"; "jazz"] `sublist_of` genres
  /\ NoDup ["rock"; "jazz"].
Proof.
  apply (music_prefs_are_known_genres (asking "I like Jazz and classic rock")).
  vm_compute. reflexivity.
Defined.

(** ** The assistants *)

(** X4: the music assistant looks for the keyword [song] (or [track])
    as a substring of the message but for its position as a word.  When
    the message holds the keyword only inside a longer word ([songs],
    [tracks]), and names neither an artist nor a genre, the search for
    the word raises, and the node answers with the apology of its outer
    handler; no tool is called. *)
Theorem music_assistant_keyword_inside_word (col : Collaborators) (st : State)
    (cfg : Config) (ms : list Message) (t : MsgType) (s : string) :
  st !! "messages" = Some (VMsgs (ms ++ [mkMessage t (CStr s)])) ->
  contains "artist" (lower s) = false ->
  contains "genre" (lower s) = false ->
  (contains "song" (lower s) = true /\ "song" ∉ split (lower s))
  \/ (contains "song" (lower s) = false
      /\ contains "track" (lower s) = true /\ "track" ∉ split (lower s)) ->
  music_assistant col st cfg = Delta (ai_reply music_trouble).
Proof.
  intros Hst Hartist Hgenre Hkey.
  unfold music_assistant, music_assistant_body.
  rewrite (last_user_input_last st ms _ _ Hst).
  unfold mbind, result_bind, Py.bind. simpl.
  unfold music_select. rewrite Hartist, Hgenre.
  unfold mbind, result_bind, Py.bind. simpl.
  destruct Hkey as [[Hsong Hword]|(Hsong & Htrack & Hword)].
  - rewrite Hsong. simpl.
    destruct (index_from_missing "song" (split (lower s)) 0 Hword) as [e He].
    unfold index. by rewrite He.
  - rewrite Hsong, Htrack. simpl.
    destruct (index_from_missing "track" (split (lower s)) 0 Hword) as [e He].
    unfold index. by rewrite He.
Qed.

Lemma music_assistant_keyword_inside_word_witness :
  music_assistant tools_down (asking "list songs please") ∅
  = Delta (ai_reply music_trouble).
Proof.
  apply (music_assistant_keyword_inside_word tools_down
           (asking "list songs please") ∅ [] human "list songs please").
  - reflexivity.
  - reflexivity.
  - reflexivity.
  - left. split; [reflexivity|].
    replace (split (lower "list songs please")) with ["list"; "songs"; "please"]
      by (vm_compute; reflexivity).
    rewrite !elem_of_cons, elem_of_nil.
    intros [H|[H|[H|[]]]]; discriminate H.
Defined.

(** X5: whenever the music assistant chooses a tool, it is one of the
    four music tools and the search term it passes is not empty: a word
    of the message, a capitalised word found in it, or one of the
    defaults. *)
Theorem music_select_term_not_empty (user_input : Content)
    (user_input_lower selected_tool param : string) :
  content_lower user_input = Ok user_input_lower ->
  music_select user_input user_input_lower = Ok (Some (selected_tool, param)) ->
  selected_tool ∈ music_tool_names /\ param <> "".
Proof.
  intros Hlower. destruct user_input as [s|parts]; [|discriminate].
  clear Hlower. unfold music_select, mbind, result_bind, Py.bind.
  destruct (contains "artist" user_input_lower).
  { destruct (index_or_minus_one_ok "artist" (split user_input_lower))
      as (i & -> & Hi).
    destruct ((0 <=? i) && (i <? len (split user_input_lower) - 1)) eqn:E.
    - apply andb_true_iff in E as [E1 E2].
      apply Z.leb_le in E1. apply Z.ltb_lt in E2.
      destruct (nth_Z_found (split user_input_lower) (i + 1)) as (x & -> & Hx);
        [lia|].
      apply split_nonempty in Hx.
      destruct (contains "album" user_input_lower); intros [= <- <-];
        (split; [unfold music_tool_names; rewrite !elem_of_cons;
                 repeat (first [left; reflexivity | right]) | exact Hx]).
    - assert (match Re.findall_capitalized (content_text (CStr s)) with
              | p :: _ => p
              | [] => "Queen"
              end <> "") as Hp.
      { destruct (Re.findall_capitalized _) as [|p ps] eqn:F; [discriminate|].
        apply (findall_go_nonempty s false None p); [discriminate|].
        simpl in F. unfold Re.findall_capitalized in F. rewrite F. by left. }
      destruct (contains "album" user_input_lower); intros [= <- <-];
        (split; [unfold music_tool_names; rewrite !elem_of_cons;
                 repeat (first [left; reflexivity | right]) | exact Hp]). }
  destruct (contains "genre" user_input_lower).
  { destruct (index_or_minus_one_ok "genre" (split user_input_lower))
      as (i & -> & Hi).
    destruct (word_after_ok (split user_input_lower) i "Rock")
      as (p & -> & Hp); [discriminate | apply split_nonempty|].
    intros [= <- <-]. split; [unfold music_tool_names; rewrite !elem_of_cons;
                 repeat (first [left; reflexivity | right]) | exact Hp]. }
  destruct (contains "song" user_input_lower || contains "track" user_input_lower);
    [|discriminate].
  simpl.
  destruct (if contains "song" user_input_lower
            then index "song" (split user_input_lower)
            else if contains "track" user_input_lower
                 then index "track" (split user_input_lower)
                 else Ok (-1)) as [i|e]; [|discriminate].
  destruct (word_after_ok (split s) i "The")
    as (p & -> & Hp); [discriminate | apply split_nonempty|].
  intros [= <- <-]. split; [unfold music_tool_names; rewrite !elem_of_cons;
                 repeat (first [left; reflexivity | right]) | exact Hp].
Qed.

Lemma music_select_term_not_empty_witness :
  "get_albums_by_artist" ∈ music_tool_names /\ "queen" <> "".
Proof.
  apply (music_select_term_not_empty (CStr "Albums by artist Queen")
           "albums by artist queen").
  - reflexivity.
  - vm_compute. reflexivity.
Defined.

Lemma isdigit_decimal (c : ascii) : isdigit c = true -> decimal_digit c.
Proof.
  unfold isdigit, decimal_digit. intros H.
  apply andb_true_iff in H as [H1 H2].
  apply Nat.leb_le in H1. apply Nat.leb_le in H2. lia.
Qed.

(** X6: for a message of ASCII characters, the invoice assistant calls
    its tool either with the customer alone or, for the employee
    lookup, with an invoice identifier and the customer; an invoice
    identifier that is passed is never empty and is made of the
    characters [0] to [9] only. *)
Theorem invoice_id_is_digits (user_input_lower : string) (customer_id : Value) :
  is_ascii user_input_lower = true ->
  exists selected_tool invoice_id,
    invoice_select user_input_lower = Ok (selected_tool, invoice_id)
    /\ (invoice_args selected_tool invoice_id customer_id = [customer_id]
        \/ exists id,
             invoice_args selected_tool invoice_id customer_id
             = [VStr id; customer_id]
             /\ selected_tool = "get_employee_by_invoice_and_customer"
             /\ id <> ""
             /\ Forall decimal_digit (ascii_list id)).
Proof.
  intros _.
  destruct (invoice_select_ok user_input_lower)
    as (selected_tool & invoice_id & Hsel & Htool & Hid).
  exists selected_tool, invoice_id. split; [exact Hsel|].
  unfold invoice_args.
  destruct (given invoice_id) as [id|] eqn:G; [|by left].
  apply given_Some_iff in G as [-> Hne].
  destruct Htool as [->|Hnone]; [|discriminate].
  rewrite bool_decide_eq_true_2 by reflexivity.
  right. exists id. split_and!; [reflexivity | reflexivity | exact Hne |].
  destruct (Hid id eq_refl) as [->|Hd].
  - repeat constructor; unfold decimal_digit; simpl; lia.
  - apply Forall_forall. intros c Hc.
    apply isdigit_decimal.
    rewrite forallb_forall in Hd. apply Hd. by apply list_elem_of_In.
Qed.

Lemma invoice_id_is_digits_witness :
  exists selected_tool invoice_id,
    invoice_select "which employee handled invoice #42x?"
    = Ok (selected_tool, invoice_id)
    /\ (invoice_args selected_tool invoice_id (VStr "7") = [VStr "7"]
        \/ exists id,
             invoice_args selected_tool invoice_id (VStr "7")
             = [VStr id; VStr "7"]
             /\ selected_tool = "get_employee_by_invoice_and_customer"
             /\ id <> ""
             /\ Forall decimal_digit (ascii_list id)).
Proof.
  apply (invoice_id_is_digits "which employee handled invoice #42x?" (VStr "7")).
  reflexivity.
Defined.

(** X7: the guards of the invoice assistant are sound: on a state whose
    last message has text content (or that has no message at all) the
    body never raises, so the reply is the found text, the not-found
    text or the tool apology, never the apology of the outer handler.
    The music assistant shows that this is not automatic. *)
Theorem invoice_assistant_body_never_raises (col : Collaborators) (st : State)
    (s : string) :
  last_user_input st "Tell me about my invoices" = Ok (CStr s) ->
  exists selected_tool invoice_id,
    invoice_select (lower s) = Ok (selected_tool, invoice_id)
    /\ invoice_assistant_body col st
       = Ok (ai_reply
               match call_tool col selected_tool
                       (invoice_args selected_tool invoice_id (invoice_customer st))
               with
               | Ok tool_result =>
                   if tr_truthy tool_result
                   then "Here's what I found about your invoices:" ++ nl ++ nl
                          ++ tr_str tool_result
                   else "I couldn't find any invoice information for your account."
               | Raise _ => invoice_tool_error
               end).
Proof.
  intros Hlast.
  destruct (invoice_select_ok (lower s)) as (selected_tool & invoice_id & Hsel & _).
  exists selected_tool, invoice_id. split; [exact Hsel|].
  unfold invoice_assistant_body, mbind, result_bind, Py.bind.
  rewrite Hlast. simpl. by rewrite Hsel.
Qed.

Lemma invoice_assistant_body_never_raises_witness :
  exists selected_tool invoice_id,
    invoice_select (lower "Which employee handled invoice #12?")
    = Ok (selected_tool, invoice_id)
    /\ invoice_assistant_body tools_down
         (asking "Which employee handled invoice #12?")
       = Ok (ai_reply
               match call_tool tools_down selected_tool
                       (invoice_args selected_tool invoice_id
                          (invoice_customer
                             (asking "Which employee handled invoice #12?")))
               with
               | Ok tool_result =>
                   if tr_truthy tool_result
                   then "Here's what I found about your invoices:" ++ nl ++ nl
                          ++ tr_str tool_result
                   else "I couldn't find any invoice information for your account."
               | Raise _ => invoice_tool_error
               end).
Proof.
  apply (invoice_assistant_body_never_raises tools_down
           (asking "Which employee handled invoice #12?")
           "Which employee handled invoice #12?").
  reflexivity.
Defined.

(** ** Calling the graph *)

Section Calling.

Context {Storage : Type}.
Variable uuid4 : nat -> string.
Variable agent_graph : CompiledGraph Storage.

(** X8: an empty resume payload is no resume: the call is an initial
    invocation, and when it comes without a user input (as from the
    resume endpoint) it reports a validation error without invoking the
    graph.  With a payload that is not empty, the user input plays no
    part in the call. *)
Theorem empty_resume_payload_is_no_resume
    (user_input thread_id user_id : option string) (w : World Storage) :
  run_agent_with_input uuid4 agent_graph user_input thread_id user_id (Some "") w
  = run_agent_with_input uuid4 agent_graph user_input thread_id user_id None w
  /\ (run_agent_with_input uuid4 agent_graph None thread_id user_id (Some "") w).1
       !! "status" = Some (RStr "error")
  /\ graph_store
       (run_agent_with_input uuid4 agent_graph None thread_id user_id (Some "") w).2
     = graph_store w
  /\ (forall payload other_input, payload <> "" ->
        run_agent_with_input uuid4 agent_graph user_input thread_id user_id
          (Some payload) w
        = run_agent_with_input uuid4 agent_graph other_input thread_id user_id
            (Some payload) w).
Proof.
  split_and!.
  - reflexivity.
  - unfold run_agent_with_input.
    destruct (choose_thread_id uuid4 thread_id (uuids_drawn w)) as [tid n].
    reflexivity.
  - unfold run_agent_with_input.
    destruct (choose_thread_id uuid4 thread_id (uuids_drawn w)) as [tid n].
    reflexivity.
  - intros payload other_input Hne. unfold run_agent_with_input, invoke_agent.
    by rewrite (proj2 (given_Some_iff (Some payload) payload) (conj eq_refl Hne)).
Qed.

(** X9: the resume endpoint, for every request whose [message], when
    there is one, is a string.  A request without [message] is answered
    with HTTP 400 and [message is required]; a request for which the
    conversation lookup raises, with [Http404] or otherwise, is left by
    that exception; in both cases nothing is stored and the agent is
    not called.  Any other request is answered, whatever the graph
    does, with the thread of the request, with HTTP 200 and status
    [complete] or [interrupted], or with HTTP 500 and status [error];
    the user message is stored first and at most two assistant messages
    after it, and what was stored before is kept. *)
Theorem resume_view_response_shape (thread_id user_id : string) (w : World Storage) :
  (forall conversation,
      ChatResumeView_post uuid4 agent_graph thread_id None user_id conversation w
      = (Ok (mkResponse 400 {[ "error" := RStr "message is required" ]}),
         stored conversation, w))
  /\ (forall message e,
        ChatResumeView_post uuid4 agent_graph thread_id (Some message) user_id
          (Raise e) w
        = (Raise e, [], w))
  /\ (forall message log,
        exists response rest,
          (ChatResumeView_post uuid4 agent_graph thread_id (Some message)
             user_id (Ok log) w).1
          = (Ok response, (log ++ ("user", CStr message) :: rest)%list)
          /\ body response !! "thread_id" = Some (RStr thread_id)
          /\ ((http_status response = 200%nat
               /\ (body response !! "status" = Some (RStr "complete")
                   \/ body response !! "status" = Some (RStr "interrupted")))
              \/ (http_status response = 500%nat
                  /\ body response !! "status" = Some (RStr "error")))
          /\ (length rest <= 2)%nat
          /\ Forall (fun entry => entry.1 = "assistant") rest).
Proof.
  split_and!; [reflexivity | reflexivity |].
  intros message log.
  unfold ChatResumeView_post, resume_try.
  destruct (run_agent_with_input uuid4 agent_graph None (Some thread_id)
              (Some user_id) (Some message) w) as [result w1].
  destruct (bool_decide (str_field result "status" = "interrupted")).
  { simpl. eexists _, [_]. rewrite <- app_assoc.
    split_and!; [reflexivity | reflexivity | left; split; [reflexivity | by right]
                | simpl; lia | by repeat constructor]. }
  destruct (bool_decide (str_field result "status" = "error")).
  { destruct (run_agent_with_input uuid4 agent_graph (Some message)
                (Some thread_id) (Some user_id) None w1) as [fresh_result w2].
    destruct (bool_decide (str_field fresh_result "status" = "complete")).
    - destruct (final_ai_message fresh_result) as [[final_message|]|e]; simpl.
      + eexists _, [_; _]. rewrite <- !app_assoc.
        split_and!; [reflexivity | reflexivity
                    | left; split; [reflexivity | by left]
                    | simpl; lia | by repeat constructor].
      + eexists _, [_]. rewrite <- !app_assoc.
        split_and!; [reflexivity | reflexivity | right; split; reflexivity
                    | simpl; lia | by repeat constructor].
      + eexists _, [_; _]. rewrite <- !app_assoc.
        split_and!; [reflexivity | reflexivity | right; split; reflexivity
                    | simpl; lia | by repeat constructor].
    - simpl. eexists _, [_]. rewrite <- !app_assoc.
      split_and!; [reflexivity | reflexivity | right; split; reflexivity
                  | simpl; lia | by repeat constructor]. }
  destruct (final_ai_message result) as [[final_message|]|e]; simpl.
  - eexists _, [_]. rewrite <- !app_assoc.
    split_and!; [reflexivity | reflexivity | left; split; [reflexivity | by left]
                | simpl; lia | by repeat constructor].
  - eexists _, []. 
    split_and!; [reflexivity | reflexivity | right; split; reflexivity
                | simpl; lia | constructor].
  - eexists _, [_]. rewrite <- !app_assoc.
    split_and!; [reflexivity | reflexivity | right; split; reflexivity
                | simpl; lia | by repeat constructor].
Qed.

End Calling.

(** ** Customer lookup *)








(** An identifier that starts with [+] is looked up as a phone number
    even when it holds an [@]; the first row found wins, and no row
    means no customer.  A numeral is not answered either when the
    connection cannot be opened. *)
Example customer_id_of_phone :
  let db_run := fun query : string =>
    if decide (query = "SELECT CustomerId FROM Customer WHERE Phone = '+55 (12) 3923-5555';")
    then Ok [1; 7] else Ok [] in
  let refused := error "OperationalError" "unable to open database file" in
  get_customer_id_from_identifier (Ok db_run) "+55 (12) 3923-5555" = Ok (Some 1)
  /\ get_customer_id_from_identifier (Ok db_run) "+a@b.c" = Ok None
  /\ get_customer_id_from_identifier (Ok db_run) "luisg" = Ok None
  /\ get_customer_id_from_identifier (Ok db_run) "0042" = Ok (Some 42)
  /\ get_customer_id_from_identifier (Raise refused) "0042" = Raise refused.
Proof. vm_compute. split_and!; reflexivity. Qed.

(** ** The supervisor *)

Lemma supervisor_call_reply (tool : Supervisor.AgentTool) (st d : State) :
  Supervisor.call_selected tool st = Ok d ->
  exists response, d = {[ "messages" := VMsgs [mkMessage ai response] ]}.
Proof.
  unfold Supervisor.call_selected, mbind, result_bind, Py.bind.
  destruct (st !! "messages"); [|discriminate].
  destruct (Supervisor.func tool _); [|discriminate].
  destruct (Supervisor.response_of _ _); [|discriminate].
  intros [= <-]. by eexists.
Qed.

(** X11: the supervisor node always answers with exactly one assistant
    message and lets no exception out, whatever the tools do.  When the
    state has no [messages] entry it never reaches a tool: the reply is
    the direct apology.  With the two sub-agents of the application,
    any music term in the message routes to the music agent, also when
    the message names an invoice or a purchase; the invoice agent is
    chosen only when there is an invoice term and no music term, and
    every other message goes to the music agent as the first tool. *)
Theorem supervisor_always_answers (tools : list Supervisor.AgentTool)
    (st : State) (cfg : Config) :
  (exists response,
      Supervisor.supervisor_node tools st cfg
      = Delta {[ "messages" := VMsgs [mkMessage ai response] ]})
  /\ (st !! "messages" = None ->
      Supervisor.supervisor_node tools st cfg
      = Delta (ai_reply Supervisor.direct_response))
  /\ (forall music invoice text,
        Supervisor.name music = "music_catalog_subagent" ->
        Supervisor.name invoice = "invoice_information_subagent" ->
        Supervisor.select_tool [music; invoice] text
        = Some (if Supervisor.any_term Supervisor.music_terms text then music
                else if Supervisor.any_term Supervisor.invoice_terms text
                     then invoice
                     else music)).
Proof.
  split_and!.
  - unfold Supervisor.supervisor_node, Supervisor.supervisor_node_body,
      mbind, result_bind, Py.bind.
    destruct (last_user_input st "Hello") as [user_input|e];
      [|by eexists].
    destruct (content_lower user_input) as [user_input_lower|e]; [|by eexists].
    destruct (Supervisor.select_tool tools user_input_lower) as [tool|];
      [|by eexists].
    destruct (Supervisor.call_selected tool st) as [d|e] eqn:E; [|by eexists].
    destruct (supervisor_call_reply tool st d E) as [response ->]. by eexists.
  - intros Hst.
    unfold Supervisor.supervisor_node, Supervisor.supervisor_node_body,
      last_user_input, has_key, mbind, result_bind, Py.bind.
    rewrite Hst. rewrite bool_decide_eq_false_2 by (intros [v Hv]; discriminate).
    simpl.
    destruct (Supervisor.select_tool tools _) as [tool|]; [|reflexivity].
    unfold Supervisor.call_selected, mbind, result_bind, Py.bind.
    by rewrite Hst.
  - intros music invoice text Hm Hi.
    unfold Supervisor.select_tool, Supervisor.find_tool.
    assert (contains "music" (lower "music_catalog_subagent") = true) as Hmm
      by (vm_compute; reflexivity).
    assert (contains "invoice" (lower "music_catalog_subagent") = false) as Hmi
      by (vm_compute; reflexivity).
    assert (contains "invoice" (lower "invoice_information_subagent") = true)
      as Hii by (vm_compute; reflexivity).
    destruct (Supervisor.any_term Supervisor.music_terms text).
    { cbn [List.find]. by rewrite Hm, Hmm. }
    destruct (Supervisor.any_term Supervisor.invoice_terms text);
      [|reflexivity].
    cbn [List.find]. by rewrite Hm, Hmi, Hi, Hii.
Qed.

(** ** Stored preferences *)

Lemma create_values_fresh (user : Z) (pref_type : string) (values : list string) :
  forall rows,
    NoDup values ->
    (forall value, value ∈ values -> (user, pref_type, value) ∉ rows) ->
    Memory.create_values user pref_type values rows
    = (Ok tt, (rows ++ ((fun value => (user, pref_type, value)) <$> values))%list).
Proof.
  induction values as [|value values IH]; intros rows Hnd Hfresh; simpl.
  - by rewrite app_nil_r.
  - apply NoDup_cons in Hnd as [Hvalue Hnd].
    rewrite bool_decide_eq_false_2 by (apply Hfresh; by left).
    rewrite IH; [by rewrite <- app_assoc | exact Hnd |].
    intros v Hv Hin. apply elem_of_app in Hin as [Hin|Hin].
    + revert Hin. apply Hfresh. by right.
    + apply list_elem_of_singleton in Hin. injection Hin as ->. contradiction.
Qed.

Lemma create_values_present (user : Z) (pref_type value : string)
    (values : list string) :
  forall rows,
    value ∈ values ->
    (user, pref_type, value) ∈ rows ->
    exists e rows', Memory.create_values user pref_type values rows = (Raise e, rows').
Proof.
  induction values as [|w values IH]; intros rows Hin Hrow;
    [by apply elem_of_nil in Hin|].
  simpl. destruct (bool_decide _) eqn:E; [by eexists _, _|].
  apply elem_of_cons in Hin as [->|Hin].
  - apply bool_decide_eq_false in E. contradiction.
  - apply IH; [exact Hin|]. apply elem_of_app. by left.
Qed.

Lemma create_values_duplicate (user : Z) (pref_type : string) (values : list string) :
  forall rows,
    ~ NoDup values ->
    exists e rows', Memory.create_values user pref_type values rows = (Raise e, rows').
Proof.
  induction values as [|value values IH]; intros rows Hdup; simpl.
  - exfalso. apply Hdup. constructor.
  - destruct (bool_decide _) eqn:E; [by eexists _, _|].
    destruct (decide (value ∈ values)) as [Hin|Hout].
    + apply (create_values_present user pref_type value); [exact Hin|].
      apply elem_of_app. right. by left.
    + apply IH. intros Hnd. apply Hdup. by constructor.
Qed.

Lemma delete_type_gone (user : Z) (pref_type value : string)
    (rows : list (Z * string * string)) :
  (user, pref_type, value) ∉ Memory.delete_type user pref_type rows.
Proof.
  unfold Memory.delete_type. intros Hin.
  apply list_elem_of_filter in Hin as [Hkeep _]. apply Hkeep. by split.
Qed.

Lemma get_or_create_profile_ok (db : Memory.DB) (user : Z) (customer_id : string) :
  user ∈ Memory.users db ->
  exists profiles',
    Memory.get_or_create_profile db user customer_id
    = Ok (Memory.mkDB (Memory.users db) profiles' (Memory.preferences db))
    /\ Memory.profiles db `prefix_of` profiles'
    /\ (exists profile,
          Memory.find_profile
            (Memory.mkDB (Memory.users db) profiles' (Memory.preferences db)) user
          = Some profile).
Proof.
  intros Huser. unfold Memory.get_or_create_profile.
  destruct (Memory.find_profile db user) as [profile|] eqn:F.
  - exists (Memory.profiles db). split_and!; [by destruct db | done |].
    exists profile. exact F.
  - rewrite bool_decide_eq_true_2 by exact Huser.
    exists (Memory.profiles db ++ [(user, customer_id)])%list.
    split_and!; [reflexivity | by apply prefix_app_r |].
    unfold Memory.find_profile in *. simpl.
    destruct (List.find _ (_ ++ _)%list) as [profile|] eqn:F'; [by eexists|].
    exfalso. assert (In (user, customer_id) (Memory.profiles db ++ [(user, customer_id)]))
      as Hin by (apply in_or_app; right; by left).
    pose proof (find_none _ _ F' _ Hin) as Hn. simpl in Hn.
    by rewrite bool_decide_eq_true_2 in Hn.
Qed.

Lemma save_one_type (to_int : string -> option Z) (db : Memory.DB)
    (user_id customer_id pref_type : string) (user : Z) (values : list string) :
  to_int user_id = Some user ->
  user ∈ Memory.users db ->
  NoDup values ->
  exists profiles',
    Memory.save_user_memory to_int db user_id customer_id [(pref_type, values)]
    = (Ok tt,
       Memory.mkDB (Memory.users db) profiles'
         (Memory.delete_type user pref_type (Memory.preferences db)
          ++ ((fun value => (user, pref_type, value)) <$> values))%list)
    /\ Memory.profiles db `prefix_of` profiles'
    /\ (exists profile,
          Memory.find_profile
            (Memory.mkDB (Memory.users db) profiles' (Memory.preferences db)) user
          = Some profile).
Proof.
  intros Hid Huser Hnd.
  destruct (get_or_create_profile_ok db user customer_id Huser)
    as (profiles' & Hget & Hprefix & Hfound).
  exists profiles'. split_and!; [|exact Hprefix | exact Hfound].
  unfold Memory.save_user_memory. rewrite Hid, Hget. simpl.
  rewrite create_values_fresh;
    [reflexivity | exact Hnd | intros v _; apply delete_type_gone].
Qed.

(** X12: saving the values of one preference type for an existing user
    replaces the rows of that type for that user and touches no other
    row: the old rows of the type are deleted, the new values are
    appended in order, the profiles there were stay and the user has
    one afterwards.  It succeeds exactly when no value is listed twice;
    a repeated value fails on the uniqueness of the rows.  A [user_id]
    that is no number fails the call before anything is written. *)
Theorem save_user_memory_replaces_type (to_int : string -> option Z)
    (db : Memory.DB) (user_id customer_id pref_type : string)
    (values : list string) :
  (forall user,
      to_int user_id = Some user ->
      user ∈ Memory.users db ->
      (NoDup values ->
       exists profiles',
         Memory.save_user_memory to_int db user_id customer_id
           [(pref_type, values)]
         = (Ok tt,
            Memory.mkDB (Memory.users db) profiles'
              (Memory.delete_type user pref_type (Memory.preferences db)
               ++ ((fun value => (user, pref_type, value)) <$> values))%list)
         /\ Memory.profiles db `prefix_of` profiles'
         /\ user ∈ profiles'.*1)
      /\ (~ NoDup values ->
          exists e,
            (Memory.save_user_memory to_int db user_id customer_id
               [(pref_type, values)]).1
            = Raise e))
  /\ (to_int user_id = None ->
      Memory.save_user_memory to_int db user_id customer_id [(pref_type, values)]
      = (Raise (Memory.not_a_number user_id), db)).
Proof.
  split.
  - intros user Hid Huser. split.
    + intros Hnd.
      destruct (save_one_type to_int db user_id customer_id pref_type user values
                  Hid Huser Hnd) as (profiles' & Hsave & Hprefix & profile & F).
      exists profiles'. split_and!; [exact Hsave | exact Hprefix |].
      unfold Memory.find_profile in F. simpl in F.
      apply find_some in F as [Hin Hu]. apply bool_decide_eq_true in Hu.
      apply list_elem_of_fmap. exists profile. split; [by rewrite Hu|].
      by apply list_elem_of_In.
    + intros Hdup.
      destruct (get_or_create_profile_ok db user customer_id Huser)
        as (profiles' & Hget & _).
      unfold Memory.save_user_memory. rewrite Hid, Hget. simpl.
      destruct (create_values_duplicate user pref_type values
                  (Memory.delete_type user pref_type (Memory.preferences db))
                  Hdup) as (e & rows' & ->).
      by exists e.
  - intros Hid. unfold Memory.save_user_memory. by rewrite Hid.
Qed.

Lemma save_user_memory_replaces_type_witness :
  Memory.save_user_memory decimal_key
    (Memory.mkDB [7; 8] [(8, "2")] [(7, "music", "rock"); (8, "music", "pop")])
    "7" "1" [("music", ["jazz"; "blues"])]
  = (Ok tt,
     Memory.mkDB [7; 8] [(8, "2"); (7, "1")]
       [(8, "music", "pop"); (7, "music", "jazz"); (7, "music", "blues")])
  /\ Memory.save_user_memory decimal_key
       (Memory.mkDB [7; 8] [(8, "2")] []) "seven" "1" [("music", ["jazz"])]
     = (Raise (Memory.not_a_number "seven"), Memory.mkDB [7; 8] [(8, "2")] []).
Proof.
  split; [reflexivity|].
  apply (save_user_memory_replaces_type decimal_key). reflexivity.
Defined.

Lemma pref_by_type_one_type (pref_type : string) (values : list string) :
  forall acc,
    fold_left (fun d row => Memory.add_pref row.1 row.2 d)
      ((fun value => (pref_type, value)) <$> values) [(pref_type, acc)]
    = [(pref_type, (acc ++ values)%list)].
Proof.
  induction values as [|value values IH]; intros acc; simpl.
  - by rewrite app_nil_r.
  - destruct (decide (pref_type = pref_type)) as [_|Hne]; [|contradiction].
    rewrite IH. by rewrite <- app_assoc.
Qed.

Lemma rows_of_app (user : Z) (users : list Z) (profiles : list (Z * string))
    (rows1 rows2 : list (Z * string * string)) :
  Memory.rows_of user (Memory.mkDB users profiles (rows1 ++ rows2))
  = (Memory.rows_of user (Memory.mkDB users profiles rows1)
     ++ Memory.rows_of user (Memory.mkDB users profiles rows2))%list.
Proof. unfold Memory.rows_of. simpl. apply omap_app. Qed.

Lemma rows_of_own (user : Z) (pref_type : string) (users : list Z)
    (profiles : list (Z * string)) (values : list string) :
  Memory.rows_of user
    (Memory.mkDB users profiles ((fun value => (user, pref_type, value)) <$> values))
  = (fun value => (pref_type, value)) <$> values.
Proof.
  unfold Memory.rows_of. simpl. induction values as [|value values IH]; simpl.
  - reflexivity.
  - destruct (decide (user = user)) as [_|Hne]; [|contradiction].
    f_equal. exact IH.
Qed.

Lemma rows_of_deleted (user : Z) (pref_type : string) (users : list Z)
    (profiles : list (Z * string)) (rows : list (Z * string * string)) :
  (forall row, row ∈ rows -> row.1.1 = user -> row.1.2 = pref_type) ->
  Memory.rows_of user
    (Memory.mkDB users profiles (Memory.delete_type user pref_type rows)) = [].
Proof.
  intros Honly. unfold Memory.rows_of, Memory.delete_type. simpl.
  induction rows as [|row rows IH]; [reflexivity|].
  rewrite filter_cons.
  destruct (decide (~ (row.1.1 = user /\ row.1.2 = pref_type))) as [Hkeep|Hdrop].
  - simpl. destruct (decide (row.1.1 = user)) as [Hu|Hu].
    + exfalso. apply Hkeep. split; [exact Hu|]. apply Honly; [by left | exact Hu].
    + apply IH. intros r Hr. apply Honly. by right.
  - apply IH. intros r Hr. apply Honly. by right.
Qed.

Lemma one_type_rows (pref_type : string) (rows : list (string * string)) :
  Forall (fun row => row.1 = pref_type) rows ->
  rows = (fun value => (pref_type, value)) <$> rows.*2.
Proof.
  induction 1 as [|[t v] rows Ht _ IH]; [reflexivity|].
  simpl in Ht. subst t. simpl. f_equal. exact IH.
Qed.

(** X13: what is saved is what is loaded, in the order the database
    chooses.  The query of [load_user_memory] names no order; whatever
    order the database returns the rows in, for an existing user whose
    stored preferences, if any, are all of one type, saving a list of
    distinct values for that type and loading the memory gives the one
    line "<Type> Preferences: v1, v2, ..." whose values are the saved
    ones, each once, in the order the database returned them. *)
Theorem load_after_save (to_int : string -> option Z)
    (order : list (string * string) -> list (string * string))
    (db : Memory.DB)
    (user_id customer_id pref_type : string) (user : Z) (values : list string) :
  (forall rows, order rows ≡ₚ rows) ->
  to_int user_id = Some user ->
  user ∈ Memory.users db ->
  NoDup values ->
  values <> [] ->
  (forall row, row ∈ Memory.preferences db ->
     row.1.1 = user -> row.1.2 = pref_type) ->
  exists shown,
    shown ≡ₚ values
    /\ order ((fun value => (pref_type, value)) <$> values)
       = (fun value => (pref_type, value)) <$> shown
    /\ Memory.load_user_memory to_int order
         (Memory.save_user_memory to_int db user_id customer_id
            [(pref_type, values)]).2
         user_id
       = Ok (Memory.title pref_type ++ " Preferences: "
             ++ Memory.join ", " shown).
Proof.
  intros Horder Hid Huser Hnd Hne Honly.
  destruct (save_one_type to_int db user_id customer_id pref_type user values
              Hid Huser Hnd) as (profiles' & -> & _ & profile & F).
  remember (order ((fun value => (pref_type, value)) <$> values)) as rows
    eqn:Erows.
  assert (rows ≡ₚ (fun value => (pref_type, value)) <$> values) as Hperm
    by (rewrite Erows; apply Horder).
  remember (rows.*2) as shown eqn:Eshown.
  assert (rows = (fun value => (pref_type, value)) <$> shown) as Hrows.
  { rewrite Eshown. apply one_type_rows. rewrite Hperm. apply Forall_fmap.
    by apply Forall_forall. }
  assert (shown ≡ₚ values) as Hshown.
  { rewrite Eshown, Hperm, <- list_fmap_compose. simpl.
    by rewrite list_fmap_id. }
  clear Eshown.
  exists shown. split_and!; [exact Hshown | exact Hrows |].
  unfold Memory.load_user_memory. rewrite Hid. cbn [snd].
  unfold Memory.find_profile in *. simpl in F. simpl Memory.profiles. rewrite F.
  rewrite rows_of_app, rows_of_deleted by exact Honly.
  rewrite rows_of_own. simpl app. rewrite <- Erows, Hrows.
  destruct shown as [|value shown].
  { exfalso. apply Hne. by apply Permutation_nil_l in Hshown. }
  rewrite bool_decide_eq_false_2 by discriminate.
  unfold Memory.pref_by_type. simpl fold_left at 1.
  change (fold_left _ (?f <$> shown) _)
    with (fold_left (fun d row => Memory.add_pref row.1 row.2 d)
            ((fun v => (pref_type, v)) <$> shown) [(pref_type, [value])]).
  rewrite pref_by_type_one_type. reflexivity.
Qed.

Lemma load_after_save_witness :
  exists shown,
    shown ≡ₚ ["jazz"; "blues"]
    /\ reverse ((fun value => ("music", value)) <$> ["jazz"; "blues"])
       = (fun value => ("music", value)) <$> shown
    /\ Memory.load_user_memory decimal_key reverse
         (Memory.save_user_memory decimal_key
            (Memory.mkDB [7; 8] [(7, "1")]
               [(7, "music", "rock"); (8, "music", "pop")])
            "7" "7" [("music", ["jazz"; "blues"])]).2
         "7"
       = Ok (Memory.title "music" ++ " Preferences: "
             ++ Memory.join ", " shown).
Proof.
  apply (load_after_save decimal_key reverse) with (user := 7).
  - intros rows. apply reverse_Permutation.
  - reflexivity.
  - simpl. rewrite !elem_of_cons. by left.
  - refine (bool_decide_unpack _ _). vm_compute. exact I.
  - discriminate.
  - intros row Hrow Hu. simpl in Hrow. rewrite !elem_of_cons, elem_of_nil in Hrow.
    destruct Hrow as [->|[->|[]]]; [reflexivity | discriminate Hu].
Defined.

(** With a database that returns the rows from its index on (profile,
    type, value), here in reverse of their creation, the values saved
    as jazz, blues are shown as blues, jazz. *)
Example load_after_save_index_order :
  Memory.load_user_memory decimal_key reverse
    (Memory.save_user_memory decimal_key
       (Memory.mkDB [7; 8] [(7, "1")]
          [(7, "music", "rock"); (8, "music", "pop")])
       "7" "7" [("music", ["jazz"; "blues"])]).2
    "7"
  = Ok "Music Preferences: blues, jazz".
Proof. vm_compute. reflexivity. Qed.

(** ** The stored transcript *)

Lemma to_messages_snoc (rows : list Chat.Row) (msg : Chat.Row)
    (ms : list Chat.ChatMessage) (m : option Chat.ChatMessage) :
  Chat.to_messages rows = Ok ms ->
  Chat.to_message msg = Ok m ->
  Chat.to_messages (rows ++ [msg]) = Ok (ms ++ option_list m)%list.
Proof.
  revert ms. induction rows as [|row rows IH]; intros ms Hrows Hmsg; simpl in *.
  - injection Hrows as <-. rewrite Hmsg. simpl. by destruct m.
  - unfold mbind, result_bind, Py.bind in *.
    destruct (Chat.to_message row) as [r|e]; [|discriminate].
    destruct (Chat.to_messages rows) as [rs|e]; [|discriminate].
    injection Hrows as <-. rewrite (IH rs eq_refl Hmsg).
    by destruct r.
Qed.

(** X14: a message saved to a known conversation is the last message
    read back from it, after the ones read before; a row whose role is
    not user, assistant, system or tool is stored but read back as
    nothing; other conversations read the same as before; saving to an
    unknown conversation changes nothing, reading from one gives no
    messages; and an id that is no UUID fails both calls. *)
Theorem saved_message_is_read_back (to_python : string -> option N)
    (db : Chat.DB) (conversation_id role content_ : string)
    (tool_call_id name_ : option string) :
  (forall thread,
      to_python conversation_id = Some thread ->
      (thread ∈ Chat.conversations db ->
       forall ms m,
         Chat.get_conversation_messages to_python db conversation_id = Ok ms ->
         Chat.to_message (Chat.mkRow thread role content_ tool_call_id name_)
         = Ok m ->
         exists db',
           Chat.save_conversation_message to_python db conversation_id role
             content_ tool_call_id name_ = Ok db'
           /\ Chat.get_conversation_messages to_python db' conversation_id
              = Ok (ms ++ option_list m)%list
           /\ (forall other,
                 to_python other <> Some thread ->
                 Chat.get_conversation_messages to_python db' other
                 = Chat.get_conversation_messages to_python db other))
      /\ (thread ∉ Chat.conversations db ->
          Chat.save_conversation_message to_python db conversation_id role
            content_ tool_call_id name_ = Ok db
          /\ Chat.get_conversation_messages to_python db conversation_id = Ok []))
  /\ (to_python conversation_id = None ->
      Chat.save_conversation_message to_python db conversation_id role
        content_ tool_call_id name_ = Raise (Chat.not_a_uuid conversation_id)
      /\ Chat.get_conversation_messages to_python db conversation_id
         = Raise (Chat.not_a_uuid conversation_id))
  /\ (forall thread,
        Chat.to_message (Chat.mkRow thread "user" content_ tool_call_id name_)
        = Ok (Some (Chat.Plain (HumanMessage content_)))
        /\ Chat.to_message
             (Chat.mkRow thread "assistant" content_ tool_call_id name_)
           = Ok (Some (Chat.Plain (AIMessage content_)))
        /\ Chat.to_message
             (Chat.mkRow thread "function" content_ tool_call_id name_)
           = Ok None).
Proof.
  split_and!.
  - intros thread Hid. split.
    + intros Hknown ms m Hget Hm.
      pose proof (bool_decide_eq_true_2 _ Hknown) as Hb.
      unfold Chat.get_conversation_messages, Chat.save_conversation_message in *.
      rewrite Hid in *. rewrite Hb in Hget. rewrite Hb.
      eexists. split_and!; [reflexivity | |].
      * simpl. rewrite Hb.
        rewrite filter_app, filter_cons, filter_nil. simpl.
        destruct (decide (thread = thread)) as [_|Hne]; [|contradiction].
        by apply to_messages_snoc.
      * intros other Hother. simpl.
        destruct (to_python other) as [t|]; [|reflexivity].
        destruct (bool_decide (t ∈ Chat.conversations db)); [|reflexivity].
        rewrite filter_app, filter_cons, filter_nil. simpl.
        destruct (decide (thread = t)) as [Heq|_];
          [subst; contradiction | by rewrite app_nil_r].
    + intros Hunknown.
      pose proof (bool_decide_eq_false_2 _ Hunknown) as Hb.
      unfold Chat.get_conversation_messages, Chat.save_conversation_message.
      by rewrite Hid, Hb.
  - intros Hid.
    unfold Chat.get_conversation_messages, Chat.save_conversation_message.
    by rewrite Hid.
  - intros thread. split_and!; reflexivity.
Qed.

(** ** The agent history *)

Lemma save_body_metadata (conv : History.Conversation) (message : Content)
    (agent_type : option string) (message_id : option Z) (now : string) :
  History.metadata (History.save_body conv message agent_type message_id now).2
  = History.metadata conv.
Proof.
  unfold History.save_body.
  destruct (match given agent_type with
            | Some a => Ok a
            | None => History.detect_agent message
            end) as [agent|e]; [|reflexivity].
  destruct (bool_decide_reflect (History.metadata conv = None)) as [Hm|Hm].
  - simpl. by rewrite Hm.
  - destruct (History.metadata conv) as [h|] eqn:E; [|contradiction].
    simpl. exact E.
Qed.

(** X15: [save_detailed_chat_history] never records anything.  The
    entry is appended to the dict that the [metadata] property has just
    parsed from the column, and that dict is dropped: after the call,
    and after any number of calls, [conversation.metadata] reads as it
    did before, so the serializer finds the same agent for every message
    as before ([unknown] on a conversation without history).  On a
    conversation whose metadata is empty the call ends in the
    [KeyError] handler and the conversation is not saved. *)
Theorem agent_history_is_never_recorded (conv : History.Conversation)
    (calls : list (Content * option string * option Z * string)) :
  (forall message agent_type message_id now,
      History.metadata
        (History.save_detailed_chat_history conv message agent_type message_id
           now).1
      = History.metadata conv)
  /\ History.metadata
       (fold_left
          (fun c call =>
             (History.save_detailed_chat_history c call.1.1.1 call.1.1.2
                call.1.2 call.2).1)
          calls conv)
     = History.metadata conv
  /\ (forall id,
        History.get_agent_type
          (fold_left
             (fun c call =>
                (History.save_detailed_chat_history c call.1.1.1 call.1.1.2
                   call.1.2 call.2).1)
             calls conv) id
        = History.get_agent_type conv id)
  /\ (forall message agent_type message_id now,
        History.metadata conv = None ->
        (History.save_detailed_chat_history conv message agent_type message_id
           now).2 = false).
Proof.
  assert (forall c message agent_type message_id now,
            History.metadata
              (History.save_detailed_chat_history c message agent_type
                 message_id now).1
            = History.metadata c) as Hone.
  { intros c message agent_type message_id now.
    unfold History.save_detailed_chat_history.
    pose proof (save_body_metadata c message agent_type message_id now) as H.
    by destruct (History.save_body _ _ _ _ _) as [[|] c']. }
  assert (History.metadata
            (fold_left
               (fun c call =>
                  (History.save_detailed_chat_history c call.1.1.1 call.1.1.2
                     call.1.2 call.2).1)
               calls conv)
          = History.metadata conv) as Hall.
  { revert conv. induction calls as [|call calls IH]; intros conv; simpl.
    - reflexivity.
    - rewrite IH. apply Hone. }
  split_and!.
  - apply Hone.
  - exact Hall.
  - intros id. unfold History.get_agent_type. by rewrite Hall.
  - intros message agent_type message_id now Hm.
    unfold History.save_detailed_chat_history, History.save_body.
    destruct (match given agent_type with
              | Some a => Ok a
              | None => History.detect_agent message
              end) as [agent|e]; [|reflexivity].
    rewrite bool_decide_eq_true_2 by exact Hm. reflexivity.
Qed.

(** ** The agent summary *)

Lemma count_of_count_agent (a b : string) (counts : list (string * nat)) :
  count_of b (History.count_agent a counts)
  = if decide (b = a) then S (count_of a counts) else count_of b counts.
Proof.
  induction counts as [|[c n] counts IH]; simpl; [reflexivity|].
  destruct (decide (a = c)) as [->|Hac]; simpl.
  - by destruct (decide (b = c)).
  - destruct (decide (b = c)) as [->|Hbc]; [|exact IH].
    by rewrite decide_False by congruence.
Qed.

Lemma keys_count_agent (a : string) (counts : list (string * nat)) :
  (History.count_agent a counts).*1
  = if decide (a ∈ counts.*1) then counts.*1 else (counts.*1 ++ [a])%list.
Proof.
  induction counts as [|[c n] counts IH].
  - destruct (decide (a ∈ ([] : list (string * nat)).*1)) as [Hin|_];
      [|reflexivity].
    by apply elem_of_nil in Hin.
  - cbn [History.count_agent fmap list_fmap fst].
    destruct (decide (a = c)) as [->|Hac].
    + destruct (decide (c ∈ c :: counts.*1)) as [_|Hout]; [reflexivity|].
      exfalso. apply Hout, list_elem_of_here.
    + cbn [fmap list_fmap fst]. fold (fmap (M:=list) (@fst string nat)).
      rewrite IH.
      destruct (decide (a ∈ counts.*1)) as [Hin|Hout];
        destruct (decide (a ∈ c :: counts.*1)) as [Hin'|Hout'];
        try reflexivity.
      * exfalso. by apply Hout', list_elem_of_further.
      * apply elem_of_cons in Hin' as [?|?]; contradiction.
Qed.

Lemma sum_count_agent (a : string) (counts : list (string * nat)) :
  sum_list (History.count_agent a counts).*2 = S (sum_list counts.*2).
Proof.
  induction counts as [|[c n] counts IH]; [reflexivity|].
  cbn [History.count_agent].
  destruct (decide (a = c)) as [->|Hac]; [reflexivity|].
  change (n + sum_list (History.count_agent a counts).*2
          = S (n + sum_list counts.*2))%nat.
  rewrite IH. lia.
Qed.

Lemma summary_loop (h : list History.Entry) (counts : list (string * nat)) :
  let summary :=
    fold_left (fun counts entry => History.count_agent (agent_of entry) counts)
      h counts in
  (NoDup counts.*1 -> NoDup summary.*1)
  /\ (forall a,
        count_of a summary
        = (count_of a counts
           + length (filter (fun entry => agent_of entry = a) h))%nat)
  /\ (forall a, a ∈ summary.*1 <->
                a ∈ counts.*1 \/ exists entry, entry ∈ h /\ agent_of entry = a)
  /\ sum_list summary.*2 = (sum_list counts.*2 + length h)%nat.
Proof.
  revert counts. induction h as [|entry h IH]; intros counts; simpl.
  - split_and!; [done | intros; lia | | lia].
    intros a. split; [by left|].
    intros [Hin|(entry & Hin & _)]; [exact Hin|]. by apply elem_of_nil in Hin.
  - destruct (IH (History.count_agent (agent_of entry) counts))
      as (Hnodup & Hcount & Hkeys & Hsum).
    split_and!.
    + intros Hnd. apply Hnodup. rewrite keys_count_agent.
      destruct (decide (agent_of entry ∈ counts.*1)) as [Hin|Hout]; [exact Hnd|].
      apply NoDup_app. split_and!; [exact Hnd | | apply NoDup_singleton].
      intros x Hx Hx'. apply list_elem_of_singleton in Hx'. by subst.
    + intros a. rewrite Hcount, count_of_count_agent, filter_cons.
      destruct (decide (a = agent_of entry)) as [->|Hne].
      * rewrite decide_True by reflexivity. simpl. lia.
      * rewrite decide_False by congruence. reflexivity.
    + intros a. rewrite Hkeys, keys_count_agent. split.
      * intros [Hin|(e & He & Ha)].
        -- destruct (decide (agent_of entry ∈ counts.*1)); [by left|].
           apply elem_of_app in Hin as [Hin|Hin]; [by left|].
           apply list_elem_of_singleton in Hin. right. exists entry.
           split; [apply list_elem_of_here | done].
        -- right. exists e. split; [by apply list_elem_of_further | exact Ha].
      * intros [Hin|(e & He & Ha)].
        -- left. destruct (decide (agent_of entry ∈ counts.*1)); [exact Hin|].
           apply elem_of_app. by left.
        -- apply elem_of_cons in He as [->|He].
           ++ left. subst a.
              destruct (decide (agent_of entry ∈ counts.*1)) as [Hin|Hout];
                [exact Hin|].
              apply elem_of_app. right. apply list_elem_of_here.
           ++ right. by exists e.
    + rewrite Hsum, sum_count_agent. lia.
Qed.

(** X16: the agent summary of a conversation with an agent history
    lists every agent of the history once, with the number of the
    history's entries of that agent (an entry without an agent counts
    as [unknown]); no other agent is listed, and the counts add up to
    the length of the history. *)
Theorem agent_summary_counts_the_history (conv : History.Conversation)
    (h : list History.Entry) (Hh : History.metadata conv = Some h) :
  NoDup (History.get_agent_summary conv).*1
  /\ (forall a,
        count_of a (History.get_agent_summary conv)
        = length (filter (fun entry => agent_of entry = a) h))
  /\ (forall a, a ∈ (History.get_agent_summary conv).*1 <->
                exists entry, entry ∈ h /\ agent_of entry = a)
  /\ sum_list (History.get_agent_summary conv).*2 = length h.
Proof.
  unfold History.get_agent_summary. rewrite Hh.
  destruct (summary_loop h []) as (Hnodup & Hcount & Hkeys & Hsum).
  split_and!.
  - apply Hnodup. apply NoDup_nil_2.
  - intros a. exact (Hcount a).
  - intros a. rewrite Hkeys. split; [|by right].
    intros [Hin|Hex]; [|exact Hex]. by apply elem_of_nil in Hin.
  - exact Hsum.
Qed.

Lemma agent_summary_counts_the_history_witness :
  let h := [History.mkEntry "t1" (Some "music_catalog_subagent") 5 (Some 1);
            History.mkEntry "t2" None 7 None;
            History.mkEntry "t3" (Some "music_catalog_subagent") 2 (Some 3)] in
  let conv := History.mkConversation (Some (Some h)) in
  History.get_agent_summary conv
  = [("music_catalog_subagent", 2%nat); ("unknown", 1%nat)]
  /\ sum_list (History.get_agent_summary conv).*2 = length h.
Proof.
  intros h conv. split; [reflexivity|].
  exact (proj2 (proj2 (proj2
           (agent_summary_counts_the_history conv h eq_refl)))).
Defined.

(** ** Previews *)

Lemma substring_whole (n : nat) (s : string) :
  (String.length s <= n)%nat -> String.substring 0 n s = s.
Proof.
  revert n. induction s as [|c s IH]; intros n Hn.
  - by destruct n.
  - destruct n as [|n]; simpl in *; [lia|]. rewrite IH; [reflexivity | lia].
Qed.

Lemma substring_length_cut (n : nat) (s : string) :
  (n <= String.length s)%nat -> String.length (String.substring 0 n s) = n.
Proof.
  revert n. induction s as [|c s IH]; intros n Hn.
  - destruct n; simpl in *; [reflexivity | lia].
  - destruct n as [|n]; simpl in *; [reflexivity|]. rewrite IH; [reflexivity | lia].
Qed.

Lemma substring_append_left (s t : string) :
  String.substring 0 (String.length s) (s ++ t) = s.
Proof.
  induction s as [|c s IH]; simpl; [by destruct t | by rewrite IH].
Qed.

Lemma append_length (s t : string) :
  String.length (s ++ t) = (String.length s + String.length t)%nat.
Proof. induction s as [|c s IH]; simpl; [reflexivity | by rewrite IH]. Qed.

(** X17: a preview of [n] characters shows a content of at most [n]
    characters unchanged, and anything longer as exactly [n + 3]
    characters, beginning as the content does; so a preview is never
    longer than [n + 3], and a content of [n + 1] or [n + 2] characters
    has a preview longer than itself. *)
Theorem preview_length (n : nat) (content_ : string) :
  ((String.length content_ <= n)%nat -> preview n content_ = content_)
  /\ ((n < String.length content_)%nat ->
      String.length (preview n content_) = (n + 3)%nat
      /\ String.substring 0 n (preview n content_)
         = String.substring 0 n content_)
  /\ (String.length (preview n content_) <= n + 3)%nat
  /\ ((n < String.length content_ < n + 3)%nat ->
      (String.length content_ < String.length (preview n content_))%nat).
Proof.
  assert ((String.length content_ <= n)%nat -> preview n content_ = content_)
    as Hfits.
  { intros Hn. unfold preview. rewrite substring_whole by exact Hn.
    destruct (Nat.ltb_spec n (String.length content_)) as [Hlt|_]; [lia|].
    clear. induction content_ as [|c s IH]; [reflexivity|].
    change (String c (s ++ "") = String c s). by rewrite IH. }
  assert ((n < String.length content_)%nat ->
          String.length (preview n content_) = (n + 3)%nat) as Hcut.
  { intros Hn. unfold preview.
    destruct (Nat.ltb_spec n (String.length content_)) as [_|Hge]; [|lia].
    rewrite append_length, substring_length_cut by lia. reflexivity. }
  split_and!.
  - exact Hfits.
  - intros Hn. split; [by apply Hcut|].
    unfold preview.
    rewrite <- (substring_length_cut n content_) at 1 by lia.
    apply substring_append_left.
  - destruct (Nat.le_gt_cases (String.length content_) n) as [Hle|Hgt].
    + rewrite Hfits by exact Hle. lia.
    + rewrite Hcut by exact Hgt. lia.
  - intros [Hlo Hhi]. rewrite Hcut by exact Hlo. lia.
Qed.

(** ** Deleting users *)

Lemma remove_count (x : Z) (l l' : list Z) :
  Users.remove x l = Ok l' ->
  forall y,
    count_occ Z.eq_dec l y
    = (count_occ Z.eq_dec l' y + (if decide (y = x) then 1 else 0))%nat.
Proof.
  revert l'. induction l as [|z l IH]; intros l' Hrem y; simpl in Hrem.
  - discriminate.
  - destruct (decide (x = z)) as [->|Hxz].
    + injection Hrem as <-. simpl.
      destruct (Z.eq_dec z y) as [->|Hzy].
      * rewrite decide_True by reflexivity. lia.
      * rewrite decide_False by congruence. lia.
    + unfold mbind, result_bind, Py.bind in Hrem.
      destruct (Users.remove x l) as [l''|e]; [|discriminate].
      injection Hrem as <-. simpl. rewrite (IH l'' eq_refl y).
      destruct (Z.eq_dec z y) as [->|Hzy]; [|reflexivity].
      rewrite decide_False by congruence. lia.
Qed.

Lemma remove_present (x : Z) (l : list Z) :
  x ∈ l -> exists l', Users.remove x l = Ok l'.
Proof.
  induction l as [|z l IH]; intros Hin; [by apply elem_of_nil in Hin|].
  simpl. destruct (decide (x = z)) as [->|Hxz]; [by eexists|].
  apply elem_of_cons in Hin as [?|Hin]; [contradiction|].
  destruct (IH Hin) as [l' ->]. by eexists.
Qed.

Lemma count_occ_elem_of (l : list Z) (y : Z) :
  y ∈ l <-> (0 < count_occ Z.eq_dec l y)%nat.
Proof. rewrite list_elem_of_In. apply count_occ_In. Qed.

Lemma remove_all_count (xs : list Z) :
  forall l,
    NoDup xs ->
    (forall x, x ∈ xs -> x ∈ l) ->
    exists l',
      Users.remove_all xs l = Ok l'
      /\ forall y,
           count_occ Z.eq_dec l y
           = (count_occ Z.eq_dec l' y + (if decide (y ∈ xs) then 1 else 0))%nat.
Proof.
  induction xs as [|x xs IH]; intros l Hnd Hsub.
  - exists l. split; [reflexivity|]. intros y.
    destruct (decide (y ∈ [])) as [Hin|_]; [by apply elem_of_nil in Hin | lia].
  - apply NoDup_cons in Hnd as [Hx Hnd].
    destruct (remove_present x l) as [l1 Hrem]; [apply Hsub; by left|].
    cbn [Users.remove_all]. rewrite Hrem. cbn [mbind result_bind Py.bind].
    destruct (IH l1 Hnd) as (l' & Hall & Hcount).
    { intros z Hz. apply count_occ_elem_of.
      pose proof (remove_count x l l1 Hrem z) as Hc.
      assert (z ∈ l) as Hzl by (apply Hsub; by right).
      apply count_occ_elem_of in Hzl.
      rewrite decide_False in Hc by (intros ->; contradiction). lia. }
    exists l'. split; [exact Hall|]. intros y.
    rewrite (remove_count x l l1 Hrem y), Hcount.
    destruct (decide (y = x)) as [->|Hyx].
    + destruct (decide (x ∈ xs)) as [?|_]; [contradiction|].
      destruct (decide (x ∈ x :: xs)) as [_|Hout]; [lia|].
      exfalso. apply Hout. by left.
    + destruct (decide (y ∈ xs)) as [Hin|Hout];
        destruct (decide (y ∈ x :: xs)) as [Hin'|Hout']; try lia.
      * exfalso. apply Hout'. by right.
      * apply elem_of_cons in Hin' as [?|?]; contradiction.
Qed.

Lemma same_id_same_user (table : list Users.User) (u v : Users.User) :
  NoDup (Users.id <$> table) ->
  u ∈ table -> v ∈ table -> Users.id u = Users.id v -> u = v.
Proof.
  induction table as [|w table IH]; intros Hnd Hu Hv Hid;
    [by apply elem_of_nil in Hu|].
  rewrite fmap_cons in Hnd. apply NoDup_cons in Hnd as [Hw Hnd].
  apply elem_of_cons in Hu as [->|Hu]; apply elem_of_cons in Hv as [->|Hv].
  - reflexivity.
  - exfalso. apply Hw. rewrite Hid. apply list_elem_of_fmap. by exists v.
  - exfalso. apply Hw. rewrite <- Hid. apply list_elem_of_fmap. by exists u.
  - by apply IH.
Qed.

(** X18: [bulk_delete] on a list of integers never fails, and it
    deletes a user exactly when the list names the user more often than
    the user is protected: the user of the request is protected once, a
    superuser once.  So a list without repetitions deletes neither the
    user of the request nor a superuser, and deletes every other user it
    names; a list that names the user of the request twice deletes
    that user, unless a superuser. *)
Theorem bulk_delete_protects_once (table : list Users.User) (current : Z)
    (user_ids : list Z) (Hkeys : NoDup (Users.id <$> table)) :
  exists table',
    Users.bulk_delete table current user_ids = Ok table'
    /\ (forall u,
          u ∈ table' <->
          u ∈ table
          /\ (count_occ Z.eq_dec user_ids (Users.id u) <= protections current u)%nat)
    /\ (NoDup user_ids ->
        forall u,
          u ∈ table' <->
          u ∈ table
          /\ (Users.id u ∉ user_ids \/ Users.id u = current
              \/ Users.is_superuser u = true)).
Proof.
  assert (exists user_ids1,
             (if bool_decide (current ∈ user_ids)
              then Users.remove current user_ids else Ok user_ids) = Ok user_ids1
             /\ forall y,
                  count_occ Z.eq_dec user_ids1 y
                  = (count_occ Z.eq_dec user_ids y
                     - (if decide (y = current) then 1 else 0))%nat)
    as (user_ids1 & Hfirst & Hcount1).
  { destruct (bool_decide_reflect (current ∈ user_ids)) as [Hin|Hout].
    - destruct (remove_present current user_ids Hin) as [l1 Hrem].
      exists l1. split; [exact Hrem|]. intros y.
      rewrite (remove_count current user_ids l1 Hrem y). lia.
    - exists user_ids. split; [reflexivity|]. intros y.
      destruct (decide (y = current)) as [->|Hne]; [|lia].
      assert (count_occ Z.eq_dec user_ids current = 0%nat) as ->; [|reflexivity].
      apply count_occ_not_In. by rewrite <- list_elem_of_In. }
  set (superuser_ids :=
         Users.id <$> filter (fun u => Users.id u ∈ user_ids1
                                       /\ Users.is_superuser u = true) table).
  assert (NoDup superuser_ids) as Hsuper_nd.
  { eapply sublist_NoDup; [exact Hkeys|].
    apply fmap_sublist. apply sublist_filter. }
  destruct (remove_all_count superuser_ids user_ids1 Hsuper_nd)
    as (user_ids2 & Hall & Hcount2).
  { intros x Hx. apply list_elem_of_fmap in Hx as (u & -> & Hu).
    apply list_elem_of_filter in Hu as [[Hin _] _]. exact Hin. }
  assert (forall u, u ∈ table ->
            (Users.id u ∈ superuser_ids
             <-> Users.id u ∈ user_ids1 /\ Users.is_superuser u = true))
    as Hsuper.
  { intros u Hu. split.
    - intros Hin. apply list_elem_of_fmap in Hin as (v & Hid & Hv).
      apply list_elem_of_filter in Hv as [[Hin Hs] Hv].
      assert (u = v) as -> by (by apply (same_id_same_user table)).
      by split.
    - intros [Hin Hs]. apply list_elem_of_fmap. exists u.
      split; [reflexivity|]. apply list_elem_of_filter. by split. }
  assert (forall u, u ∈ table ->
            (Users.id u ∉ user_ids2
             <-> (count_occ Z.eq_dec user_ids (Users.id u)
                  <= protections current u)%nat)) as Hkept.
  { intros u Hu. rewrite count_occ_elem_of.
    pose proof (Hcount2 (Users.id u)) as H2.
    pose proof (Hcount1 (Users.id u)) as H1.
    pose proof (Hsuper u Hu) as Hs.
    rewrite (count_occ_elem_of user_ids1) in Hs.
    unfold protections.
    destruct (decide (Users.id u ∈ superuser_ids)) as [Hin|Hout].
    - destruct (proj1 Hs Hin) as [Hpos Hsu]. rewrite Hsu.
      destruct (decide (Users.id u = current)); lia.
    - destruct (Users.is_superuser u) eqn:Es.
      + assert (count_occ Z.eq_dec user_ids1 (Users.id u) = 0%nat) as H0.
        { destruct (count_occ Z.eq_dec user_ids1 (Users.id u)) eqn:Ec;
            [reflexivity|].
          exfalso. apply Hout, Hs. split; [lia | reflexivity]. }
        destruct (decide (Users.id u = current)); lia.
      + destruct (decide (Users.id u = current)); lia. }
  assert (exists table',
             Users.bulk_delete table current user_ids = Ok table'
             /\ forall u, u ∈ table' <-> u ∈ table /\ Users.id u ∉ user_ids2)
    as (table' & Hrun & Htable).
  { unfold Users.bulk_delete. rewrite Hfirst. simpl.
    fold superuser_ids. rewrite Hall. simpl.
    destruct (bool_decide_reflect (user_ids2 <> [])) as [Hne|He].
    - eexists. split; [reflexivity|]. intros u.
      rewrite list_elem_of_filter. tauto.
    - exists table. split; [reflexivity|]. intros u.
      destruct user_ids2 as [|z l]; [|exfalso; by apply He].
      split; [intros Hu; split; [exact Hu | apply not_elem_of_nil] | tauto]. }
  exists table'. split_and!; [exact Hrun | |].
  - intros u. rewrite Htable. split.
    + intros [Hu Hout]. split; [exact Hu|]. by apply Hkept.
    + intros [Hu Hle]. split; [exact Hu|]. by apply Hkept.
  - intros Hnd u. rewrite Htable. split.
    + intros [Hu Hout]. split; [exact Hu|].
      apply (Hkept u Hu) in Hout. unfold protections in Hout.
      destruct (decide (Users.id u ∈ user_ids)) as [Hin|Hnin]; [|by left].
      apply count_occ_elem_of in Hin.
      destruct (decide (Users.id u = current)); [by right; left|].
      destruct (Users.is_superuser u); [by right; right|]. lia.
    + intros [Hu Hcase]. split; [exact Hu|]. apply (Hkept u Hu).
      assert (count_occ Z.eq_dec user_ids (Users.id u) <= 1)%nat as Hone.
      { apply NoDup_ListNoDup in Hnd.
        apply (proj1 (NoDup_count_occ Z.eq_dec user_ids) Hnd). }
      unfold protections. destruct Hcase as [Hout|[Hc|Hs]].
      * assert (count_occ Z.eq_dec user_ids (Users.id u) = 0%nat) as ->; [|lia].
        apply count_occ_not_In. by rewrite <- list_elem_of_In.
      * rewrite decide_True by exact Hc. lia.
      * rewrite Hs. lia.
Qed.

Lemma bulk_delete_protects_once_witness :
  Users.bulk_delete
    [Users.mkUser 1 true; Users.mkUser 2 false; Users.mkUser 3 false]
    2 [1; 2; 3]
  = Ok [Users.mkUser 1 true; Users.mkUser 2 false]
  /\ Users.bulk_delete
       [Users.mkUser 1 true; Users.mkUser 2 false; Users.mkUser 3 false]
       2 [2; 2; 1; 1]
     = Ok [Users.mkUser 3 false]
  /\ exists table',
       Users.bulk_delete
         [Users.mkUser 1 true; Users.mkUser 2 false; Users.mkUser 3 false]
         2 [1; 2; 3] = Ok table'.
Proof.
  split_and!; [reflexivity | reflexivity |].
  destruct (bulk_delete_protects_once
              [Users.mkUser 1 true; Users.mkUser 2 false; Users.mkUser 3 false]
              2 [1; 2; 3]) as (table' & Hrun & _).
  - refine (bool_decide_unpack _ _). vm_compute. exact I.
  - exists table'. exact Hrun.
Defined.

(** ** The chat endpoint *)

Section Chatting.

Context {Storage : Type}.
Variable uuid4 : nat -> string.
Variable agent_graph : CompiledGraph Storage.

(** X19: whatever the graph does, the chat endpoint answers with HTTP
    200 and the thread it worked on, with status [complete],
    [interrupted] or [error]; a run that ends in an error is reported
    as such, still with HTTP 200, and is not tried again: the agent is
    called once.  The user message is stored first, one or two
    assistant messages after it, and what was stored before is kept. *)
Theorem chat_view_response_shape (thread_id message user_id : string)
    (log : Transcript) (w : World Storage) :
  http_status
    (ChatView_post uuid4 agent_graph thread_id message user_id log w).1.1
  = 200%nat
  /\ body (ChatView_post uuid4 agent_graph thread_id message user_id log w).1.1
       !! "thread_id" = Some (RStr (chat_thread uuid4 thread_id w))
  /\ (body (ChatView_post uuid4 agent_graph thread_id message user_id log w).1.1
        !! "status" = Some (RStr "complete")
      \/ body (ChatView_post uuid4 agent_graph thread_id message user_id log w).1.1
           !! "status" = Some (RStr "interrupted")
      \/ body (ChatView_post uuid4 agent_graph thread_id message user_id log w).1.1
           !! "status" = Some (RStr "error"))
  /\ (forall status,
        status = "interrupted" \/ status = "error" ->
        str_field
          (run_agent_with_input uuid4 agent_graph (Some message)
             (Some (chat_thread uuid4 thread_id w)) (Some user_id) None
             (chat_world thread_id w)).1 "status" = status ->
        body (ChatView_post uuid4 agent_graph thread_id message user_id log w).1.1
          !! "status" = Some (RStr status))
  /\ (ChatView_post uuid4 agent_graph thread_id message user_id log w).2
     = (run_agent_with_input uuid4 agent_graph (Some message)
          (Some (chat_thread uuid4 thread_id w)) (Some user_id) None
          (chat_world thread_id w)).2
  /\ (exists rest,
        (ChatView_post uuid4 agent_graph thread_id message user_id log w).1.2
        = (chat_before thread_id log ++ ("user", CStr message) :: rest)%list
        /\ (1 <= length rest <= 2)%nat
        /\ Forall (fun entry => entry.1 = "assistant") rest).
Proof.
  unfold ChatView_post, chat_thread, chat_before, chat_world, chat_try.
  destruct (str_truthy thread_id).
  all: match goal with
       | |- context [run_agent_with_input uuid4 agent_graph ?a ?b ?c ?d ?e] =>
           destruct (run_agent_with_input uuid4 agent_graph a b c d e)
             as [result w1]
       end.
  all: destruct (bool_decide_reflect (str_field result "status" = "interrupted"))
         as [Hi|Hi];
       [simpl; split_and!;
        [reflexivity | reflexivity | right; by left
        | intros status [->| ->] Hs; [reflexivity | by rewrite Hi in Hs]
        | reflexivity
        | eexists [_]; rewrite <- ?app_assoc;
          split_and!; [reflexivity | simpl; lia | simpl; lia
                      | by repeat constructor]]|].
  all: destruct (bool_decide_reflect (str_field result "status" = "error"))
         as [He|He];
       [simpl; split_and!;
        [reflexivity | reflexivity | right; by right
        | intros status [->| ->] Hs; [contradiction | reflexivity]
        | reflexivity
        | eexists [_; _]; rewrite <- ?app_assoc;
          split_and!; [reflexivity | simpl; lia | simpl; lia
                      | by repeat constructor]]|].
  all: destruct (final_ai_message result) as [[final_message|]|e]; simpl.
  all: split_and!;
       [reflexivity | reflexivity
       | first [by left | right; by right]
       | intros status [->| ->] Hs; contradiction
       | reflexivity
       | eexists [_]; rewrite <- ?app_assoc;
         split_and!; [reflexivity | simpl; lia | simpl; lia
                     | by repeat constructor]].
Qed.

End Chatting.

(** ** Continuing from a message *)

Lemma same_key_same_row {A : Type} (key : A -> Z) (rows : list A) (x y : A) :
  NoDup (key <$> rows) -> x ∈ rows -> y ∈ rows -> key x = key y -> x = y.
Proof.
  induction rows as [|z rows IH]; intros Hnd Hx Hy Hkey;
    [by apply elem_of_nil in Hx|].
  rewrite fmap_cons in Hnd. apply NoDup_cons in Hnd as [Hz Hnd].
  apply elem_of_cons in Hx as [->|Hx]; apply elem_of_cons in Hy as [->|Hy].
  - reflexivity.
  - exfalso. apply Hz. rewrite Hkey. apply list_elem_of_fmap. by exists y.
  - exfalso. apply Hz. rewrite <- Hkey. apply list_elem_of_fmap. by exists x.
  - by apply IH.
Qed.

Lemma truncate_after_sub (rows : list StoredMessage) (thread_id : string)
    (message_id : option Z) (m : StoredMessage) :
  m ∈ truncate_after rows thread_id message_id -> m ∈ rows.
Proof.
  unfold truncate_after. destruct message_id as [id|]; [|done].
  destruct (decide (id = 0)); [done|].
  destruct (List.find _ rows); [|done].
  intros Hin. by apply list_elem_of_filter in Hin as [_ Hin].
Qed.

Lemma truncate_after_others (rows : list StoredMessage) (thread_id : string)
    (message_id : option Z) (m : StoredMessage) :
  m ∈ rows -> stored_conversation m <> thread_id ->
  m ∈ truncate_after rows thread_id message_id.
Proof.
  intros Hin Hother. unfold truncate_after.
  destruct message_id as [id|]; [|done].
  destruct (decide (id = 0)); [done|].
  destruct (List.find _ rows); [|done].
  apply list_elem_of_filter. split; [|exact Hin]. by intros [? _].
Qed.

Section Continuing.

Context {Storage : Type}.
Variable uuid4 : nat -> string.
Variable agent_graph : CompiledGraph Storage.

(** X20: continuing from a message keeps every message of other
    conversations and, of this conversation, the messages created no
    later than the one named: that one stays, as do those of the same
    instant.  When no message is named, or none of this conversation
    has the id, nothing is deleted.  After what is kept, the user
    message is stored in every case; the answer is the conversation
    only when the run completed with an assistant message, which is
    then stored too, and an error with nothing more stored otherwise.
    The agent is called once. *)
Theorem continue_from_message_truncates (thread_id : string)
    (message_id : option Z) (user_input user_id : string) (new_id now later : Z)
    (rows : list StoredMessage) (w : World Storage)
    (Hids : NoDup (stored_id <$> rows)) :
  (exists replies,
      (continue_from_message uuid4 agent_graph thread_id message_id user_input
         user_id new_id now later rows w).1.2
      = (truncate_after rows thread_id message_id
         ++ mkStored new_id thread_id now "user" (CStr user_input) :: replies)%list
      /\ (((continue_from_message uuid4 agent_graph thread_id message_id
              user_input user_id new_id now later rows w).1.1 = Conversation200
           /\ str_field
                (run_agent_with_input uuid4 agent_graph (Some user_input)
                   (Some thread_id) (Some user_id) None w).1 "status"
              = "complete"
           /\ exists reply,
                replies = [mkStored (new_id + 1) thread_id later "assistant" reply])
          \/ ((exists status message,
                 (continue_from_message uuid4 agent_graph thread_id message_id
                    user_input user_id new_id now later rows w).1.1
                 = Error500 status message)
              /\ replies = [])))
  /\ (continue_from_message uuid4 agent_graph thread_id message_id user_input
        user_id new_id now later rows w).2
     = (run_agent_with_input uuid4 agent_graph (Some user_input)
          (Some thread_id) (Some user_id) None w).2
  /\ (forall m,
        m ∈ rows -> stored_conversation m <> thread_id ->
        m ∈ truncate_after rows thread_id message_id)
  /\ (forall id named,
        message_id = Some id -> id <> 0 ->
        named ∈ rows -> stored_id named = id ->
        stored_conversation named = thread_id ->
        forall m,
          m ∈ truncate_after rows thread_id message_id <->
          m ∈ rows
          /\ (stored_conversation m <> thread_id
              \/ stored_at m <= stored_at named))
  /\ ((forall id,
         message_id = Some id -> id <> 0 ->
         forall m, m ∈ rows -> stored_id m = id ->
                   stored_conversation m <> thread_id) ->
      truncate_after rows thread_id message_id = rows).
Proof.
  split_and!.
  - unfold continue_from_message.
    destruct (run_agent_with_input uuid4 agent_graph (Some user_input)
                (Some thread_id) (Some user_id) None w) as [result w1].
    destruct (bool_decide_reflect (str_field result "status" = "complete"))
      as [Hc|Hc].
    + destruct (final_ai_message result) as [[final_message|]|e]; simpl.
      * eexists [_]. rewrite <- app_assoc. split; [reflexivity|].
        left. split_and!; [reflexivity | exact Hc | by eexists].
      * exists []. split; [reflexivity|]. right. split; [by eexists _, _ | done].
      * exists []. split; [reflexivity|]. right. split; [by eexists _, _ | done].
    + simpl. exists []. split; [reflexivity|].
      right. split; [by eexists _, _ | done].
  - unfold continue_from_message.
    destruct (run_agent_with_input uuid4 agent_graph (Some user_input)
                (Some thread_id) (Some user_id) None w) as [result w1].
    destruct (bool_decide (str_field result "status" = "complete"));
      [destruct (final_ai_message result) as [[final_message|]|e]|];
      reflexivity.
  - intros m. apply truncate_after_others.
  - intros id named -> Hid Hnamed Hnid Hconv m. unfold truncate_after.
    rewrite decide_False by exact Hid.
    destruct (List.find _ rows) as [continue_from|] eqn:F.
    + apply find_some in F as [Hin Hp]. apply bool_decide_eq_true in Hp.
      destruct Hp as [Hcid Hcconv].
      assert (continue_from = named) as ->.
      { apply (same_key_same_row stored_id rows); [exact Hids | | exact Hnamed |].
        - by apply list_elem_of_In.
        - by rewrite Hcid, Hnid. }
      rewrite list_elem_of_filter. split.
      * intros [Hkeep Hm]. split; [exact Hm|].
        destruct (decide (stored_conversation m = thread_id)) as [Hsame|Hother];
          [|by left].
        right. destruct (Z.le_gt_cases (stored_at m) (stored_at named));
          [assumption|].
        exfalso. apply Hkeep. split; [exact Hsame | lia].
      * intros [Hm Hcase]. split; [|exact Hm].
        intros [Hsame Hlater]. destruct Hcase as [Hother|Hle];
          [contradiction | lia].
    + exfalso. apply list_elem_of_In in Hnamed.
      pose proof (find_none _ _ F _ Hnamed) as Hn. simpl in Hn.
      by rewrite bool_decide_eq_true_2 in Hn.
  - intros Hnone. unfold truncate_after.
    destruct message_id as [id|]; [|reflexivity].
    destruct (decide (id = 0)) as [|Hid]; [reflexivity|].
    destruct (List.find _ rows) as [continue_from|] eqn:F; [|reflexivity].
    apply find_some in F as [Hin Hp]. apply bool_decide_eq_true in Hp.
    destruct Hp as [Hcid Hcconv].
    exfalso. apply (Hnone id eq_refl Hid continue_from);
      [by apply list_elem_of_In | exact Hcid | exact Hcconv].
Qed.

End Continuing.

Lemma continue_from_message_truncates_witness :
  let rows := [mkStored 1 "a" 10 "user" (CStr "hello");
               mkStored 2 "a" 11 "assistant" (CStr "hi");
               mkStored 3 "b" 12 "user" (CStr "other");
               mkStored 4 "a" 13 "user" (CStr "more");
               mkStored 5 "a" 14 "assistant" (CStr "done")] in
  truncate_after rows "a" (Some 2)
  = [mkStored 1 "a" 10 "user" (CStr "hello");
     mkStored 2 "a" 11 "assistant" (CStr "hi");
     mkStored 3 "b" 12 "user" (CStr "other")]
  /\ truncate_after rows "a" (Some 3) = rows.
Proof.
  intros rows. split; [reflexivity|].
  refine (proj2 (proj2 (proj2 (proj2
            (continue_from_message_truncates (fun _ => "t")
               (compile (build_complete_agent_system answering) 25)
               "a" (Some 3) "again" "7" 6 15 16 rows
               (mkWorld 0 ∅) _)))) _).
  - refine (bool_decide_unpack _ _). vm_compute. exact I.
  - intros id Hid _ m Hm Hmid. injection Hid as <-.
    subst rows. rewrite !elem_of_cons, elem_of_nil in Hm.
    destruct Hm as [->|[->|[->|[->|[->|[]]]]]]; simpl in Hmid;
      try discriminate Hmid.
    discriminate.
Defined.

(** ** The active language model *)

Lemma filter_none {A : Type} (P : A -> Prop) `{forall x, Decision (P x)}
    (l : list A) :
  (forall x, x ∈ l -> ~ P x) -> filter P l = [].
Proof.
  induction l as [|x l IH]; intros Hnone; [reflexivity|].
  rewrite filter_cons. rewrite decide_False by (apply Hnone; by left).
  apply IH. intros y Hy. apply Hnone. by right.
Qed.

Section ActiveModel.

Context {float : Type}.
Variable zero : float.
Variable load_error : @Llm.LLM float -> option Exn.

Lemma activate_others (model : @Llm.LLMModel float) (rows : list Llm.LLMModel) :
  (forall r, r ∈ rows -> Llm.pk r <> Llm.pk model) ->
  filter (fun r => Llm.is_active r = true)
    ((fun r => if decide (Llm.pk r = Llm.pk model)
               then Llm.with_active true model
               else Llm.with_active false r) <$> rows) = [].
Proof.
  induction rows as [|r rows IH]; intros Hother; [reflexivity|].
  rewrite fmap_cons, filter_cons.
  destruct (decide (Llm.pk r = Llm.pk model)) as [Heq|_].
  - exfalso. apply (Hother r); [by left | exact Heq].
  - simpl. try (rewrite decide_False by discriminate).
    apply IH. intros r' Hr'. apply Hother. by right.
Qed.

Lemma activate_one (model : @Llm.LLMModel float) (rows : list Llm.LLMModel) :
  NoDup (Llm.pk <$> rows) ->
  model ∈ rows ->
  filter (fun r => Llm.is_active r = true)
    ((fun r => if decide (Llm.pk r = Llm.pk model)
               then Llm.with_active true model
               else Llm.with_active false r) <$> rows)
  = [Llm.with_active true model].
Proof.
  induction rows as [|r rows IH]; intros Hnd Hin; [by apply elem_of_nil in Hin|].
  rewrite fmap_cons in Hnd. apply NoDup_cons in Hnd as [Hr Hnd].
  rewrite fmap_cons, filter_cons.
  destruct (decide (Llm.pk r = Llm.pk model)) as [Heq|Hne].
  - simpl. try (rewrite decide_True by reflexivity). f_equal.
    apply activate_others. intros r' Hr' Heq'. apply Hr.
    rewrite Heq, <- Heq'. apply list_elem_of_fmap. by exists r'.
  - simpl. try (rewrite decide_False by discriminate).
    apply elem_of_cons in Hin as [->|Hin]; [contradiction|].
    by apply IH.
Qed.

(** X21: activating a model leaves exactly that model active, whatever
    was active before, and changes nothing else of the table; from then
    on [get_llm], called without a name or with a name no model has, is
    built from that model: for the provider [ollama] with the model's
    name, temperature and base URL, the local default where the model
    has none.  When building it fails, the default model is returned
    instead of an error. *)
Theorem activated_model_is_used (table : list (@Llm.LLMModel float)) (k : Z)
    (m : Llm.LLMModel) :
  NoDup (Llm.pk <$> table) ->
  m ∈ table ->
  Llm.pk m = k ->
  exists table',
    Llm.set_active table k = Some table'
    /\ (forall r, r ∈ table' -> (Llm.is_active r = true <-> Llm.pk r = k))
    /\ Llm.with_active true <$> table' = Llm.with_active true <$> table
    /\ Llm.get_llm zero load_error table' None
       = match Llm.build zero load_error m with
         | Ok llm => llm
         | Raise _ => Llm.default_llm zero
         end
    /\ (forall model_name,
          (forall r, r ∈ table -> Llm.name r <> model_name) ->
          Llm.get_llm zero load_error table' (Some model_name)
          = Llm.get_llm zero load_error table' None)
    /\ (Llm.provider m = "ollama" ->
        Llm.get_llm zero load_error table' None
        = Llm.ChatOllama (Llm.name m) (Llm.temperature m)
            (match given (Llm.api_base m) with
             | Some base => base
             | None => "http://localhost:11434"
             end)).
Proof.
  intros Hnd Hm Hk. unfold Llm.set_active.
  destruct (List.find _ table) as [model|] eqn:F.
  2:{ exfalso. apply list_elem_of_In in Hm.
      pose proof (find_none _ _ F _ Hm) as Hn. simpl in Hn.
      by rewrite bool_decide_eq_true_2 in Hn. }
  apply find_some in F as [Hin Hp]. apply bool_decide_eq_true in Hp.
  assert (model = m) as ->.
  { apply (same_key_same_row Llm.pk table); [exact Hnd | | exact Hm | congruence].
    by apply list_elem_of_In. }
  clear Hin Hp. eexists. split; [reflexivity|].
  assert (Llm.get_llm zero load_error
            ((fun r => if decide (Llm.pk r = Llm.pk m)
                       then Llm.with_active true m
                       else Llm.with_active false r) <$> table) None
          = match Llm.build zero load_error m with
            | Ok llm => llm
            | Raise _ => Llm.default_llm zero
            end) as Hget.
  { unfold Llm.get_llm, Llm.get_llm_body, Llm.first_active. simpl.
    rewrite (activate_one m table Hnd Hm). simpl.
    change (Llm.build zero load_error (Llm.with_active true m))
      with (Llm.build zero load_error m).
    by destruct (Llm.build zero load_error m). }
  split_and!.
  - intros r Hr. apply list_elem_of_fmap in Hr as (r0 & -> & Hr0).
    destruct (decide (Llm.pk r0 = Llm.pk m)) as [Heq|Hne]; simpl.
    + by rewrite <- Hk.
    + split; [discriminate|]. intros Heq. exfalso. apply Hne. by rewrite Hk.
  - rewrite <- list_fmap_compose. apply Forall_fmap_ext_1, Forall_forall.
    intros r Hr. simpl.
    destruct (decide (Llm.pk r = Llm.pk m)) as [Heq|Hne]; [|reflexivity].
    assert (r = m) as -> by (by apply (same_key_same_row Llm.pk table)).
    reflexivity.
  - exact Hget.
  - intros model_name Hname. unfold Llm.get_llm, Llm.get_llm_body.
    destruct (given (Some model_name)) as [n|] eqn:G; [|reflexivity].
    assert (n = model_name) as ->.
    { unfold given in G. destruct (str_truthy model_name); congruence. }
    rewrite filter_none; [reflexivity|].
    intros r Hr. apply list_elem_of_fmap in Hr as (r0 & -> & Hr0).
    destruct (decide (Llm.pk r0 = Llm.pk m)); simpl; by apply Hname.
  - intros Hp. rewrite Hget. unfold Llm.build. by rewrite decide_True.
Qed.

End ActiveModel.

Lemma activated_model_is_used_witness :
  exists table',
    Llm.set_active
      [Llm.mkLLMModel 1 "llama3" "ollama" None None 7 1000 true;
       Llm.mkLLMModel 2 "mistral" "ollama" (Some "http://gpu:11434") None 2 500
         false] 2
    = Some table'
    /\ Llm.get_llm 0 (fun _ => None) table' None
       = Llm.ChatOllama "mistral" 2 "http://gpu:11434".
Proof.
  destruct (activated_model_is_used 0 (fun _ => None)
              [Llm.mkLLMModel 1 "llama3" "ollama" None None 7 1000 true;
               Llm.mkLLMModel 2 "mistral" "ollama" (Some "http://gpu:11434")
                 None 2 500 false]
              2
              (Llm.mkLLMModel 2 "mistral" "ollama" (Some "http://gpu:11434")
                 None 2 500 false))
    as (table' & Hset & _ & _ & _ & _ & Hollama).
  - refine (bool_decide_unpack _ _). vm_compute. exact I.
  - rewrite !elem_of_cons. right. by left.
  - reflexivity.
  - exists table'. split; [exact Hset|]. exact (Hollama eq_refl).
Defined.

(** ** Initial data *)

Lemma table_insert_other (m m' : InitDb.Model) (row : InitDb.Row) (db : InitDb.DB) :
  m <> m' -> InitDb.table m' (InitDb.insert m row db) = InitDb.table m' db.
Proof. intros Hne. destruct m, m'; try reflexivity; contradiction. Qed.

Lemma create_keeps_others (m m' : InitDb.Model) (row : InitDb.Row) (db : InitDb.DB) :
  m <> m' -> InitDb.table m' (InitDb.create m row db).2 = InitDb.table m' db.
Proof.
  intros Hne. unfold InitDb.create.
  destruct (List.find _ row); [reflexivity|].
  by apply table_insert_other.
Qed.

Lemma create_all_keeps_others (m m' : InitDb.Model) (rows : list InitDb.Row) :
  m <> m' ->
  forall db, InitDb.table m' (InitDb.create_all m rows db).2 = InitDb.table m' db.
Proof.
  intros Hne. induction rows as [|row rows IH]; intros db; [reflexivity|].
  simpl. pose proof (create_keeps_others m m' row db Hne) as Hc.
  destruct (InitDb.create m row db) as [[[]|e] db']; simpl in Hc.
  - by rewrite IH.
  - exact Hc.
Qed.

Lemma seed_keeps_others (m m' : InitDb.Model) (rows : list InitDb.Row)
    (db : InitDb.DB) :
  m <> m' -> InitDb.table m' (InitDb.seed m rows db).2 = InitDb.table m' db.
Proof.
  intros Hne. unfold InitDb.seed.
  destruct (bool_decide _); [by apply create_all_keeps_others | reflexivity].
Qed.

Lemma ensure_admin_keeps_others (m' : InitDb.Model) (db : InitDb.DB) :
  InitDb.User <> m' ->
  InitDb.table m' (InitDb.ensure_admin db).2 = InitDb.table m' db.
Proof.
  intros Hne. unfold InitDb.ensure_admin.
  destruct (existsb _ _); [reflexivity | by apply table_insert_other].
Qed.

Lemma register_chinook_keeps (db_path : string) (file_error : option Exn)
    (m' : InitDb.Model) (db : InitDb.DB) :
  InitDb.table m' (InitDb.register_chinook db_path file_error db).2
  = InitDb.table m' db.
Proof.
  unfold InitDb.register_chinook.
  destruct (bool_decide _); [|reflexivity].
  destruct file_error; [reflexivity|]. by destruct m'.
Qed.

Lemma register_chinook_fails (db_path : string) (file_error : option Exn)
    (db : InitDb.DB) :
  InitDb.table InitDb.Database db = [] ->
  exists e, (InitDb.register_chinook db_path file_error db).1 = Raise e.
Proof.
  intros Hempty. unfold InitDb.register_chinook.
  rewrite bool_decide_eq_true_2 by exact Hempty.
  destruct file_error as [e|]; by eexists.
Qed.

Lemma seed_agent_config_fails (db : InitDb.DB) :
  InitDb.table InitDb.AgentConfig db = [] ->
  exists e db',
    InitDb.seed InitDb.AgentConfig [InitDb.default_agent_config] db = (Raise e, db')
    /\ InitDb.table InitDb.AgentConfig db' = [].
Proof.
  intros Hempty. unfold InitDb.seed.
  rewrite bool_decide_eq_true_2 by exact Hempty.
  eexists _, db. split; [reflexivity | exact Hempty].
Qed.

Lemma run_steps_invariant (P : InitDb.DB -> Prop)
    (steps : list (InitDb.DB -> result unit * InitDb.DB)) :
  Forall (fun step => forall db, P db -> P (step db).2) steps ->
  forall db, P db -> P (InitDb.run_steps steps db).2.
Proof.
  induction 1 as [|step steps Hstep _ IH]; intros db HP; [exact HP|].
  simpl. pose proof (Hstep db HP) as HP'.
  destruct (step db) as [[[]|e] db']; simpl in HP'; [by apply IH | exact HP'].
Qed.

Lemma run_steps_fails (P : InitDb.DB -> Prop)
    (steps : list (InitDb.DB -> result unit * InitDb.DB)) :
  Forall (fun step => forall db, P db -> P (step db).2) steps ->
  Exists (fun step => forall db, P db -> exists e, (step db).1 = Raise e) steps ->
  forall db, P db -> exists e, (InitDb.run_steps steps db).1 = Raise e.
Proof.
  intros Hkeep Hfail. induction Hfail as [step steps Hstep|step steps _ IH];
    intros db HP; apply Forall_cons in Hkeep as [Hk Hkeep]; simpl.
  - destruct (Hstep db HP) as [e He].
    destruct (step db) as [[[]|e'] db']; simpl in He; [discriminate | by eexists].
  - pose proof (Hk db HP) as HP'.
    destruct (step db) as [[[]|e'] db']; simpl in HP'; [|by eexists].
    by apply IH.
Qed.

Section InitialData.

Variable db_path : string.
Variable file_error : option Exn.

Lemma handle_keeps_no_database :
  Forall (fun step => forall db,
            InitDb.table InitDb.Database db = [] ->
            InitDb.table InitDb.Database (step db).2 = [])
    [InitDb.ensure_admin;
     InitDb.seed InitDb.LLMModel InitDb.default_llm_models;
     InitDb.seed InitDb.AgentType InitDb.default_agent_types;
     InitDb.seed InitDb.Tool InitDb.default_tools;
     InitDb.register_chinook db_path file_error;
     InitDb.seed InitDb.AgentConfig [InitDb.default_agent_config]].
Proof.
  repeat apply Forall_cons_2; try apply Forall_nil_2; intros db Hdb.
  - by rewrite ensure_admin_keeps_others.
  - by rewrite seed_keeps_others.
  - by rewrite seed_keeps_others.
  - by rewrite seed_keeps_others.
  - by rewrite register_chinook_keeps.
  - by rewrite seed_keeps_others.
Qed.

Lemma handle_keeps_no_agent_config :
  Forall (fun step => forall db,
            InitDb.table InitDb.AgentConfig db = [] ->
            InitDb.table InitDb.AgentConfig (step db).2 = [])
    [InitDb.ensure_admin;
     InitDb.seed InitDb.LLMModel InitDb.default_llm_models;
     InitDb.seed InitDb.AgentType InitDb.default_agent_types;
     InitDb.seed InitDb.Tool InitDb.default_tools;
     InitDb.register_chinook db_path file_error;
     InitDb.seed InitDb.AgentConfig [InitDb.default_agent_config]].
Proof.
  repeat apply Forall_cons_2; try apply Forall_nil_2; intros db Hdb.
  - by rewrite ensure_admin_keeps_others.
  - by rewrite seed_keeps_others.
  - by rewrite seed_keeps_others.
  - by rewrite seed_keeps_others.
  - by rewrite register_chinook_keeps.
  - destruct (seed_agent_config_fails db Hdb) as (e & db' & -> & Hdb').
    exact Hdb'.
Qed.

Lemma handle_fails_without_database (db : InitDb.DB) :
  InitDb.table InitDb.Database db = [] ->
  (exists e, (InitDb.handle db_path file_error db).1 = Raise e)
  /\ InitDb.table InitDb.Database (InitDb.handle db_path file_error db).2 = [].
Proof.
  intros Hdb. split.
  - apply (run_steps_fails (fun d => InitDb.table InitDb.Database d = []));
      [apply handle_keeps_no_database | | exact Hdb].
    do 4 apply Exists_cons_tl. apply Exists_cons_hd.
    intros d Hd. by apply register_chinook_fails.
  - apply (run_steps_invariant (fun d => InitDb.table InitDb.Database d = []));
      [apply handle_keeps_no_database | exact Hdb].
Qed.

Lemma handle_fails_without_agent_config (db : InitDb.DB) :
  InitDb.table InitDb.AgentConfig db = [] ->
  (exists e, (InitDb.handle db_path file_error db).1 = Raise e)
  /\ InitDb.table InitDb.AgentConfig (InitDb.handle db_path file_error db).2 = [].
Proof.
  intros Hdb. split.
  - apply (run_steps_fails (fun d => InitDb.table InitDb.AgentConfig d = []));
      [apply handle_keeps_no_agent_config | | exact Hdb].
    do 5 apply Exists_cons_tl. apply Exists_cons_hd.
    intros d Hd. destruct (seed_agent_config_fails d Hd) as (e & db' & -> & _).
    by eexists.
  - apply (run_steps_invariant (fun d => InitDb.table InitDb.AgentConfig d = []));
      [apply handle_keeps_no_agent_config | exact Hdb].
Qed.

(** X22: the command that initialises the database cannot register the
    Chinook database nor create the default agent configuration: it
    names a field the model does not have ([description] of
    [Database], [config_json] of [AgentConfig]).  So a run fails
    whenever there is no database row or no agent configuration, and
    leaves that table empty; a run that completes created neither; and
    from an empty database no number of runs ever completes, though the
    first leaves the admin user, the models, the agent types and the
    tools behind. *)
Theorem init_db_never_completes (db : InitDb.DB) :
  (InitDb.table InitDb.Database db = [] ->
   (exists e, (InitDb.handle db_path file_error db).1 = Raise e)
   /\ InitDb.table InitDb.Database (InitDb.handle db_path file_error db).2 = [])
  /\ (InitDb.table InitDb.AgentConfig db = [] ->
      (exists e, (InitDb.handle db_path file_error db).1 = Raise e)
      /\ InitDb.table InitDb.AgentConfig (InitDb.handle db_path file_error db).2
         = [])
  /\ ((InitDb.handle db_path file_error db).1 = Ok tt ->
      InitDb.table InitDb.Database db <> []
      /\ InitDb.table InitDb.AgentConfig db <> [])
  /\ (forall runs : nat,
        exists e,
          (InitDb.handle db_path file_error
             (Nat.iter runs (fun d => (InitDb.handle db_path file_error d).2)
                InitDb.empty)).1 = Raise e)
  /\ (file_error = None ->
      exists message,
        InitDb.handle db_path file_error InitDb.empty
        = (Raise (error "TypeError" message),
           InitDb.mkDB [InitDb.admin] InitDb.default_llm_models
             InitDb.default_agent_types InitDb.default_tools [] [] true)).
Proof.
  split_and!.
  - apply handle_fails_without_database.
  - apply handle_fails_without_agent_config.
  - intros Hok. split; intros Hempty.
    + destruct (handle_fails_without_database db Hempty) as [[e He] _].
      rewrite He in Hok. discriminate.
    + destruct (handle_fails_without_agent_config db Hempty) as [[e He] _].
      rewrite He in Hok. discriminate.
  - intros runs. apply handle_fails_without_database.
    induction runs as [|runs IH]; [reflexivity|].
    simpl. by apply handle_fails_without_database.
  - intros ->. eexists. reflexivity.
Qed.

End InitialData.
